(** * LOCBot: counting non-empty source lines, fetching a GitHub snapshot,
      rendering the report and the chat front end.

    A shallow embedding of [count_loc.py] and [tg_loc_bot.py].

    Python [str] values are sequences of Unicode code points, so a string
    is a [list Z] here; [u "..."] turns a literal into one.  The
    file system, the network, the archive extraction and the outcomes of
    the Telegram calls are observed through explicit interfaces
    ([FileSystem], section variables, the state of a handler).  The
    standard library is the one of Python 3.11 (Unicode 14.0). *)

From Stdlib Require Import ZArith Ascii String DecimalString.
From stdpp Require Import gmap strings list fin_maps sorting.

Local Open Scope Z_scope.

(** ** Python strings *)

Abbreviation str := (list Z).

Fixpoint bytes_of (s : string) : list Z :=
  match s with
  | EmptyString => []
  | String a s' => Z.of_nat (nat_of_ascii a) :: bytes_of s'
  end.

(** UTF-8 decoding of a well-formed byte sequence, for the literals. *)
Fixpoint utf8 (bs : list Z) : str :=
  match bs with
  | [] => []
  | b0 :: t0 =>
      if b0 <? 128 then b0 :: utf8 t0
      else
        match t0 with
        | [] => []
        | b1 :: t1 =>
            if b0 <? 224 then ((b0 - 192) * 64 + (b1 - 128)) :: utf8 t1
            else
              match t1 with
              | [] => []
              | b2 :: t2 =>
                  if b0 <? 240
                  then ((b0 - 224) * 4096 + (b1 - 128) * 64 + (b2 - 128)) :: utf8 t2
                  else
                    match t2 with
                    | [] => []
                    | b3 :: t3 =>
                        ((b0 - 240) * 262144 + (b1 - 128) * 4096
                         + (b2 - 128) * 64 + (b3 - 128)) :: utf8 t3
                    end
              end
        end
  end.

(** The code points of a literal written in the source encoding. *)
Definition u (s : string) : str := utf8 (bytes_of s).

Module Py.

(** [str.isspace] on one code point; [str.strip()] and the regular
    expression class [\s] use the same table. *)
Definition isspace (c : Z) : bool :=
  ((9 <=? c) && (c <=? 13)) || ((28 <=? c) && (c <=? 32))
  || (c =? 133) || (c =? 160) || (c =? 5760)
  || ((8192 <=? c) && (c <=? 8202))
  || (c =? 8232) || (c =? 8233) || (c =? 8239) || (c =? 8287) || (c =? 12288).

(** The line boundaries of [str.splitlines]: LF, VT, FF, CR, FS, GS, RS,
    NEL, LS, PS. *)
Definition is_linebreak (c : Z) : bool :=
  ((10 <=? c) && (c <=? 13)) || ((28 <=? c) && (c <=? 30))
  || (c =? 133) || (c =? 8232) || (c =? 8233).

(** The universal newlines: LF and CR (CR LF counts as one boundary). *)
Definition is_universal_newline (c : Z) : bool := (c =? 10) || (c =? 13).

Fixpoint lstrip_with (p : Z -> bool) (s : str) : str :=
  match s with
  | [] => []
  | c :: s' => if p c then lstrip_with p s' else s
  end.

Definition rstrip_with (p : Z -> bool) (s : str) : str :=
  rev (lstrip_with p (rev s)).

Definition strip_with (p : Z -> bool) (s : str) : str :=
  rstrip_with p (lstrip_with p s).

(** [s.strip()] *)
Definition strip (s : str) : str := strip_with isspace s.

(** [s.strip(chars)] *)
Definition strip_chars (chars : str) (s : str) : str :=
  strip_with (fun c => bool_decide (c ∈ chars)) s.

(** Truthiness of a string. *)
Definition truthy (s : str) : bool :=
  match s with [] => false | _ => true end.

(** The scanning loop of [splitlines], parametrised by the boundary test:
    [cur] holds the current line reversed; a boundary closes the line, CR
    followed by LF is consumed as one boundary, and what remains after
    the last boundary is a line only when it is not empty. *)
Fixpoint split_lines_from (brk : Z -> bool) (cur : str) (s : str) : list str :=
  match s with
  | [] => match cur with [] => [] | _ => [rev cur] end
  | c :: s' =>
      if brk c then
        rev cur ::
          (if c =? 13 then
             match s' with
             | d :: s'' => if d =? 10 then split_lines_from brk [] s''
                           else split_lines_from brk [] s'
             | [] => split_lines_from brk [] s'
             end
           else split_lines_from brk [] s')
      else split_lines_from brk (c :: cur) s'
  end.

(** [s.splitlines()] *)
Definition splitlines (s : str) : list str := split_lines_from is_linebreak [] s.

(** *** Letter case

    The case tables are those of the interpreter (Unicode 14.0).  A row
    [(lo, hi, step, d)] of [lower_table] stands for the code points [lo],
    [lo + step], ..., [hi], each of which has the lower case [c + d];
    every other code point is its own lower case. *)
Definition lower_table : list (Z * Z * Z * Z) :=
  [ (65, 90, 1, 32); (192, 214, 1, 32); (216, 222, 1, 32); (256, 302, 2, 1);
    (304, 304, 1, -199); (306, 310, 2, 1); (313, 327, 2, 1);
    (330, 374, 2, 1); (376, 376, 1, -121); (377, 381, 2, 1);
    (385, 385, 1, 210); (386, 388, 2, 1); (390, 390, 1, 206);
    (391, 391, 1, 1); (393, 394, 1, 205); (395, 395, 1, 1);
    (398, 398, 1, 79); (399, 399, 1, 202); (400, 400, 1, 203);
    (401, 401, 1, 1); (403, 403, 1, 205); (404, 404, 1, 207);
    (406, 406, 1, 211); (407, 407, 1, 209); (408, 408, 1, 1);
    (412, 412, 1, 211); (413, 413, 1, 213); (415, 415, 1, 214);
    (416, 420, 2, 1); (422, 422, 1, 218); (423, 423, 1, 1);
    (425, 425, 1, 218); (428, 428, 1, 1); (430, 430, 1, 218);
    (431, 431, 1, 1); (433, 434, 1, 217); (435, 437, 2, 1);
    (439, 439, 1, 219); (440, 440, 1, 1); (444, 444, 1, 1); (452, 452, 1, 2);
    (453, 453, 1, 1); (455, 455, 1, 2); (456, 456, 1, 1); (458, 458, 1, 2);
    (459, 475, 2, 1); (478, 494, 2, 1); (497, 497, 1, 2); (498, 500, 2, 1);
    (502, 502, 1, -97); (503, 503, 1, -56); (504, 542, 2, 1);
    (544, 544, 1, -130); (546, 562, 2, 1); (570, 570, 1, 10795);
    (571, 571, 1, 1); (573, 573, 1, -163); (574, 574, 1, 10792);
    (577, 577, 1, 1); (579, 579, 1, -195); (580, 580, 1, 69);
    (581, 581, 1, 71); (582, 590, 2, 1); (880, 882, 2, 1); (886, 886, 1, 1);
    (895, 895, 1, 116); (902, 902, 1, 38); (904, 906, 1, 37);
    (908, 908, 1, 64); (910, 911, 1, 63); (913, 929, 1, 32);
    (931, 939, 1, 32); (975, 975, 1, 8); (984, 1006, 2, 1);
    (1012, 1012, 1, -60); (1015, 1015, 1, 1); (1017, 1017, 1, -7);
    (1018, 1018, 1, 1); (1021, 1023, 1, -130); (1024, 1039, 1, 80);
    (1040, 1071, 1, 32); (1120, 1152, 2, 1); (1162, 1214, 2, 1);
    (1216, 1216, 1, 15); (1217, 1229, 2, 1); (1232, 1326, 2, 1);
    (1329, 1366, 1, 48); (4256, 4293, 1, 7264); (4295, 4295, 1, 7264);
    (4301, 4301, 1, 7264); (5024, 5103, 1, 38864); (5104, 5109, 1, 8);
    (7312, 7354, 1, -3008); (7357, 7359, 1, -3008); (7680, 7828, 2, 1);
    (7838, 7838, 1, -7615); (7840, 7934, 2, 1); (7944, 7951, 1, -8);
    (7960, 7965, 1, -8); (7976, 7983, 1, -8); (7992, 7999, 1, -8);
    (8008, 8013, 1, -8); (8025, 8031, 2, -8); (8040, 8047, 1, -8);
    (8072, 8079, 1, -8); (8088, 8095, 1, -8); (8104, 8111, 1, -8);
    (8120, 8121, 1, -8); (8122, 8123, 1, -74); (8124, 8124, 1, -9);
    (8136, 8139, 1, -86); (8140, 8140, 1, -9); (8152, 8153, 1, -8);
    (8154, 8155, 1, -100); (8168, 8169, 1, -8); (8170, 8171, 1, -112);
    (8172, 8172, 1, -7); (8184, 8185, 1, -128); (8186, 8187, 1, -126);
    (8188, 8188, 1, -9); (8486, 8486, 1, -7517); (8490, 8490, 1, -8383);
    (8491, 8491, 1, -8262); (8498, 8498, 1, 28); (8544, 8559, 1, 16);
    (8579, 8579, 1, 1); (9398, 9423, 1, 26); (11264, 11311, 1, 48);
    (11360, 11360, 1, 1); (11362, 11362, 1, -10743);
    (11363, 11363, 1, -3814); (11364, 11364, 1, -10727);
    (11367, 11371, 2, 1); (11373, 11373, 1, -10780);
    (11374, 11374, 1, -10749); (11375, 11375, 1, -10783);
    (11376, 11376, 1, -10782); (11378, 11378, 1, 1); (11381, 11381, 1, 1);
    (11390, 11391, 1, -10815); (11392, 11490, 2, 1); (11499, 11501, 2, 1);
    (11506, 11506, 1, 1); (42560, 42604, 2, 1); (42624, 42650, 2, 1);
    (42786, 42798, 2, 1); (42802, 42862, 2, 1); (42873, 42875, 2, 1);
    (42877, 42877, 1, -35332); (42878, 42886, 2, 1); (42891, 42891, 1, 1);
    (42893, 42893, 1, -42280); (42896, 42898, 2, 1); (42902, 42920, 2, 1);
    (42922, 42922, 1, -42308); (42923, 42923, 1, -42319);
    (42924, 42924, 1, -42315); (42925, 42925, 1, -42305);
    (42926, 42926, 1, -42308); (42928, 42928, 1, -42258);
    (42929, 42929, 1, -42282); (42930, 42930, 1, -42261);
    (42931, 42931, 1, 928); (42932, 42946, 2, 1); (42948, 42948, 1, -48);
    (42949, 42949, 1, -42307); (42950, 42950, 1, -35384);
    (42951, 42953, 2, 1); (42960, 42960, 1, 1); (42966, 42968, 2, 1);
    (42997, 42997, 1, 1); (65313, 65338, 1, 32); (66560, 66599, 1, 40);
    (66736, 66771, 1, 40); (66928, 66964, 2, 39); (66929, 66937, 2, 39);
    (66941, 66953, 2, 39); (66957, 66961, 2, 39); (66965, 66965, 1, 39);
    (68736, 68786, 1, 64); (71840, 71871, 1, 32); (93760, 93791, 1, 32);
    (125184, 125217, 1, 34) ].

(** The code points with the property [Cased], as ranges. *)
Definition cased_ranges : list (Z * Z) :=
  [ (65, 90); (97, 122); (170, 170); (181, 181); (186, 186); (192, 214);
    (216, 246); (248, 442); (444, 447); (452, 659); (661, 696); (704, 705);
    (736, 740); (837, 837); (880, 883); (886, 887); (890, 893); (895, 895);
    (902, 902); (904, 906); (908, 908); (910, 929); (931, 1013);
    (1015, 1153); (1162, 1327); (1329, 1366); (1376, 1416); (4256, 4293);
    (4295, 4295); (4301, 4301); (4304, 4346); (4349, 4351); (5024, 5109);
    (5112, 5117); (7296, 7304); (7312, 7354); (7357, 7359); (7424, 7615);
    (7680, 7957); (7960, 7965); (7968, 8005); (8008, 8013); (8016, 8023);
    (8025, 8025); (8027, 8027); (8029, 8029); (8031, 8061); (8064, 8116);
    (8118, 8124); (8126, 8126); (8130, 8132); (8134, 8140); (8144, 8147);
    (8150, 8155); (8160, 8172); (8178, 8180); (8182, 8188); (8305, 8305);
    (8319, 8319); (8336, 8348); (8450, 8450); (8455, 8455); (8458, 8467);
    (8469, 8469); (8473, 8477); (8484, 8484); (8486, 8486); (8488, 8488);
    (8490, 8493); (8495, 8500); (8505, 8505); (8508, 8511); (8517, 8521);
    (8526, 8526); (8544, 8575); (8579, 8580); (9398, 9449); (11264, 11492);
    (11499, 11502); (11506, 11507); (11520, 11557); (11559, 11559);
    (11565, 11565); (42560, 42605); (42624, 42653); (42786, 42887);
    (42891, 42894); (42896, 42954); (42960, 42961); (42963, 42963);
    (42965, 42969); (42997, 42998); (43000, 43002); (43824, 43866);
    (43868, 43880); (43888, 43967); (64256, 64262); (64275, 64279);
    (65313, 65338); (65345, 65370); (66560, 66639); (66736, 66771);
    (66776, 66811); (66928, 66938); (66940, 66954); (66956, 66962);
    (66964, 66965); (66967, 66977); (66979, 66993); (66995, 67001);
    (67003, 67004); (67456, 67456); (67459, 67461); (67463, 67504);
    (67506, 67514); (68736, 68786); (68800, 68850); (71840, 71903);
    (93760, 93823); (119808, 119892); (119894, 119964); (119966, 119967);
    (119970, 119970); (119973, 119974); (119977, 119980); (119982, 119993);
    (119995, 119995); (119997, 120003); (120005, 120069); (120071, 120074);
    (120077, 120084); (120086, 120092); (120094, 120121); (120123, 120126);
    (120128, 120132); (120134, 120134); (120138, 120144); (120146, 120485);
    (120488, 120512); (120514, 120538); (120540, 120570); (120572, 120596);
    (120598, 120628); (120630, 120654); (120656, 120686); (120688, 120712);
    (120714, 120744); (120746, 120770); (120772, 120779); (122624, 122633);
    (122635, 122654); (125184, 125251); (127280, 127305); (127312, 127337);
    (127344, 127369) ].

(** The code points with the property [Case_Ignorable], as ranges. *)
Definition case_ignorable_ranges : list (Z * Z) :=
  [ (39, 39); (46, 46); (58, 58); (94, 94); (96, 96); (168, 168); (173, 173);
    (175, 175); (180, 180); (183, 184); (688, 879); (884, 885); (890, 890);
    (900, 901); (903, 903); (1155, 1161); (1369, 1369); (1375, 1375);
    (1425, 1469); (1471, 1471); (1473, 1474); (1476, 1477); (1479, 1479);
    (1524, 1524); (1536, 1541); (1552, 1562); (1564, 1564); (1600, 1600);
    (1611, 1631); (1648, 1648); (1750, 1757); (1759, 1768); (1770, 1773);
    (1807, 1807); (1809, 1809); (1840, 1866); (1958, 1968); (2027, 2037);
    (2042, 2042); (2045, 2045); (2070, 2093); (2137, 2139); (2184, 2184);
    (2192, 2193); (2200, 2207); (2249, 2306); (2362, 2362); (2364, 2364);
    (2369, 2376); (2381, 2381); (2385, 2391); (2402, 2403); (2417, 2417);
    (2433, 2433); (2492, 2492); (2497, 2500); (2509, 2509); (2530, 2531);
    (2558, 2558); (2561, 2562); (2620, 2620); (2625, 2626); (2631, 2632);
    (2635, 2637); (2641, 2641); (2672, 2673); (2677, 2677); (2689, 2690);
    (2748, 2748); (2753, 2757); (2759, 2760); (2765, 2765); (2786, 2787);
    (2810, 2815); (2817, 2817); (2876, 2876); (2879, 2879); (2881, 2884);
    (2893, 2893); (2901, 2902); (2914, 2915); (2946, 2946); (3008, 3008);
    (3021, 3021); (3072, 3072); (3076, 3076); (3132, 3132); (3134, 3136);
    (3142, 3144); (3146, 3149); (3157, 3158); (3170, 3171); (3201, 3201);
    (3260, 3260); (3263, 3263); (3270, 3270); (3276, 3277); (3298, 3299);
    (3328, 3329); (3387, 3388); (3393, 3396); (3405, 3405); (3426, 3427);
    (3457, 3457); (3530, 3530); (3538, 3540); (3542, 3542); (3633, 3633);
    (3636, 3642); (3654, 3662); (3761, 3761); (3764, 3772); (3782, 3782);
    (3784, 3789); (3864, 3865); (3893, 3893); (3895, 3895); (3897, 3897);
    (3953, 3966); (3968, 3972); (3974, 3975); (3981, 3991); (3993, 4028);
    (4038, 4038); (4141, 4144); (4146, 4151); (4153, 4154); (4157, 4158);
    (4184, 4185); (4190, 4192); (4209, 4212); (4226, 4226); (4229, 4230);
    (4237, 4237); (4253, 4253); (4348, 4348); (4957, 4959); (5906, 5908);
    (5938, 5939); (5970, 5971); (6002, 6003); (6068, 6069); (6071, 6077);
    (6086, 6086); (6089, 6099); (6103, 6103); (6109, 6109); (6155, 6159);
    (6211, 6211); (6277, 6278); (6313, 6313); (6432, 6434); (6439, 6440);
    (6450, 6450); (6457, 6459); (6679, 6680); (6683, 6683); (6742, 6742);
    (6744, 6750); (6752, 6752); (6754, 6754); (6757, 6764); (6771, 6780);
    (6783, 6783); (6823, 6823); (6832, 6862); (6912, 6915); (6964, 6964);
    (6966, 6970); (6972, 6972); (6978, 6978); (7019, 7027); (7040, 7041);
    (7074, 7077); (7080, 7081); (7083, 7085); (7142, 7142); (7144, 7145);
    (7149, 7149); (7151, 7153); (7212, 7219); (7222, 7223); (7288, 7293);
    (7376, 7378); (7380, 7392); (7394, 7400); (7405, 7405); (7412, 7412);
    (7416, 7417); (7468, 7530); (7544, 7544); (7579, 7679); (8125, 8125);
    (8127, 8129); (8141, 8143); (8157, 8159); (8173, 8175); (8189, 8190);
    (8203, 8207); (8216, 8217); (8228, 8228); (8231, 8231); (8234, 8238);
    (8288, 8292); (8294, 8303); (8305, 8305); (8319, 8319); (8336, 8348);
    (8400, 8432); (11388, 11389); (11503, 11505); (11631, 11631);
    (11647, 11647); (11744, 11775); (11823, 11823); (12293, 12293);
    (12330, 12333); (12337, 12341); (12347, 12347); (12441, 12446);
    (12540, 12542); (40981, 40981); (42232, 42237); (42508, 42508);
    (42607, 42610); (42612, 42621); (42623, 42623); (42652, 42655);
    (42736, 42737); (42752, 42785); (42864, 42864); (42888, 42890);
    (42994, 42996); (43000, 43001); (43010, 43010); (43014, 43014);
    (43019, 43019); (43045, 43046); (43052, 43052); (43204, 43205);
    (43232, 43249); (43263, 43263); (43302, 43309); (43335, 43345);
    (43392, 43394); (43443, 43443); (43446, 43449); (43452, 43453);
    (43471, 43471); (43493, 43494); (43561, 43566); (43569, 43570);
    (43573, 43574); (43587, 43587); (43596, 43596); (43632, 43632);
    (43644, 43644); (43696, 43696); (43698, 43700); (43703, 43704);
    (43710, 43711); (43713, 43713); (43741, 43741); (43756, 43757);
    (43763, 43764); (43766, 43766); (43867, 43871); (43881, 43883);
    (44005, 44005); (44008, 44008); (44013, 44013); (64286, 64286);
    (64434, 64450); (65024, 65039); (65043, 65043); (65056, 65071);
    (65106, 65106); (65109, 65109); (65279, 65279); (65287, 65287);
    (65294, 65294); (65306, 65306); (65342, 65342); (65344, 65344);
    (65392, 65392); (65438, 65439); (65507, 65507); (65529, 65531);
    (66045, 66045); (66272, 66272); (66422, 66426); (67456, 67461);
    (67463, 67504); (67506, 67514); (68097, 68099); (68101, 68102);
    (68108, 68111); (68152, 68154); (68159, 68159); (68325, 68326);
    (68900, 68903); (69291, 69292); (69446, 69456); (69506, 69509);
    (69633, 69633); (69688, 69702); (69744, 69744); (69747, 69748);
    (69759, 69761); (69811, 69814); (69817, 69818); (69821, 69821);
    (69826, 69826); (69837, 69837); (69888, 69890); (69927, 69931);
    (69933, 69940); (70003, 70003); (70016, 70017); (70070, 70078);
    (70089, 70092); (70095, 70095); (70191, 70193); (70196, 70196);
    (70198, 70199); (70206, 70206); (70367, 70367); (70371, 70378);
    (70400, 70401); (70459, 70460); (70464, 70464); (70502, 70508);
    (70512, 70516); (70712, 70719); (70722, 70724); (70726, 70726);
    (70750, 70750); (70835, 70840); (70842, 70842); (70847, 70848);
    (70850, 70851); (71090, 71093); (71100, 71101); (71103, 71104);
    (71132, 71133); (71219, 71226); (71229, 71229); (71231, 71232);
    (71339, 71339); (71341, 71341); (71344, 71349); (71351, 71351);
    (71453, 71455); (71458, 71461); (71463, 71467); (71727, 71735);
    (71737, 71738); (71995, 71996); (71998, 71998); (72003, 72003);
    (72148, 72151); (72154, 72155); (72160, 72160); (72193, 72202);
    (72243, 72248); (72251, 72254); (72263, 72263); (72273, 72278);
    (72281, 72283); (72330, 72342); (72344, 72345); (72752, 72758);
    (72760, 72765); (72767, 72767); (72850, 72871); (72874, 72880);
    (72882, 72883); (72885, 72886); (73009, 73014); (73018, 73018);
    (73020, 73021); (73023, 73029); (73031, 73031); (73104, 73105);
    (73109, 73109); (73111, 73111); (73459, 73460); (78896, 78904);
    (92912, 92916); (92976, 92982); (92992, 92995); (94031, 94031);
    (94095, 94111); (94176, 94177); (94179, 94180); (110576, 110579);
    (110581, 110587); (110589, 110590); (113821, 113822); (113824, 113827);
    (118528, 118573); (118576, 118598); (119143, 119145); (119155, 119170);
    (119173, 119179); (119210, 119213); (119362, 119364); (121344, 121398);
    (121403, 121452); (121461, 121461); (121476, 121476); (121499, 121503);
    (121505, 121519); (122880, 122886); (122888, 122904); (122907, 122913);
    (122915, 122916); (122918, 122922); (123184, 123197); (123566, 123566);
    (123628, 123631); (125136, 125142); (125252, 125259); (127995, 127999);
    (917505, 917505); (917536, 917631); (917760, 917999) ].

Fixpoint lookup_row (c : Z) (t : list (Z * Z * Z * Z)) : option Z :=
  match t with
  | [] => None
  | (lo, hi, step, d) :: t' =>
      if (lo <=? c) && (c <=? hi) && ((c - lo) mod step =? 0) then Some d
      else lookup_row c t'
  end.

(** The simple lower-case mapping of one code point. *)
Definition lower_char (c : Z) : Z :=
  match lookup_row c lower_table with
  | Some d => c + d
  | None => c
  end.

Definition in_ranges (c : Z) (t : list (Z * Z)) : bool :=
  existsb (fun r => (r.1 <=? c) && (c <=? r.2)) t.

Definition cased (c : Z) : bool := in_ranges c cased_ranges.

Definition case_ignorable (c : Z) : bool := in_ranges c case_ignorable_ranges.

(** The full lower-case mapping of a code point other than the capital
    sigma: U+0130 alone becomes two code points. *)
Definition lower_full (c : Z) : str :=
  if c =? 304 then [105; 775] else [lower_char c].

(** A capital sigma is final when a cased letter stands before it and
    none after it, case-ignorable code points being skipped on both
    sides.  [before] is the text before the sigma, nearest first. *)
Definition final_sigma (before after : str) : bool :=
  match lstrip_with case_ignorable before with
  | c :: _ =>
      cased c
      && match lstrip_with case_ignorable after with
         | d :: _ => negb (cased d)
         | [] => true
         end
  | [] => false
  end.

Fixpoint lower_from (before : str) (s : str) : str :=
  match s with
  | [] => []
  | c :: s' =>
      (if c =? 931 then [if final_sigma before s' then 962 else 963]
       else lower_full c)
      ++ lower_from (c :: before) s'
  end.

(** [s.lower()] *)
Definition lower (s : str) : str := lower_from [] s.

Fixpoint startswith (p s : str) : bool :=
  match p, s with
  | [], _ => true
  | a :: p', b :: s' => (a =? b) && startswith p' s'
  | _ :: _, [] => false
  end.

Definition endswith (p s : str) : bool := startswith (rev p) (rev s).

(** [s.removesuffix(p)] *)
Definition removesuffix (p s : str) : str :=
  if truthy p && endswith p s then take (length s - length p)%nat s else s.

(** [s.split(sep)] for a one-character separator. *)
Fixpoint split_from (sep : Z) (cur : str) (s : str) : list str :=
  match s with
  | [] => [rev cur]
  | c :: s' => if c =? sep then rev cur :: split_from sep [] s'
               else split_from sep (c :: cur) s'
  end.

Definition split (sep : Z) (s : str) : list str := split_from sep [] s.

(** [sep.join(parts)] *)
Fixpoint join (sep : str) (parts : list str) : str :=
  match parts with
  | [] => []
  | [p] => p
  | p :: ps => p ++ sep ++ join sep ps
  end.

(** [str(n)] for an integer. *)
Definition str_of_int (n : Z) : str := u (NilZero.string_of_int (Z.to_int n)).

(** [f"{s:>w}"]: right-aligned in a field of minimum width [w]. *)
Definition rjust (w : nat) (s : str) : str :=
  replicate (w - length s)%nat 32 ++ s.

(** [l[:n]] *)
Definition slice_to {A} (n : Z) (l : list A) : list A :=
  if n <? 0 then take (Z.to_nat (Z.max 0 (Z.of_nat (length l) + n))) l
  else take (Z.to_nat n) l.

End Py.

(** ** Paths and the file system *)

(** A path is the tuple of its [parts], as [pathlib] has it: the anchor
    first (["/"] for an absolute path), then one part per segment. *)
Abbreviation Path := (list (list Z)).

(** The exceptions, by the [except] clause that catches them, each with
    its [str]: [ValueError], [urllib.error.URLError], [zipfile.BadZipFile]
    (subclasses included), and any other [Exception] ([OSError],
    [RuntimeError], an error of the HTTP client or of the Telegram
    library, ...). *)
Inductive exn :=
  | ValueError (msg : str)
  | URLError (msg : str)
  | BadZipFile (msg : str)
  | OtherError (msg : str).

Inductive result (A : Type) :=
  | Ok (a : A)
  | Raise (e : exn).
Arguments Ok {A} a.
Arguments Raise {A} e.

Definition bind {A B} (r : result A) (k : A -> result B) : result B :=
  match r with
  | Ok a => k a
  | Raise e => Raise e
  end.

Notation "x <- r ;; k" := (bind r (fun x => k))
  (at level 100, r at next level, right associativity).

(** What the program observes of the file system.  [fs_rglob root] is
    the enumeration of [root.rglob("*")]: the parts, relative to [root],
    of every entry below it, in the order the platform yields them.
    [fs_read_text p] is [p.read_text(encoding="utf-8", errors="ignore")]:
    the decoded text, or [None] when the read raises [OSError]. *)
Record FileSystem := {
  fs_rglob : Path -> list Path;
  fs_is_file : Path -> bool;
  fs_is_dir : Path -> bool;
  fs_exists : Path -> bool;
  fs_iterdir : Path -> list str;
  fs_read_text : Path -> option str
}.

Module Pathlib.

(** [path.name]: the last part. *)
Definition name (p : Path) : str := default [] (last p).

(** [s.rfind(c)], counting from [i]; [-1] when [c] does not occur. *)
Fixpoint rfind_from (c : Z) (i : Z) (s : str) : Z :=
  match s with
  | [] => -1
  | d :: s' =>
      let r := rfind_from c (i + 1) s' in
      if r =? -1 then (if d =? c then i else -1) else r
  end.

(** [path.suffix]: the name from its last dot on, unless that dot is the
    first or the last character of the name. *)
Definition suffix (p : Path) : str :=
  let nm := name p in
  let i := rfind_from 46 0 nm in
  if (0 <? i) && (i <? Z.of_nat (length nm) - 1) then drop (Z.to_nat i) nm
  else [].

(** [path.relative_to(root)]: the parts below [root]; [ValueError] when
    [path] does not extend [root]. *)
Fixpoint relative_to (root path : Path) : result Path :=
  match root, path with
  | [], _ => Ok path
  | r :: root', p :: path' =>
      if bool_decide (r = p) then relative_to root' path'
      else Raise (ValueError (u "path is not in the subpath of root"))
  | _ :: _, [] => Raise (ValueError (u "path is not in the subpath of root"))
  end.

(** [str(path)] of a relative path. *)
Definition to_str (p : Path) : str :=
  match p with
  | [] => u "."
  | _ => Py.join (u "/") p
  end.

End Pathlib.

(** ** count_loc.py *)

Module CountLoc.

(** [{item.strip() for item in value.split(",") if item.strip()}] *)
Definition parse_csv_set (value : str) : gset str :=
  list_to_set
    (map Py.strip
       (filter (fun item => Py.truthy (Py.strip item) = true) (Py.split 44 value))).

Definition dot_prefixed (ext : str) : str :=
  if Py.startswith (u ".") ext then ext else u "." ++ ext.

Definition normalize_extensions (exts : gset str) : gset str :=
  set_map dot_prefixed exts.

(** The ignore test of the walker: [any(part in ignore_dirs for part in
    path.parts)]. *)
Definition has_ignored_part (ignore_dirs : gset str) (path : Path) : bool :=
  existsb (fun part => bool_decide (part ∈ ignore_dirs)) path.

(** The extension test of the walker: [extensions and path.suffix.lower()
    not in extensions]. *)
Definition suffix_rejected (extensions : gset str) (path : Path) : bool :=
  bool_decide (extensions ≠ ∅)
  && negb (bool_decide (Py.lower (Pathlib.suffix path) ∈ extensions)).

(** One turn of the walker's loop: is [path] yielded? *)
Definition yielded (fs : FileSystem) (extensions ignore_dirs : gset str)
    (path : Path) : bool :=
  if negb (fs_is_file fs path) then false
  else if has_ignored_part ignore_dirs path then false
  else if suffix_rejected extensions path then false
  else true.

(** The paths of [root.rglob("*")]: [root] joined with each relative entry. *)
Definition rglob (fs : FileSystem) (root : Path) : list Path :=
  map (fun rel => root ++ rel) (fs_rglob fs root).

Fixpoint walk (fs : FileSystem) (extensions ignore_dirs : gset str)
    (paths : list Path) : list Path :=
  match paths with
  | [] => []
  | path :: rest =>
      if yielded fs extensions ignore_dirs path
      then path :: walk fs extensions ignore_dirs rest
      else walk fs extensions ignore_dirs rest
  end.

Definition iter_source_files (fs : FileSystem) (root : Path)
    (extensions ignore_dirs : gset str) : list Path :=
  walk fs extensions ignore_dirs (rglob fs root).

(** [sum(1 for line in text.splitlines() if line.strip())] *)
Fixpoint sum_non_empty (lines : list str) : Z :=
  match lines with
  | [] => 0
  | line :: rest =>
      if Py.truthy (Py.strip line) then 1 + sum_non_empty rest
      else sum_non_empty rest
  end.

Definition count_text (text : str) : Z := sum_non_empty (Py.splitlines text).

Definition count_non_empty_lines (fs : FileSystem) (path : Path) : Z :=
  match fs_read_text fs path with
  | None => 0
  | Some text => count_text text
  end.

(** [l.sort(reverse=True, key=...)]: the sort is stable, and a stable
    sort has one possible result ([stable_sort_unique] below), so a
    stable insertion sort stands for it.  [insert_desc] puts [x] in
    front of the first element whose key is not greater. *)
Fixpoint insert_desc {A} (key : A -> Z) (x : A) (l : list A) : list A :=
  match l with
  | [] => [x]
  | y :: l' => if key x <? key y then y :: insert_desc key x l' else x :: l
  end.

Fixpoint sort_desc {A} (key : A -> Z) (l : list A) : list A :=
  match l with
  | [] => []
  | x :: l' => insert_desc key x (sort_desc key l')
  end.

(** The loop of [count_project], with its two accumulators. *)
Fixpoint count_loop (fs : FileSystem) (root : Path) (files : list Path)
    (per_file : list (Z * Path)) (total : Z) : result (list (Z * Path) * Z) :=
  match files with
  | [] => Ok (per_file, total)
  | file_path :: rest =>
      let loc := count_non_empty_lines fs file_path in
      if loc =? 0 then count_loop fs root rest per_file total
      else
        rel <- Pathlib.relative_to root file_path ;;
        count_loop fs root rest (per_file ++ [(loc, rel)]) (total + loc)
  end.

Definition count_project (fs : FileSystem) (root : Path)
    (extensions ignore_dirs : gset str) : result (list (Z * Path) * Z) :=
  r <- count_loop fs root (iter_source_files fs root extensions ignore_dirs) [] 0 ;;
  Ok (sort_desc fst r.1, r.2).

End CountLoc.

(** ** urllib.parse *)

Module Urllib.

Record ParseResult := {
  scheme : str;
  netloc : str;
  path : str;
  params : str;
  query : str;
  fragment : str
}.

Definition is_alpha (c : Z) : bool :=
  ((65 <=? c) && (c <=? 90)) || ((97 <=? c) && (c <=? 122)).

Definition is_digit (c : Z) : bool := (48 <=? c) && (c <=? 57).

Definition scheme_char (c : Z) : bool :=
  is_alpha c || is_digit c || (c =? 43) || (c =? 45) || (c =? 46).

(** [s.find(c)] *)
Fixpoint find (c : Z) (s : str) : option nat :=
  match s with
  | [] => None
  | d :: s' => if d =? c then Some 0%nat else S <$> find c s'
  end.

(** [s.split(c, 1)], as a pair; the whole of [s] and nothing when [c]
    does not occur. *)
Definition cut (c : Z) (s : str) : str * str :=
  match find c s with
  | Some i => (take i s, drop (S i) s)
  | None => (s, [])
  end.

(** [_splitnetloc(url, 2)]: the network location runs up to the first of
    [/], [?] and [#]. *)
Fixpoint splitnetloc (s : str) : str * str :=
  match s with
  | [] => ([], [])
  | c :: s' =>
      if (c =? 47) || (c =? 63) || (c =? 35) then ([], s)
      else let '(n, r) := splitnetloc s' in (c :: n, r)
  end.

Definition uses_params : list str :=
  [ []; u "ftp"; u "hdl"; u "prospero"; u "http"; u "imap"; u "https";
    u "shttp"; u "rtsp"; u "rtspu"; u "sip"; u "sips"; u "mms"; u "sftp";
    u "tel" ].

(** [_splitparams(url)], called when [url] holds a semicolon: the
    parameters follow the first semicolon of the last path segment. *)
Definition splitparams (url : str) : str * str :=
  let start :=
    match Pathlib.rfind_from 47 0 url with
    | Z.neg _ => 0%nat
    | k => Z.to_nat k
    end in
  match find 59 (drop start url) with
  | Some j => (take (start + j) url, drop (S (start + j)) url)
  | None => (url, [])
  end.

(** The code points whose NFKC normalisation holds one of [/ ? # @ :]
    (Unicode 14.0): the fullwidth and small forms of these characters,
    and ligatures such as U+2100. *)
Definition nfkc_unsafe : list Z :=
  [ 8263; 8264; 8265; 8448; 8449; 8453; 8454; 10868; 65043; 65046; 65109;
    65110; 65119; 65131; 65283; 65295; 65306; 65311; 65312 ].

(** [_checknetloc(netloc)]: a network location is refused when NFKC
    normalisation would bring one of the delimiters into it, which
    happens exactly when it holds one of the code points above. *)
Definition checknetloc (netloc : str) : result unit :=
  if existsb (fun c => bool_decide (c ∈ nfkc_unsafe)) netloc
  then Raise (ValueError (u "netloc '" ++ netloc
                          ++ u "' contains invalid characters under NFKC normalization"))
  else Ok tt.

(** The start of [urlsplit]: leading C0 controls and spaces are
    dropped, tabs and newlines removed. *)
Definition strip_unsafe (url0 : str) : str :=
  filter (fun c => c <> 9 /\ c <> 13 /\ c <> 10)
    (Py.lstrip_with (fun c => (0 <=? c) && (c <=? 32)) url0).

(** The scheme, in lower case, and what follows its colon: the text
    before the first colon is a scheme when it starts with an ASCII
    letter and holds scheme characters only. *)
Definition split_scheme (url : str) : str * str :=
  match find 58 url, url with
  | Some (S i), c0 :: _ =>
      if is_alpha c0 && forallb scheme_char (take (S i) url)
      then (Py.lower (take (S i) url), drop (S (S i)) url)
      else ([], url)
  | _, _ => ([], url)
  end.

Section Parse.

(** The library's validation of a network location that holds both
    square brackets (the host between them has to be an IPv6 or IPvFuture
    literal, which the [ipaddress] module decides): the message of the
    [ValueError] it raises, if it raises. *)
Variable check_bracketed_netloc : str -> option str.

(** The network location after [//], and what follows it.  One square
    bracket without the other raises, and so does a bracketed host that
    fails the validation. *)
Definition split_netloc (url : str) : result (str * str) :=
  if Py.startswith (u "//") url then
    let '(nl, rest) := splitnetloc (drop 2 url) in
    let opening := bool_decide (91 ∈ nl) in
    let closing := bool_decide (93 ∈ nl) in
    if (opening && negb closing) || (closing && negb opening)
    then Raise (ValueError (u "Invalid IPv6 URL"))
    else if opening && closing then
      match check_bracketed_netloc nl with
      | Some msg => Raise (ValueError msg)
      | None => Ok (nl, rest)
      end
    else Ok (nl, rest)
  else Ok ([], url).

(** [urlsplit]: scheme, network location, fragment and query are split
    off in that order; the network location is then checked for
    characters that are not safe under NFKC. *)
Definition urlsplit (url0 : str) : result (str * str * str * str * str) :=
  let '(sch, url) := split_scheme (strip_unsafe url0) in
  located <- split_netloc url ;;
  let '(nl, url) := located in
  let '(url, frag) := cut 35 url in
  let '(url, qry) := cut 63 url in
  _ <- checknetloc nl ;;
  Ok (sch, nl, url, qry, frag).

Definition urlparse (url0 : str) : result ParseResult :=
  split <- urlsplit url0 ;;
  let '(sch, nl, url, qry, frag) := split in
  let '(url, prm) :=
    if bool_decide (sch ∈ uses_params) && bool_decide (59 ∈ url)
    then splitparams url else (url, []) in
  Ok {| scheme := sch; netloc := nl; path := url; params := prm;
        query := qry; fragment := frag |}.

End Parse.

End Urllib.

Module Fetcher.

Record RepoRef := {
  owner : str;
  repo : str;
  branch : option str;
  subpath : option str
}.

(** [[part for part in path.strip("/").split("/") if part]] *)
Definition path_parts (path : str) : list str :=
  filter (fun part => Py.truthy part = true)
    (Py.split 47 (Py.strip_chars (u "/") path)).

(** The body of [parse_github_repo_url] after [urlparse]. *)
Definition parse_parsed (parsed : Urllib.ParseResult) : result RepoRef :=
  if negb (bool_decide (Py.lower (Urllib.netloc parsed)
                          ∈ [u "github.com"; u "www.github.com"]))
  then Raise (ValueError (u "Supported only github.com repository links."))
  else
    let parts := path_parts (Urllib.path parsed) in
    if (length parts <? 2)%nat
    then Raise (ValueError (u "Invalid GitHub repository URL."))
    else
      let owner := nth 0 parts [] in
      let repo := Py.removesuffix (u ".git") (nth 1 parts []) in
      let '(branch, subpath) :=
        if (4 <=? length parts)%nat && bool_decide (nth 2 parts [] = u "tree")
        then (Some (nth 3 parts []),
              if (4 <? length parts)%nat
              then Some (Py.join (u "/") (drop 4 parts)) else None)
        else (None, None) in
      Ok {| owner := owner; repo := repo; branch := branch; subpath := subpath |}.

(** Truthiness of an optional string: [None] and the empty string are
    false. *)
Definition opt_truthy (o : option str) : bool :=
  match o with
  | Some s => Py.truthy s
  | None => false
  end.

(** [root.joinpath] applied to the segments: empty and [.] segments
    leave no part. *)
Definition joinpath (root : Path) (segments : list str) : Path :=
  root ++ filter (fun seg => seg <> [] /\ seg <> u ".") segments.

(** The root resolution at the end of [download_and_extract_repo]. *)
Definition resolve_root (fs : FileSystem) (extract_dir : Path)
    (subpath : option str) : result Path :=
  let subdirs :=
    filter (fun p => fs_is_dir fs p = true)
      (map (fun n => extract_dir ++ [n]) (fs_iterdir fs extract_dir)) in
  let root :=
    if bool_decide (length subdirs = 1%nat) then default extract_dir (head subdirs)
    else extract_dir in
  if opt_truthy subpath then
    let sp := default [] subpath in
    let target := joinpath root (Py.split 47 sp) in
    if negb (fs_exists fs target)
    then Raise (ValueError (u "Path not found in repository: " ++ sp))
    else Ok target
  else Ok root.

Section Urls.

Variable check_bracketed_netloc : str -> option str.

Definition is_http_url (value : str) : result bool :=
  parsed <- Urllib.urlparse check_bracketed_netloc value ;;
  Ok (bool_decide (Urllib.scheme parsed ∈ [u "http"; u "https"])
      && Py.truthy (Urllib.netloc parsed)).

Definition parse_github_repo_url (url : str) : result RepoRef :=
  parsed <- Urllib.urlparse check_bracketed_netloc url ;;
  parse_parsed parsed.

Section Download.

(** [urllib.parse.quote(branch, safe="/")] *)
Variable quote : str -> str.

(** Fetching the archive at a URL into [temp_dir / "repo.zip"] and
    extracting it into [temp_dir / "extracted"]: the file system after
    the extraction, or the exception raised, of whatever kind. *)
Variable fetch_and_extract : str -> Path -> result FileSystem.

Definition archive_url (ref : RepoRef) : str :=
  if opt_truthy (branch ref) then
    u "https://codeload.github.com/" ++ owner ref ++ u "/" ++ repo ref
      ++ u "/zip/refs/heads/" ++ quote (default [] (branch ref))
  else
    u "https://api.github.com/repos/" ++ owner ref ++ u "/" ++ repo ref
      ++ u "/zipball".

Definition download_and_extract_repo (url : str) (temp_dir : Path)
    : result (FileSystem * Path) :=
  ref <- parse_github_repo_url url ;;
  fs <- fetch_and_extract (archive_url ref) temp_dir ;;
  root <- resolve_root fs (temp_dir ++ [u "extracted"]) (subpath ref) ;;
  Ok (fs, root).

End Download.

End Urls.

End Fetcher.

(** ** Rendering *)

Module Render.

(** One listing line: [f"{loc:>8}  {rel}"]. *)
Definition listing_line (entry : Z * Path) : str :=
  Py.rjust 8 (Py.str_of_int entry.1) ++ u "  " ++ Pathlib.to_str entry.2.

(** [min(top, len(per_file))] *)
Definition shown {A} (top : Z) (per_file : list A) : Z :=
  Z.min top (Z.of_nat (length per_file)).

(** What [main] of [count_loc.py] prints once the count has succeeded,
    one string per [print]. *)
Definition print_report (per_file : list (Z * Path)) (total top : Z) : list str :=
  [ u "Files counted: " ++ Py.str_of_int (Z.of_nat (length per_file));
    u "Total non-empty LOC: " ++ Py.str_of_int total;
    [];
    u "Top " ++ Py.str_of_int (shown top per_file) ++ u " files:" ]
  ++ map listing_line (Py.slice_to top per_file).

(** The list [lines] that [_render_result] builds. *)
Definition _render_lines (url : str) (per_file : list (Z * Path))
    (total top : Z) : list str :=
  [ u "Репозиторій: " ++ url;
    u "Файлів пораховано: " ++ Py.str_of_int (Z.of_nat (length per_file));
    u "Загалом non-empty рядків: " ++ Py.str_of_int total;
    [];
    u "Топ " ++ Py.str_of_int (shown top per_file) ++ u " файлів:" ]
  ++ map listing_line (Py.slice_to top per_file).

Definition _render_result (url : str) (per_file : list (Z * Path))
    (total top : Z) : str :=
  Py.join [10] (_render_lines url per_file total top).

(** [html.escape(text)] *)
Definition html_escape (text : str) : str :=
  flat_map (fun c =>
    if c =? 38 then u "&amp;"
    else if c =? 60 then u "&lt;"
    else if c =? 62 then u "&gt;"
    else if c =? 34 then u "&quot;"
    else if c =? 39 then u "&#x27;"
    else [c]) text.

Definition _render_result_html (url : str) (per_file : list (Z * Path))
    (total top : Z) : str :=
  u "<b>Результат підрахунку LOC</b>" ++ [10] ++ u "<pre>"
  ++ html_escape (_render_result url per_file total top) ++ u "</pre>".

End Render.

(** ** Regular expressions, as far as [URL_RE] needs them *)

Module Re.

Inductive atom :=
  | Chr (c : Z)        (* a lower-case literal, under IGNORECASE *)
  | NotSpace.          (* the class [^\s] *)

Inductive item :=
  | One (a : atom)
  | Optional (a : atom)      (* a? *)
  | OneOrMore (a : atom).    (* a+ *)

(** IGNORECASE on a lower-case literal: the characters whose lower case
    is the literal, and the extra equivalents the engine knows for [s]
    (U+017F) and [k] (U+212A). *)
Definition ignorecase_eq (l c : Z) : bool :=
  (Py.lower_char c =? l) || ((l =? 115) && (c =? 383))
  || ((l =? 107) && (c =? 8490)).

Definition atom_matches (a : atom) (c : Z) : bool :=
  match a with
  | Chr l => ignorecase_eq l c
  | NotSpace => negb (Py.isspace c)
  end.

(** Anchored match of a sequence of items at the head of [s], greedy
    with backtracking: the length of the match. *)
Fixpoint match_items (p : list item) (s : str) {struct p} : option nat :=
  match p with
  | [] => Some 0%nat
  | One a :: p' =>
      match s with
      | c :: s' => if atom_matches a c then S <$> match_items p' s' else None
      | [] => None
      end
  | Optional a :: p' =>
      match s with
      | c :: s' =>
          if atom_matches a c then
            match match_items p' s' with
            | Some n => Some (S n)
            | None => match_items p' s
            end
          else match_items p' s
      | [] => match_items p' s
      end
  | OneOrMore a :: p' =>
      (fix run (s : str) : option nat :=
         match s with
         | c :: s' =>
             if atom_matches a c then
               match run s' with
               | Some n => Some (S n)
               | None => S <$> match_items p' s'
               end
             else None
         | [] => None
         end) s
  end.

(** A run of literal characters. *)
Definition literal (lit : str) : list item := map (fun l => One (Chr l)) lit.

(** [pattern.search(s)]: the leftmost match, as [match.group(0)]. *)
Fixpoint search (p : list item) (s : str) : option str :=
  match match_items p s with
  | Some n => Some (take n s)
  | None =>
      match s with
      | [] => None
      | _ :: s' => search p s'
      end
  end.

End Re.

(** ** tg_loc_bot.py *)

Module Bot.

(** [re.compile(r"https?://[^\s]+", re.IGNORECASE)] *)
Definition URL_RE : list Re.item :=
  Re.literal (u "http") ++ Re.Optional (Re.Chr 115)
    :: Re.literal (u "://") ++ [Re.OneOrMore Re.NotSpace].

Definition BTN_COUNT : str := u "Порахувати LOC".
Definition BTN_TOP_10 : str := u "Топ 10".
Definition BTN_TOP_20 : str := u "Топ 20".
Definition BTN_HELP : str := u "Допомога".

Definition _extract_url (text : str) : option str := Re.search URL_RE text.

Definition DEFAULT_EXTENSIONS : gset str :=
  list_to_set
    [ u ".py"; u ".js"; u ".ts"; u ".jsx"; u ".tsx"; u ".java"; u ".kt";
      u ".go"; u ".rs"; u ".cpp"; u ".c"; u ".h"; u ".hpp"; u ".cs";
      u ".php"; u ".rb"; u ".swift"; u ".scala"; u ".sh"; u ".html";
      u ".css"; u ".scss"; u ".sql" ].

Definition DEFAULT_IGNORE_DIRS : gset str :=
  list_to_set
    [ u ".git"; u "node_modules"; u ".venv"; u "venv"; u "__pycache__";
      u "dist"; u "build"; u ".idea"; u ".vscode" ].

(** The values kept in [context.user_data]. *)
Inductive value :=
  | VInt (n : Z)
  | VStr (s : str).

Inductive markup :=
  | NoMarkup
  | MainKeyboard            (* _main_keyboard() *)
  | InlineResultButtons.    (* _inline_result_buttons() *)

(** What a handler does to the outside, in order: the calls of the
    Telegram API it makes, whether they succeed or raise, and the runs
    of the counting pipeline it starts. *)
Inductive event :=
  | Reply (text : str) (html : bool) (kb : markup)   (* reply_text *)
  | Answer                                           (* query.answer() *)
  | RunCount (url : str) (top : Z).  (* the pipeline handed to a worker thread *)

(** What a handler works on: the session's [user_data], and the
    outcomes of the calls of the Telegram API still to come, one per call
    in order, [Some e] for a call that raises [e]; the calls beyond the
    list succeed. *)
Definition state : Type := gmap string value * list (option exn).

(** A handler reads and writes the state, emits events and may raise. *)
Definition Handler (A : Type) : Type := state -> result A * state * list event.

Definition ret {A} (a : A) : Handler A := fun st => (Ok a, st, []).

Definition hbind {A B} (m : Handler A) (k : A -> Handler B) : Handler B :=
  fun st =>
    match m st with
    | (Ok a, st', ev) => let '(r, st'', ev') := k a st' in (r, st'', ev ++ ev')
    | (Raise e, st', ev) => (Raise e, st', ev)
    end.

(** [try: m  except ... as exc: h exc] *)
Definition catch {A} (m : Handler A) (h : exn -> Handler A) : Handler A :=
  fun st =>
    match m st with
    | (Raise e, st', ev) => let '(r, st'', ev') := h e st' in (r, st'', ev ++ ev')
    | done => done
    end.

Notation "x <~ m ;; k" := (hbind m (fun x => k))
  (at level 100, m at next level, right associativity).
Notation "m >>> k" := (hbind m (fun _ => k))
  (at level 100, right associativity).

Definition emit (e : event) : Handler unit := fun st => (Ok tt, st, [e]).

(** A call of the Telegram API: the event, and the outcome that the
    state holds for it. *)
Definition call (e : event) : Handler unit :=
  fun st =>
    match st.2 with
    | Some x :: rest => (Raise x, (st.1, rest), [e])
    | None :: rest => (Ok tt, (st.1, rest), [e])
    | [] => (Ok tt, st, [e])
    end.


Definition set_item (k : string) (v : value) : Handler unit :=
  fun st => (Ok tt, (<[k := v]> st.1, st.2), []).
Definition get_item (k : string) : Handler (option value) :=
  fun st => (Ok (st.1 !! k), st, []).
Definition lift {A} (r : result A) : Handler A := fun st => (r, st, []).

(** The exception of an attribute access on [None]. *)
Definition no_attribute (attr : string) : exn :=
  OtherError (u "'NoneType' object has no attribute '" ++ u attr ++ u "'").

(** [message.reply_text(...)], where [message] is [update.message],
    [query.message] or [update.effective_message], which is [None] in an
    update that does not carry that message. *)
Definition reply (present : bool) (e : event) : Handler unit :=
  if present then call e else lift (Raise (no_attribute "reply_text")).

Definition reply_text (present : bool) (text : str) : Handler unit :=
  reply present (Reply text false NoMarkup).

Section Handlers.

Variable check_bracketed_netloc : str -> option str.
Variable quote : str -> str.
Variable fetch_and_extract : str -> Path -> result FileSystem.

(** The directory [tempfile.TemporaryDirectory] hands out. *)
Variable tmp : Path.

(** [int(s)] on a string. *)
Variable int_of_str : str -> result Z.

Definition _count_repo_from_url (url : str) (top : Z)
    : result (list (Z * Path) * Z * Z) :=
  let extensions := CountLoc.normalize_extensions DEFAULT_EXTENSIONS in
  let ignore_dirs := DEFAULT_IGNORE_DIRS in
  r <- Fetcher.download_and_extract_repo check_bracketed_netloc quote
         fetch_and_extract url tmp ;;
  c <- CountLoc.count_project r.1 r.2 extensions ignore_dirs ;;
  Ok (c.1, c.2, top).

(** [int(context.user_data.get("top", 10))] *)
Definition _get_user_top : Handler Z :=
  v <~ get_item "top" ;;
  match v with
  | None => ret 10
  | Some (VInt n) => ret n
  | Some (VStr s) => lift (int_of_str s)
  end.

Definition _set_user_top (top : Z) : Handler unit := set_item "top" (VInt top).

(** In the handlers, [present] tells whether the update carries the
    message that the handler replies to. *)

(** The [try] block of [_run_count]: the count, then the reply with the
    result. *)
Definition count_and_reply (present : bool) (url : str) (top : Z) : Handler unit :=
  emit (RunCount url top) >>>
  counted <~ lift (_count_repo_from_url url top) ;;
  let '(per_file, total, top) := counted in
  reply present (Reply (Render._render_result_html url per_file total top)
                   true InlineResultButtons).

(** The [except] clauses of [_run_count]: the text of the reply, by
    the kind of the exception. *)
Definition failure_text (e : exn) : str :=
  match e with
  | ValueError msg => u "Помилка: " ++ msg
  | URLError msg | BadZipFile msg =>
      u "Не вдалося завантажити репозиторій: " ++ msg
  | OtherError msg => u "Невідома помилка: " ++ msg
  end.

Definition report_failure (present : bool) (e : exn) : Handler unit :=
  reply_text present (failure_text e).

Definition _run_count (present : bool) (url : str) (top : Z) : Handler unit :=
  set_item "last_url" (VStr url) >>>
  reply_text present (u "Рахую рядки коду, зачекай...") >>>
  catch (count_and_reply present url top) (report_failure present).

Definition start (present : bool) : Handler unit :=
  _set_user_top 10 >>>
  reply present
    (Reply (u "Надішли посилання на GitHub репозиторій." ++ [10]
            ++ u "Приклад: https://github.com/owner/repo" ++ [10; 10]
            ++ u "Можеш змінити формат кнопками: Топ 10 / Топ 20.")
       false MainKeyboard).

Definition help_cmd (present : bool) : Handler unit :=
  reply present
    (Reply (u "Команди:" ++ [10]
            ++ u "/start - запуск бота" ++ [10]
            ++ u "/help - ця довідка" ++ [10; 10]
            ++ u "Кнопки:" ++ [10]
            ++ u "Порахувати LOC - підказка для вставки посилання" ++ [10]
            ++ u "Топ 10 / Топ 20 - скільки файлів показувати у результаті"
            ++ [10; 10]
            ++ u "Можна просто кинути URL і бот одразу порахує.")
       false MainKeyboard).

Definition handle_button_text (present : bool) (text : str) : Handler bool :=
  if bool_decide (text = BTN_COUNT) then
    reply_text present (u "Встав GitHub URL репозиторію.") >>> ret true
  else if bool_decide (text = BTN_TOP_10) then
    _set_user_top 10 >>>
    reply_text present (u "Встановлено: показувати Топ 10 файлів.") >>> ret true
  else if bool_decide (text = BTN_TOP_20) then
    _set_user_top 20 >>>
    reply_text present (u "Встановлено: показувати Топ 20 файлів.") >>> ret true
  else if bool_decide (text = BTN_HELP) then
    help_cmd present >>> ret true
  else ret false.

(** [message] is [update.message], [None] in an update that carries no
    new message (an edited message, a channel post); [Some message_text]
    gives its [text], which may be [None] in turn. *)
Definition handle_message (message : option (option str)) : Handler unit :=
  match message with
  | None => lift (Raise (no_attribute "text"))
  | Some message_text =>
      let text := Py.strip (default [] message_text) in
      if negb (Py.truthy text) then ret tt
      else
        pressed <~ handle_button_text true text ;;
        if pressed then ret tt
        else
          match _extract_url text with
          | Some url =>
              if Py.truthy url then
                top <~ _get_user_top ;;
                _run_count true url top
              else
                reply_text true
                  (u "Не знайшов посилання. Надішли GitHub URL, наприклад:"
                   ++ [10] ++ u "https://github.com/owner/repo")
          | None =>
              reply_text true
                (u "Не знайшов посилання. Надішли GitHub URL, наприклад:"
                 ++ [10] ++ u "https://github.com/owner/repo")
          end
  end.

(** [data] is [query.data], and [present] tells whether [query.message],
    which is also [update.effective_message], is there.  [last_url] only
    ever holds a string. *)
Definition handle_callback (present : bool) (data : str) : Handler unit :=
  call Answer >>>
  last_url <~ get_item "last_url" ;;
  match last_url with
  | Some (VStr url) =>
      if negb (Py.truthy url) then
        reply_text present (u "Немає останнього URL. Надішли нове посилання.")
      else
        let chosen :=
          if bool_decide (data = u "refresh_top_10") then Some 10
          else if bool_decide (data = u "refresh_top_20") then Some 20
          else None in
        match chosen with
        | Some top =>
            _set_user_top top >>>
            reply_text present (u "Оновлюю результат з налаштуванням: Топ "
                                ++ Py.str_of_int top ++ u ".") >>>
            _run_count present url top
        | None => ret tt
        end
  | _ => reply_text present (u "Немає останнього URL. Надішли нове посилання.")
  end.

End Handlers.

End Bot.

(** ** Reading the claims: the definitions that follow the specification *)

Module Spec.

(** Lines "on universal newline boundaries": the same scan, with LF, CR
    and CR LF as the only boundaries. *)
Definition universal_lines (text : str) : list str :=
  Py.split_lines_from Py.is_universal_newline [] text.

(** The number of universal-newline lines whose trimmed content is not
    empty. *)
Definition non_empty_universal_lines (text : str) : Z :=
  Z.of_nat (length (filter (fun line => Py.strip line <> []) (universal_lines text))).

(** The sum of the line counts of a listing. *)
Definition sum_counts (files : list (Z * Path)) : Z :=
  foldr Z.add 0 (files.*1).

(** Non-increasing by line count. *)
Definition by_count_desc (a b : Z * Path) : Prop := b.1 <= a.1.

(** The records in the walker's encounter order: one for every yielded
    path whose count is not zero. *)
Definition encountered (fs : FileSystem) (root : Path)
    (extensions ignore_dirs : gset str) : list (Z * Path) :=
  omap (fun rel =>
          let loc := CountLoc.count_non_empty_lines fs (root ++ rel) in
          if loc =? 0 then None else Some (loc, rel))
       (filter (fun rel => CountLoc.yielded fs extensions ignore_dirs (root ++ rel) = true)
               (fs_rglob fs root)).

(** The entries of a listing whose count is [k], in listing order. *)
Definition with_count (k : Z) (files : list (Z * Path)) : list (Z * Path) :=
  filter (fun e => e.1 = k) files.

(** C2 as the specification words it: a regular file that passes the
    extension test is skipped by the walker exactly when one of the
    segments of its path below the root is an ignored name. *)
Definition skipped_iff_ignored_below_root : Prop :=
  forall (fs : FileSystem) (root : Path) (extensions ignore_dirs : gset str)
         (rel : Path),
    rel ∈ fs_rglob fs root ->
    fs_is_file fs (root ++ rel) = true ->
    CountLoc.suffix_rejected extensions (root ++ rel) = false ->
    (root ++ rel ∉ CountLoc.iter_source_files fs root extensions ignore_dirs
     <-> exists seg, seg ∈ rel /\ seg ∈ ignore_dirs).

(** The host of a network location without brackets: what follows the
    user information, up to the port, in lower case. *)
Definition host (netloc : str) : str :=
  let hostinfo := rev (Urllib.cut 64 (rev netloc)).1 in
  Py.lower (Urllib.cut 58 hostinfo).1.

(** C6 as the specification words it: when the host is [github.com] or
    its [www] alias and the path has two segments or more, the URL
    parses, and the owner is the first segment. *)
Definition parses_by_host : Prop :=
  forall (check : str -> option str) (url : str) (parsed : Urllib.ParseResult)
         (p0 p1 : str) (rest : list str),
    Urllib.urlparse check url = Ok parsed ->
    host (Urllib.netloc parsed) ∈ [u "github.com"; u "www.github.com"] ->
    Fetcher.path_parts (Urllib.path parsed) = p0 :: p1 :: rest ->
    exists ref,
      Fetcher.parse_github_repo_url check url = Ok ref /\ Fetcher.owner ref = p0.

(** The listing section of a report: what follows the header lines. *)
Definition rendered_listing (url : str) (per_file : list (Z * Path))
    (total top : Z) : list str :=
  drop 5 (Render._render_lines url per_file total top).

Definition printed_listing (per_file : list (Z * Path)) (total top : Z) : list str :=
  drop 4 (Render.print_report per_file total top).

(** C8 as the specification words it: for every requested top-N the
    listing holds exactly [K = min(N, len(files))] lines. *)
Definition listing_has_min_lines : Prop :=
  forall (url : str) (per_file : list (Z * Path)) (total top : Z),
    Z.of_nat (length (rendered_listing url per_file total top))
    = Z.min top (Z.of_nat (length per_file))
    /\ Z.of_nat (length (printed_listing per_file total top))
       = Z.min top (Z.of_nat (length per_file)).

(** [s] starts with the literal, letters compared without case. *)
Fixpoint ci_startswith (lit s : str) : bool :=
  match lit, s with
  | [], _ => true
  | l :: lit', c :: s' => Re.ignorecase_eq l c && ci_startswith lit' s'
  | _ :: _, [] => false
  end.

(** The longest whitespace-free prefix. *)
Fixpoint nonspace_run (s : str) : str :=
  match s with
  | [] => []
  | c :: s' => if Py.isspace c then [] else c :: nonspace_run s'
  end.

(** C10 as the specification words it: at the first position where the
    text starts with [http://] or [https://], the maximal whitespace-free
    substring from there. *)
Fixpoint first_link (s : str) : option str :=
  if ci_startswith (u "http://") s || ci_startswith (u "https://") s
  then Some (nonspace_run s)
  else
    match s with
    | [] => None
    | _ :: s' => first_link s'
    end.

(** The scheme, then at least one character that is not whitespace. *)
Definition scheme_then_char (sch s : str) : bool :=
  ci_startswith sch s
  && match drop (length sch) s with
     | c :: _ => negb (Py.isspace c)
     | [] => false
     end.

(** A link starts at the head of [s]. *)
Definition link_here (s : str) : bool :=
  scheme_then_char (u "http://") s || scheme_then_char (u "https://") s.

(** C10, amended: at the first position where a link starts, the
    maximal whitespace-free substring from there. *)
Fixpoint first_proper_link (s : str) : option str :=
  if link_here s
  then Some (nonspace_run s)
  else
    match s with
    | [] => None
    | _ :: s' => first_proper_link s'
    end.

End Spec.

(** ** Concrete file systems, for the examples *)

Module Demo.

Inductive kind :=
  | RegularFile (text : option str)   (* [None]: reading raises [OSError] *)
  | Directory
  | Special.                           (* exists, neither file nor directory *)

(** The file system that holds one tree: [root], a directory, and the
    listed entries below it (relative parts and kind), in the order the
    platform enumerates them. *)
Section Make.

Variable root : Path.
Variable entries : list (Path * kind).

Definition kind_of (p : Path) : option kind :=
  if bool_decide (p = root) then Some Directory
  else snd <$> head (filter (fun e => root ++ e.1 = p) entries).

Definition make : FileSystem :=
  {| fs_rglob r := if bool_decide (r = root) then entries.*1 else [];
     fs_is_file p :=
       match kind_of p with Some (RegularFile _) => true | _ => false end;
     fs_is_dir p :=
       match kind_of p with Some Directory => true | _ => false end;
     fs_exists p := match kind_of p with Some _ => true | None => false end;
     fs_iterdir d :=
       omap (fun e => if bool_decide (removelast (root ++ e.1) = d)
                      then last (root ++ e.1) else None) entries;
     fs_read_text p :=
       match kind_of p with Some (RegularFile text) => text | _ => None end |}.

End Make.

(** A project kept below a directory called [build]. *)
Definition build_root : Path := [u "/"; u "home"; u "build"; u "proj"].

Definition build_fs : FileSystem :=
  make build_root [ ([u "a.py"], RegularFile (Some (u "x = 1" ++ [10]))) ].

(** Four files: two lines of code, a form feed inside a line, blanks
    only, and one that cannot be read. *)
Definition proj_root : Path := [u "/"; u "srv"; u "proj"].

Definition proj_fs : FileSystem :=
  make proj_root
    [ ([u "a.py"], RegularFile (Some (u "x = 1" ++ [10; 10] ++ u "y = 2" ++ [10])));
      ([u "src"], Directory);
      ([u "src"; u "ff.py"], RegularFile (Some [97; 12; 98]));
      ([u "src"; u "blank.py"], RegularFile (Some (u "  " ++ [10; 9; 10])));
      ([u "src"; u "locked.py"], RegularFile None) ].

(** The scratch directory after an archive with one top folder has been
    extracted. *)
Definition scratch : Path := [u "/"; u "tmp"; u "loc_counter_x"].

Definition extracted_fs : FileSystem :=
  make (scratch ++ [u "extracted"])
    [ ([u "widgets-dev"], Directory);
      ([u "widgets-dev"; u "sub"], Directory);
      ([u "widgets-dev"; u "sub"; u "dir"], Directory);
      ([u "widgets-dev"; u "sub"; u "dir"; u "m.py"],
       RegularFile (Some (u "pass" ++ [10]))) ].

(** The same tree on a platform where a path that goes up through [..]
    exists, as it does as long as the directories above exist. *)
Definition lenient_fs : FileSystem :=
  {| fs_rglob := fs_rglob extracted_fs;
     fs_is_file := fs_is_file extracted_fs;
     fs_is_dir := fs_is_dir extracted_fs;
     fs_exists p := fs_exists extracted_fs p || bool_decide (u ".." ∈ p);
     fs_iterdir := fs_iterdir extracted_fs;
     fs_read_text := fs_read_text extracted_fs |}.

(** Upper-case suffixes, and a file outside the filter. *)
Definition mixed_root : Path := [u "/"; u "srv"; u "mixed"].

Definition mixed_fs : FileSystem :=
  make mixed_root
    [ ([u "Main.PY"], RegularFile (Some (u "x" ++ [10])));
      ([u "notes.md"], RegularFile (Some (u "hello" ++ [10])));
      ([u "node_modules"], Directory);
      ([u "node_modules"; u "dep.py"], RegularFile (Some (u "y" ++ [10]))) ].

(** A Kotlin file whose suffix is written with the Kelvin sign (U+212A),
    which lower-cases to [k]. *)
Definition kelvin_root : Path := [u "/"; u "srv"; u "kelvin"].

Definition kelvin_name : str := u "x." ++ [8490; 84].

Definition kelvin_fs : FileSystem :=
  make kelvin_root [ ([kelvin_name], RegularFile (Some (u "val x = 1" ++ [10]))) ].

(** One Python file of five lines, three of them blank, and one
    Markdown file of ten lines. *)
Definition small_root : Path := [u "/"; u "srv"; u "small"].

Definition small_fs : FileSystem :=
  make small_root
    [ ([u "a.py"],
       RegularFile (Some (u "import os" ++ [10; 10; 10] ++ u "print(os.name)"
                          ++ [10; 10])));
      ([u "README.md"],
       RegularFile (Some (concat (replicate 10 (u "text" ++ [10]))))) ].

(** A session that has counted a repository before. *)
Definition session : gmap string Bot.value :=
  {[ "top" := Bot.VInt 20; "last_url" := Bot.VStr (u "https://github.com/acme/widgets") ]}.

End Demo.

(** ** The command line of count_loc.py *)

Module Cli.

(** What [parser.parse_args()] returns. *)
Record Args := {
  target : option str;
  ext : str;
  ignore_dirs : str;
  top : Z
}.

(** What a run finds around it: the terminal, the answer to the prompt
    ([None] when [input] raises [EOFError]), [Path(target).resolve()] or
    the exception it raises, the local file system, and what the fetcher
    needs. *)
Record Env := {
  isatty : bool;
  input : option str;
  resolve : str -> result Path;
  local_fs : FileSystem;
  check_bracketed_netloc : str -> option str;
  quote : str -> str;
  fetch_and_extract : str -> Path -> result FileSystem;
  tmp : Path
}.

Inductive output :=
  | Prompt (text : str)    (* written by [input] *)
  | Stdout (line : str)    (* [print(line)] *)
  | Stderr (line : str).   (* [print(line, file=sys.stderr)] *)

(** [str(path)], for an absolute or a relative path. *)
Definition path_str (p : Path) : str :=
  match p with
  | [] => u "."
  | a :: rest =>
      if bool_decide (a = u "/") then u "/" ++ Py.join (u "/") rest
      else Py.join (u "/") p
  end.

(** [str(exc)] *)
Definition exn_str (e : exn) : str :=
  match e with
  | ValueError msg | URLError msg | BadZipFile msg | OtherError msg => msg
  end.

(** The target of the run: the argument, or the answer to the prompt on
    a terminal, or the current directory. *)
Definition resolve_target (args : Args) (env : Env) : list output * str :=
  match target args with
  | Some t => ([], t)
  | None =>
      if isatty env then
        let user_input :=
          match input env with
          | Some answer => Py.strip answer
          | None => []
          end in
        ([Prompt (u "Paste GitHub URL or local path (Enter = current folder): ")],
         if Py.truthy user_input then user_input else u ".")
      else ([], u ".")
  end.

(** The body of the [try] block of [main]: the lines it prints and the
    result of the count. *)
Definition count_target (env : Env) (target : str)
    (extensions ignore_dirs : gset str)
    : result (list output * (list (Z * Path) * Z)) :=
  http <- Fetcher.is_http_url (check_bracketed_netloc env) target ;;
  if (http : bool) then
    r <- Fetcher.download_and_extract_repo (check_bracketed_netloc env)
           (quote env) (fetch_and_extract env) target (tmp env) ;;
    c <- CountLoc.count_project r.1 r.2 extensions ignore_dirs ;;
    Ok ([Stdout (u "Source: " ++ target);
         Stdout (u "Project (temp): " ++ path_str r.2)], c)
  else
    root <- resolve env target ;;
    c <- CountLoc.count_project (local_fs env) root extensions ignore_dirs ;;
    Ok ([Stdout (u "Project: " ++ path_str root)], c).

(** The [except] clause of [main] catches [ValueError], [URLError] and
    [BadZipFile] only. *)
Definition caught (e : exn) : bool :=
  match e with
  | ValueError _ | URLError _ | BadZipFile _ => true
  | OtherError _ => false
  end.

(** [main]: what is written, in order, and the exit status, or the
    exception that leaves [main]. *)
Definition main (args : Args) (env : Env) : list output * result Z :=
  let '(asked, target) := resolve_target args env in
  let extensions :=
    if Py.truthy (ext args)
    then CountLoc.normalize_extensions (CountLoc.parse_csv_set (ext args))
    else ∅ in
  let ignore_dirs := CountLoc.parse_csv_set (ignore_dirs args) in
  match count_target env target extensions ignore_dirs with
  | Raise e =>
      if caught e then (asked ++ [Stderr (u "Error: " ++ exn_str e)], Ok 1)
      else (asked, Raise e)
  | Ok (head, (per_file, total)) =>
      (asked ++ head ++ map Stdout (Render.print_report per_file total (top args)),
       Ok 0)
  end.

End Cli.

(** ** Notions used by the further properties *)

Module Notions.

(** The session holds what the handlers store: an integer under [top],
    a string under [last_url]. *)
Definition well_formed (ud : gmap string Bot.value) : Prop :=
  (forall v, ud !! "top" = Some v -> v = Bot.VInt 10 \/ v = Bot.VInt 20)
  /\ (forall v, ud !! "last_url" = Some v -> exists url, v = Bot.VStr url).

Definition is_run_count (e : Bot.event) : bool :=
  match e with
  | Bot.RunCount _ _ => true
  | _ => false
  end.

(** The characters that are markup in a Telegram HTML message or would
    end an attribute. *)
Definition is_markup (c : Z) : bool :=
  (c =? 60) || (c =? 62) || (c =? 34) || (c =? 39).

(** The top-N of a count that is run is 10 or 20. *)
Definition count_is_capped (e : Bot.event) : Prop :=
  match e with
  | Bot.RunCount _ top => top = 10 \/ top = 20
  | _ => True
  end.

(** A Hoare triple for handlers.  From a [user_data] that satisfies
    [Pre], whatever the outcomes of the Telegram calls: every event
    satisfies [Ev]; the outcomes left over are a suffix of the ones
    given; a result comes with [Post]; and an exception is one that a
    Telegram call raised, or one that [Exc] allows, and leaves a
    [user_data] that satisfies [Inv]. *)
Definition triple {A} (Inv : gmap string Bot.value -> Prop)
    (Ev : Bot.event -> Prop) (Exc : exn -> Prop)
    (Pre : gmap string Bot.value -> Prop) (m : Bot.Handler A)
    (Post : A -> gmap string Bot.value -> Prop) : Prop :=
  forall (ud : gmap string Bot.value) (tg : list (option exn)),
    Pre ud ->
    Forall Ev (m (ud, tg)).2
    /\ (exists used, tg = used ++ (m (ud, tg)).1.2.2)
    /\ match (m (ud, tg)).1.1 with
       | Ok a => Post a (m (ud, tg)).1.2.1
       | Raise e => (Some e ∈ tg \/ Exc e) /\ Inv (m (ud, tg)).1.2.1
       end.


(** The updates that reach a handler, as [main] registers them:
    [/start], [/help], a text message that is not a command, and a
    callback query with its data; each with the message that the handler
    replies to, or without it. *)
Inductive update :=
  | CmdStart (present : bool)
  | CmdHelp (present : bool)
  | Text (message : option (option str))
  | Callback (present : bool) (data : str).

(** The update carries the message that its handler replies to. *)
Definition carries_message (upd : update) : bool :=
  match upd with
  | CmdStart present | CmdHelp present | Callback present _ => present
  | Text message => bool_decide (is_Some message)
  end.

(** The exceptions of an update that does not carry its message. *)
Definition message_missing (e : exn) : Prop :=
  e = Bot.no_attribute "text" \/ e = Bot.no_attribute "reply_text".

(** A handler that keeps a session well formed, runs counts with 10
    or 20 only, and lets no exception out but those of Telegram calls
    and those that [Exc] allows. *)
Abbreviation handles Exc m :=
  (triple well_formed count_is_capped Exc well_formed m
     (fun _ ud => well_formed ud)).

Section Session.

Variable check_bracketed_netloc : str -> option str.
Variable quote : str -> str.
Variable fetch_and_extract : str -> Path -> result FileSystem.
Variable tmp : Path.
Variable int_of_str : str -> result Z.

Definition dispatch (upd : update) : Bot.Handler unit :=
  match upd with
  | CmdStart present => Bot.start present
  | CmdHelp present => Bot.help_cmd present
  | Text message =>
      Bot.handle_message check_bracketed_netloc quote fetch_and_extract tmp
        int_of_str message
  | Callback present data =>
      Bot.handle_callback check_bracketed_netloc quote fetch_and_extract tmp
        present data
  end.

(** A session: the updates of one user, handled one after the other on
    the same state.  The result is the final state, all the events, and
    the exceptions that left a handler. *)
Fixpoint run_session (updates : list update) (st : Bot.state)
    : Bot.state * list Bot.event * list exn :=
  match updates with
  | [] => (st, [], [])
  | upd :: rest =>
      let '(r, st', ev) := dispatch upd st in
      let '(st'', ev', raised) := run_session rest st' in
      (st'', ev ++ ev',
       match r with Raise e => e :: raised | Ok _ => raised end)
  end.

End Session.

(** The code points a row of the lower-case table stands for. *)
Definition row_points (row : Z * Z * Z * Z) : list Z :=
  (fun k => row.1.1.1 + k * row.1.2)
    <$> seqZ 0 ((row.1.1.2 - row.1.1.1) / row.1.2 + 1).

(** The code points whose lower case is another code point. *)
Definition lower_domain : list Z := flat_map row_points Py.lower_table.

(** A code point that [str.lower] leaves as it is, wherever it stands. *)
Definition lower_fixed (c : Z) : bool :=
  negb (c =? 931) && negb (c =? 304) && (Py.lower_char c =? c).

(** The code points for which [str.isspace] holds. *)
Definition spaces : list Z :=
  [ 9; 10; 11; 12; 13; 28; 29; 30; 31; 32; 133; 160; 5760; 8192; 8193; 8194;
    8195; 8196; 8197; 8198; 8199; 8200; 8201; 8202; 8232; 8233; 8239; 8287;
    12288 ].

(** What [html.escape] puts in the place of one character. *)
Definition escape_char (c : Z) : str :=
  if c =? 38 then u "&amp;"
  else if c =? 60 then u "&lt;"
  else if c =? 62 then u "&gt;"
  else if c =? 34 then u "&quot;"
  else if c =? 39 then u "&#x27;"
  else [c].

End Notions.

(** * Properties *)

(** ** Letter case *)

Lemma lookup_row_points (c d : Z) (t : list (Z * Z * Z * Z)) :
  Forall (fun row => 0 < row.1.2) t ->
  Py.lookup_row c t = Some d -> c ∈ flat_map Notions.row_points t.
Proof.
  induction 1 as [|[[[lo hi] step] dd] t Hstep _ IH]; [done|].
  cbn [Py.lookup_row flat_map]. simpl in Hstep.
  destruct ((lo <=? c) && (c <=? hi) && ((c - lo) mod step =? 0)) eqn:Hrow.
  - intros _. apply elem_of_app. left.
    apply andb_true_iff in Hrow as [Hrange Hmod].
    apply andb_true_iff in Hrange as [Hlo Hhi].
    apply Z.leb_le in Hlo, Hhi. apply Z.eqb_eq in Hmod.
    unfold Notions.row_points. cbn [fst snd].
    apply list_elem_of_fmap. exists ((c - lo) / step). split.
    + pose proof (Z.div_mod (c - lo) step ltac:(lia)). lia.
    + apply elem_of_seqZ. split.
      * apply Z.div_pos; lia.
      * assert ((c - lo) / step <= (hi - lo) / step)
          by (apply Z.div_le_mono; lia).
        lia.
  - intros Hrec. apply elem_of_app. right. by apply IH.
Qed.

Lemma lower_table_steps : Forall (fun row => 0 < row.1.2) Py.lower_table.
Proof. apply (bool_decide_unpack _). vm_compute. exact I. Qed.

Lemma lower_domain_fixed :
  forallb (fun c => (c =? 931) || (c =? 304)
                    || Notions.lower_fixed (Py.lower_char c)) Notions.lower_domain
  = true.
Proof. vm_compute. reflexivity. Qed.

Lemma lower_char_fixed (c : Z) :
  c <> 931 -> c <> 304 -> Notions.lower_fixed (Py.lower_char c) = true.
Proof.
  intros H1 H2.
  destruct (Py.lookup_row c Py.lower_table) as [d|] eqn:Hrow.
  - pose proof (lookup_row_points c d _ lower_table_steps Hrow) as Hin.
    pose proof lower_domain_fixed as Hall. rewrite forallb_forall in Hall.
    apply list_elem_of_In, Hall in Hin.
    destruct (Z.eqb_spec c 931), (Z.eqb_spec c 304); done.
  - assert (Hc : Py.lower_char c = c) by (unfold Py.lower_char; by rewrite Hrow).
    unfold Notions.lower_fixed. rewrite !Hc.
    destruct (Z.eqb_spec c 931), (Z.eqb_spec c 304); [done..|].
    by rewrite Z.eqb_refl.
Qed.

Lemma lower_from_fixed (before s : str) :
  Forall (fun c => Notions.lower_fixed c = true) s -> Py.lower_from before s = s.
Proof.
  intros Hs. revert before. induction Hs as [|c s Hc _ IH]; intros before; [done|].
  cbn [Py.lower_from]. rewrite IH.
  unfold Notions.lower_fixed in Hc.
  apply andb_true_iff in Hc as [Hc Hfix]. apply andb_true_iff in Hc as [H1 H2].
  apply negb_true_iff in H1, H2. apply Z.eqb_eq in Hfix.
  rewrite H1. unfold Py.lower_full. by rewrite H2, Hfix.
Qed.

Lemma lower_from_out (before s : str) :
  Forall (fun c => Notions.lower_fixed c = true) (Py.lower_from before s).
Proof.
  revert before. induction s as [|c s IH]; intros before; [constructor|].
  cbn [Py.lower_from]. apply Forall_app. split; [|apply IH].
  destruct (Z.eqb_spec c 931) as [->|H1].
  - by destruct (Py.final_sigma before s); repeat constructor.
  - unfold Py.lower_full. destruct (Z.eqb_spec c 304) as [->|H2].
    + by repeat constructor.
    + repeat constructor. by apply lower_char_fixed.
Qed.

Lemma lower_idem (s : str) : Py.lower (Py.lower s) = Py.lower s.
Proof. apply lower_from_fixed, lower_from_out. Qed.

Lemma isspace_spaces (c : Z) : Py.isspace c = true -> c ∈ Notions.spaces.
Proof.
  unfold Py.isspace. intros H. apply list_elem_of_In. simpl. lia.
Qed.

Lemma isspace_lower_char (c : Z) : Py.isspace c = true -> Py.lower_char c = c.
Proof.
  intros H. apply isspace_spaces in H.
  assert (Hall : forallb (fun c => Py.lower_char c =? c) Notions.spaces = true)
    by (vm_compute; reflexivity).
  rewrite forallb_forall in Hall. apply Z.eqb_eq, Hall. by apply list_elem_of_In.
Qed.

(** ** The stable descending sort *)

Section SortDesc.

Context {A : Type} (key : A -> Z).

Let desc (x y : A) : Prop := key y <= key x.

Lemma insert_desc_perm (x : A) (l : list A) :
  CountLoc.insert_desc key x l ≡ₚ x :: l.
Proof.
  induction l as [|y l IH]; simpl; [done|].
  destruct (key x <? key y); [|done].
  rewrite IH. apply Permutation_swap.
Qed.

Lemma sort_desc_perm (l : list A) : CountLoc.sort_desc key l ≡ₚ l.
Proof.
  induction l as [|x l IH]; simpl; [done|].
  by rewrite insert_desc_perm, IH.
Qed.

Lemma insert_desc_sorted (x : A) (l : list A) :
  StronglySorted desc l -> StronglySorted desc (CountLoc.insert_desc key x l).
Proof.
  induction 1 as [|y l Hl IH Hy]; simpl.
  - repeat constructor.
  - destruct (Z.ltb_spec (key x) (key y)) as [Hlt|Hge].
    + constructor; [done|].
      rewrite insert_desc_perm. constructor; [unfold desc; lia | done].
    + constructor; [by constructor|].
      constructor; [done|].
      eapply Forall_impl; [exact Hy|]. unfold desc. intros z Hz; simpl in *. lia.
Qed.

Lemma sort_desc_sorted (l : list A) : StronglySorted desc (CountLoc.sort_desc key l).
Proof.
  induction l as [|x l IH]; simpl; [constructor|].
  by apply insert_desc_sorted.
Qed.

Lemma insert_desc_filter (k : Z) (x : A) (l : list A) :
  filter (fun e => key e = k) (CountLoc.insert_desc key x l)
  = filter (fun e => key e = k) (x :: l).
Proof.
  induction l as [|y l IH]; simpl; [done|].
  destruct (Z.ltb_spec (key x) (key y)) as [Hlt|Hge]; [|done].
  rewrite (filter_cons _ y), IH, !filter_cons.
  repeat case_decide; try done; lia.
Qed.

(** Stability: the elements of any one key keep their order. *)
Lemma sort_desc_stable (k : Z) (l : list A) :
  filter (fun e => key e = k) (CountLoc.sort_desc key l)
  = filter (fun e => key e = k) l.
Proof.
  induction l as [|x l IH]; simpl; [done|].
  by rewrite insert_desc_filter, !filter_cons, IH.
Qed.

(** Two sorted lists with the same elements of every key, in the same
    order, are equal. *)
Lemma sorted_stable_eq (l1 l2 : list A) :
  StronglySorted desc l1 -> StronglySorted desc l2 ->
  (forall k, filter (fun e => key e = k) l1 = filter (fun e => key e = k) l2) ->
  l1 = l2.
Proof.
  intros H1. revert l2.
  induction H1 as [|x l1 Hs1 IH Hx]; intros l2 H2 Heq.
  - destruct l2 as [|y l2]; [done|].
    specialize (Heq (key y)). rewrite filter_cons_True in Heq by done. done.
  - destruct H2 as [|y l2 Hs2 Hy].
    + specialize (Heq (key x)). rewrite filter_cons_True in Heq by done. done.
    + assert (Hin1 : x ∈ y :: l2).
      { eapply (list_elem_of_filter (fun e => key e = key x)).
        rewrite <- Heq, filter_cons_True by done. left. }
      assert (Hin2 : y ∈ x :: l1).
      { eapply (list_elem_of_filter (fun e => key e = key y)).
        rewrite Heq, filter_cons_True by done. left. }
      assert (Hk : key x = key y).
      { apply Z.le_antisymm.
        - apply elem_of_cons in Hin1 as [->|Hin1]; [done|].
          rewrite Forall_forall in Hy. apply (Hy _ Hin1).
        - apply elem_of_cons in Hin2 as [->|Hin2]; [done|].
          rewrite Forall_forall in Hx. apply (Hx _ Hin2). }
      pose proof (Heq (key x)) as Hh.
      rewrite filter_cons_True in Hh by done.
      rewrite (filter_cons_True _ y) in Hh by done.
      injection Hh as -> Hh.
      f_equal. apply IH; [done|].
      intros k. specialize (Heq k). rewrite !filter_cons in Heq.
      case_decide; [by injection Heq|done].
Qed.

(** So a stable sort has no choice: whatever list is sorted and keeps
    the order within every key is the one [sort_desc] returns. *)
Lemma stable_sort_unique (l l' : list A) :
  StronglySorted desc l' ->
  (forall k, filter (fun e => key e = k) l' = filter (fun e => key e = k) l) ->
  l' = CountLoc.sort_desc key l.
Proof.
  intros Hs Hk. apply sorted_stable_eq; [done|apply sort_desc_sorted|].
  intros k. by rewrite Hk, sort_desc_stable.
Qed.

End SortDesc.

(** ** The walker and the project counter *)

Section Counting.

Variable fs : FileSystem.
Variable root : Path.
Variables extensions ignore_dirs : gset str.

Lemma relative_to_app (rel : Path) :
  Pathlib.relative_to root (root ++ rel) = Ok rel.
Proof.
  induction root as [|r root' IH]; simpl; [done|].
  by rewrite bool_decide_eq_true_2.
Qed.

Lemma walk_filter (paths : list Path) :
  CountLoc.walk fs extensions ignore_dirs paths
  = filter (fun p => CountLoc.yielded fs extensions ignore_dirs p = true) paths.
Proof.
  induction paths as [|p paths IH]; simpl; [done|].
  rewrite filter_cons, IH.
  destruct (CountLoc.yielded fs extensions ignore_dirs p); by case_decide.
Qed.

Lemma iter_source_files_rels :
  CountLoc.iter_source_files fs root extensions ignore_dirs
  = map (fun rel => root ++ rel)
      (filter (fun rel => CountLoc.yielded fs extensions ignore_dirs (root ++ rel) = true)
              (fs_rglob fs root)).
Proof.
  unfold CountLoc.iter_source_files, CountLoc.rglob. rewrite walk_filter.
  induction (fs_rglob fs root) as [|rel rels IH]; simpl; [done|].
  rewrite !filter_cons. simpl. rewrite IH. by case_decide.
Qed.

(** The loop appends, in order, one record per path with a non-zero
    count, and adds exactly those counts to the total. *)
Lemma count_loop_rels (rels : list Path) (per_file : list (Z * Path)) (total : Z) :
  let entries :=
    omap (fun rel =>
            let loc := CountLoc.count_non_empty_lines fs (root ++ rel) in
            if loc =? 0 then None else Some (loc, rel)) rels in
  CountLoc.count_loop fs root (map (fun rel => root ++ rel) rels) per_file total
  = Ok (per_file ++ entries, total + Spec.sum_counts entries).
Proof.
  revert per_file total.
  induction rels as [|rel rels IH]; intros per_file total; simpl.
  - by rewrite app_nil_r, Z.add_0_r.
  - destruct (CountLoc.count_non_empty_lines fs (root ++ rel) =? 0) eqn:Hz.
    + apply IH.
    + rewrite relative_to_app. simpl. rewrite IH. simpl.
      rewrite <- app_assoc. simpl. f_equal. f_equal.
      unfold Spec.sum_counts. simpl. rewrite <- Z.add_assoc. reflexivity.
Qed.

Lemma count_project_encountered :
  let enc := Spec.encountered fs root extensions ignore_dirs in
  CountLoc.count_project fs root extensions ignore_dirs
  = Ok (CountLoc.sort_desc fst enc, Spec.sum_counts enc).
Proof.
  unfold CountLoc.count_project. rewrite iter_source_files_rels, count_loop_rels.
  reflexivity.
Qed.

Lemma foldr_add_perm (l1 l2 : list Z) :
  l1 ≡ₚ l2 -> foldr Z.add 0 l1 = foldr Z.add 0 l2.
Proof. induction 1; simpl; lia. Qed.

Lemma sum_counts_perm (l1 l2 : list (Z * Path)) :
  l1 ≡ₚ l2 -> Spec.sum_counts l1 = Spec.sum_counts l2.
Proof.
  intros H. unfold Spec.sum_counts. apply foldr_add_perm.
  by apply fmap_Permutation.
Qed.

Lemma encountered_spec (loc : Z) (rel : Path) :
  (loc, rel) ∈ Spec.encountered fs root extensions ignore_dirs <->
  rel ∈ fs_rglob fs root
  /\ CountLoc.yielded fs extensions ignore_dirs (root ++ rel) = true
  /\ loc = CountLoc.count_non_empty_lines fs (root ++ rel)
  /\ loc <> 0.
Proof.
  unfold Spec.encountered. rewrite list_elem_of_omap. split.
  - intros (rel' & Hin & Hsome).
    apply list_elem_of_filter in Hin as [Hy Hin].
    destruct (Z.eqb_spec (CountLoc.count_non_empty_lines fs (root ++ rel')) 0);
      [done|].
    injection Hsome as <- <-. done.
  - intros (Hin & Hy & -> & Hnz). exists rel. split.
    + by apply list_elem_of_filter.
    + by destruct (Z.eqb_spec (CountLoc.count_non_empty_lines fs (root ++ rel)) 0).
Qed.

End Counting.

(** ** The line counter *)

Lemma list_tail_ind (P : str -> Prop) :
  P [] ->
  (forall c s, P s -> (forall d s', s = d :: s' -> P s') -> P (c :: s)) ->
  forall s, P s.
Proof.
  intros Hnil Hcons s.
  cut (P s /\ (forall d s', s = d :: s' -> P s')); [tauto|].
  induction s as [|c s [IH1 IH2]]; [by split|].
  split; [by apply Hcons|].
  by intros d s' [= _ <-].
Qed.

Lemma lstrip_with_nil (p : Z -> bool) (s : str) :
  Py.lstrip_with p s = [] <-> Forall (fun c => p c = true) s.
Proof.
  induction s as [|c s IH]; simpl; [by split|].
  destruct (p c) eqn:Hc.
  - rewrite IH. split; [by constructor|by inversion 1].
  - split; [done|]. inversion 1; congruence.
Qed.

Lemma lstrip_with_Forall (p : Z -> bool) (s : str) :
  Forall (fun c => p c = true) (Py.lstrip_with p s) -> Forall (fun c => p c = true) s.
Proof.
  induction s as [|c s IH]; simpl; [done|].
  destruct (p c) eqn:Hc; [by constructor; auto|].
  inversion 1; congruence.
Qed.

Lemma Forall_rev_iff (P : Z -> Prop) (s : str) : Forall P (rev s) <-> Forall P s.
Proof.
  split; intros H.
  - rewrite <- (rev_involutive s). by apply Forall_rev.
  - by apply Forall_rev.
Qed.

Lemma strip_with_nil (p : Z -> bool) (s : str) :
  Py.strip_with p s = [] <-> Forall (fun c => p c = true) s.
Proof.
  unfold Py.strip_with, Py.rstrip_with. split.
  - intros H. apply (f_equal (@rev Z)) in H. rewrite rev_involutive in H. simpl in H.
    apply (proj1 (lstrip_with_nil _ _)) in H.
    apply (proj1 (Forall_rev_iff _ _)) in H. by apply lstrip_with_Forall.
  - intros H. apply (proj2 (lstrip_with_nil _ _)) in H. by rewrite H.
Qed.

Lemma truthy_ne (s : str) : Py.truthy s = true <-> s <> [].
Proof. by destruct s. Qed.

Lemma sum_non_empty_length (lines : list str) :
  CountLoc.sum_non_empty lines
  = Z.of_nat (length (filter (fun line => Py.strip line <> []) lines)).
Proof.
  induction lines as [|line lines IH]; simpl; [done|].
  rewrite filter_cons. case_decide as Hd.
  - apply truthy_ne in Hd. rewrite Hd, IH. simpl length.
    generalize (length (filter (fun line => Py.strip line <> []) lines)).
    intros n. lia.
  - destruct (Py.truthy (Py.strip line)) eqn:Ht; [|done].
    by apply truthy_ne in Ht.
Qed.

Lemma universal_newline_is_linebreak (c : Z) :
  Py.is_universal_newline c = true -> Py.is_linebreak c = true.
Proof. unfold Py.is_universal_newline, Py.is_linebreak. lia. Qed.

Lemma linebreak_isspace (c : Z) : Py.is_linebreak c = true -> Py.isspace c = true.
Proof. unfold Py.isspace, Py.is_linebreak. lia. Qed.

(** Without VT, FF, FS, GS, RS, NEL, LS and PS in the text, the two
    scans cut the same lines. *)
Lemma split_lines_agree (s : str) :
  Forall (fun c => Py.is_linebreak c = true -> Py.is_universal_newline c = true) s ->
  forall cur, Py.split_lines_from Py.is_linebreak cur s
              = Py.split_lines_from Py.is_universal_newline cur s.
Proof.
  induction s as [|c s IH IH'] using list_tail_ind; intros Hs cur; [done|].
  apply Forall_cons in Hs as [Hc Hs]. simpl.
  destruct (Py.is_linebreak c) eqn:Hb.
  - rewrite (Hc eq_refl). f_equal.
    destruct (c =? 13); [|by apply IH].
    destruct s as [|d s']; [done|].
    destruct (d =? 10); [|by apply IH].
    apply (IH' d s' eq_refl). by apply Forall_cons in Hs as [_ ?].
  - destruct (Py.is_universal_newline c) eqn:Hu.
    + apply universal_newline_is_linebreak in Hu. congruence.
    + by apply IH.
Qed.

(** Every character of a text belongs to a line or is a boundary (or
    the LF that follows a CR). *)
Lemma split_lines_chars (brk : Z -> bool) (P : Z -> Prop) (s : str) :
  (forall c, brk c = true -> P c) -> P 10 ->
  forall cur, Forall (Forall P) (Py.split_lines_from brk cur s) ->
              Forall P cur /\ Forall P s.
Proof.
  intros Hbrk Hlf.
  induction s as [|c s IH IH'] using list_tail_ind; intros cur Hl.
  - cbn [Py.split_lines_from] in Hl. destruct cur as [|a cur]; [done|].
    apply Forall_cons in Hl as [Hl _]. apply (proj1 (Forall_rev_iff _ _)) in Hl.
    by split.
  - cbn [Py.split_lines_from] in Hl. destruct (brk c) eqn:Hb.
    + apply Forall_cons in Hl as [Hcur Hl].
      apply (proj1 (Forall_rev_iff _ _)) in Hcur.
      split; [done|]. constructor; [by apply Hbrk|].
      destruct (c =? 13); [|by apply (IH [])].
      destruct s as [|d s']; [done|].
      destruct (Z.eqb_spec d 10) as [->|Hd]; [|by apply (IH [])].
      constructor; [done|by apply (IH' 10 s' eq_refl [])].
    + apply IH in Hl as [Hcur Hs]. apply Forall_cons in Hcur as [? ?].
      split; [done|by constructor].
Qed.

(** Conversely, the lines are made of characters of the text. *)
Lemma split_lines_from_chars (brk : Z -> bool) (P : Z -> Prop) (s : str) :
  Forall P s -> forall cur, Forall P cur ->
  Forall (Forall P) (Py.split_lines_from brk cur s).
Proof.
  induction s as [|c s IH IH'] using list_tail_ind; intros Hs cur Hcur.
  - cbn [Py.split_lines_from]. destruct cur; [done|].
    constructor; [|done]. by apply Forall_rev_iff.
  - apply Forall_cons in Hs as [Hc Hs]. cbn [Py.split_lines_from]. destruct (brk c).
    + constructor; [by apply Forall_rev_iff|].
      destruct (c =? 13); [|by apply IH].
      destruct s as [|d s']; [by apply IH|].
      destruct (d =? 10); [|by apply IH].
      apply (IH' d s' eq_refl); [|done]. by apply Forall_cons in Hs as [_ ?].
    + apply IH; [done|by constructor].
Qed.

Lemma count_text_whitespace (text : str) :
  Forall (fun c => Py.isspace c = true) text -> CountLoc.count_text text = 0.
Proof.
  intros Hws. unfold CountLoc.count_text. rewrite sum_non_empty_length.
  replace (filter _ _) with (@nil str); [done|]. symmetry.
  apply (split_lines_from_chars Py.is_linebreak) with (cur := []) in Hws; [|done].
  fold (Py.splitlines text) in Hws.
  induction Hws as [|line lines Hline _ IH]; [done|].
  rewrite filter_cons, decide_False; [done|].
  intros Hne. apply Hne. by apply strip_with_nil.
Qed.

(** ** The claims about the counter *)

(** C1. Whatever the scan root and the configuration, [count_project]
    returns a listing and a total such that the total is the sum of the
    line counts of the listing, the listing is non-increasing by line
    count, and the entries of any one count stand in the order in which
    the walker met them (the listing is a permutation of the records in
    encounter order). *)
Theorem count_project_total_sorted_stable
    (fs : FileSystem) (root : Path) (extensions ignore_dirs : gset str) :
  exists files total,
    CountLoc.count_project fs root extensions ignore_dirs = Ok (files, total)
    /\ total = Spec.sum_counts files
    /\ StronglySorted Spec.by_count_desc files
    /\ files ≡ₚ Spec.encountered fs root extensions ignore_dirs
    /\ forall k, Spec.with_count k files
                 = Spec.with_count k (Spec.encountered fs root extensions ignore_dirs).
Proof.
  eexists _, _. split; [apply count_project_encountered|].
  split; [|split; [|split]].
  - apply sum_counts_perm. symmetry. apply sort_desc_perm.
  - apply (sort_desc_sorted fst).
  - apply sort_desc_perm.
  - intros k. apply (sort_desc_stable fst).
Qed.

(** C4. A file whose read fails with an I/O error counts 0, and a file
    that counts 0 is left out of the result of [count_project]: no entry
    of the listing has its path, every entry has a non-zero count, and
    the total is the sum over the entries. *)
Theorem zero_count_files_excluded
    (fs : FileSystem) (root : Path) (extensions ignore_dirs : gset str) :
  (forall path, fs_read_text fs path = None ->
                CountLoc.count_non_empty_lines fs path = 0)
  /\ exists files total,
       CountLoc.count_project fs root extensions ignore_dirs = Ok (files, total)
       /\ (forall rel, CountLoc.count_non_empty_lines fs (root ++ rel) = 0 ->
                       rel ∉ files.*2)
       /\ Forall (fun e => e.1 <> 0) files
       /\ total = Spec.sum_counts files.
Proof.
  split.
  - intros path Hread. unfold CountLoc.count_non_empty_lines. by rewrite Hread.
  - eexists _, _. split; [apply count_project_encountered|].
    pose proof (sort_desc_perm fst
                  (Spec.encountered fs root extensions ignore_dirs)) as Hperm.
    split; [|split; [|by rewrite (sum_counts_perm _ _ Hperm)]].
    + intros rel Hzero Hin. apply list_elem_of_fmap in Hin as ([loc rel'] & -> & Hin).
      rewrite Hperm in Hin. apply encountered_spec in Hin as (_ & _ & -> & Hnz).
      simpl in Hzero. done.
    + apply Forall_forall. intros [loc rel] Hin. rewrite Hperm in Hin.
      by apply encountered_spec in Hin as (_ & _ & _ & Hnz).
Qed.

Lemma zero_count_files_excluded_witness :
  CountLoc.count_non_empty_lines Demo.proj_fs
    (Demo.proj_root ++ [u "src"; u "locked.py"]) = 0
  /\ CountLoc.count_project Demo.proj_fs Demo.proj_root
       (CountLoc.normalize_extensions (CountLoc.parse_csv_set (u "py"))) ∅
     = Ok ([(2, [u "a.py"]); (2, [u "src"; u "ff.py"])], 4).
Proof.
  destruct (zero_count_files_excluded Demo.proj_fs Demo.proj_root
              (CountLoc.normalize_extensions (CountLoc.parse_csv_set (u "py"))) ∅)
    as [Hio _].
  split; [apply Hio; vm_compute; reflexivity | vm_compute; reflexivity].
Defined.

(** C5, as stated, fails: [splitlines] also cuts at a form feed, so the
    text [a FF b] counts two lines, while it is one line between
    universal newlines. *)
Lemma count_non_empty_lines_form_feed :
  fs_read_text Demo.proj_fs (Demo.proj_root ++ [u "src"; u "ff.py"])
    = Some [97; 12; 98]
  /\ CountLoc.count_non_empty_lines Demo.proj_fs
       (Demo.proj_root ++ [u "src"; u "ff.py"]) = 2
  /\ Spec.non_empty_universal_lines [97; 12; 98] = 1.
Proof. vm_compute. auto. Qed.

(** C5, amended. For a readable file the count is the number of lines
    of [splitlines] (cut at LF, CR, CR LF and also at VT, FF, FS, GS, RS,
    NEL, LS, PS) whose trimmed content is not empty; when the text holds
    none of the additional boundaries this is the number of non-blank
    lines between universal newlines; and a text whose lines are all
    whitespace-only counts 0. *)
Theorem count_non_empty_lines_splitlines
    (fs : FileSystem) (path : Path) (text : str) :
  fs_read_text fs path = Some text ->
  CountLoc.count_non_empty_lines fs path
  = Z.of_nat (length (filter (fun line => Py.strip line <> []) (Py.splitlines text)))
  /\ (Forall (fun c => Py.is_linebreak c = true -> Py.is_universal_newline c = true)
        text ->
      CountLoc.count_non_empty_lines fs path = Spec.non_empty_universal_lines text)
  /\ (Forall (fun line => Py.strip line = []) (Spec.universal_lines text) ->
      CountLoc.count_non_empty_lines fs path = 0).
Proof.
  intros Hread. unfold CountLoc.count_non_empty_lines. rewrite Hread.
  split; [apply sum_non_empty_length|]. split.
  - intros Hplain. unfold CountLoc.count_text, Spec.non_empty_universal_lines,
      Spec.universal_lines, Py.splitlines.
    by rewrite sum_non_empty_length, split_lines_agree.
  - intros Hblank. apply count_text_whitespace.
    apply (split_lines_chars Py.is_universal_newline _ text) with (cur := []);
      [| reflexivity |].
    + intros c Hc. by apply linebreak_isspace, universal_newline_is_linebreak.
    + eapply Forall_impl; [exact Hblank|]. intros line Hline.
      by apply strip_with_nil.
Qed.

Lemma count_non_empty_lines_splitlines_witness :
  CountLoc.count_non_empty_lines Demo.proj_fs
    (Demo.proj_root ++ [u "src"; u "blank.py"]) = 0
  /\ CountLoc.count_non_empty_lines Demo.proj_fs (Demo.proj_root ++ [u "a.py"])
     = Spec.non_empty_universal_lines (u "x = 1" ++ [10; 10] ++ u "y = 2" ++ [10]).
Proof.
  split.
  - apply (count_non_empty_lines_splitlines Demo.proj_fs _ (u "  " ++ [10; 9; 10]));
      [vm_compute; reflexivity|].
    vm_compute. repeat constructor.
  - apply (count_non_empty_lines_splitlines Demo.proj_fs _
             (u "x = 1" ++ [10; 10] ++ u "y = 2" ++ [10]));
      [vm_compute; reflexivity|].
    vm_compute. repeat (constructor; [tauto|]). constructor.
Defined.

(** ** The claims about the walker *)

Lemma has_ignored_part_spec (ignore_dirs : gset str) (path : Path) :
  CountLoc.has_ignored_part ignore_dirs path = true
  <-> exists seg, seg ∈ path /\ seg ∈ ignore_dirs.
Proof.
  unfold CountLoc.has_ignored_part. rewrite existsb_exists. split.
  - intros (seg & Hin & Hdec). exists seg. split.
    + by apply list_elem_of_In.
    + by apply bool_decide_eq_true in Hdec.
  - intros (seg & Hin & Hign). exists seg. split.
    + by apply list_elem_of_In.
    + by apply bool_decide_eq_true.
Qed.

Lemma yielded_spec (fs : FileSystem) (extensions ignore_dirs : gset str) (path : Path) :
  CountLoc.yielded fs extensions ignore_dirs path = true
  <-> fs_is_file fs path = true
      /\ CountLoc.has_ignored_part ignore_dirs path = false
      /\ CountLoc.suffix_rejected extensions path = false.
Proof.
  unfold CountLoc.yielded.
  destruct (fs_is_file fs path), (CountLoc.has_ignored_part ignore_dirs path),
    (CountLoc.suffix_rejected extensions path); simpl; intuition discriminate.
Qed.

Lemma iter_source_files_spec (fs : FileSystem) (root : Path)
    (extensions ignore_dirs : gset str) (path : Path) :
  path ∈ CountLoc.iter_source_files fs root extensions ignore_dirs
  <-> path ∈ CountLoc.rglob fs root
      /\ CountLoc.yielded fs extensions ignore_dirs path = true.
Proof.
  unfold CountLoc.iter_source_files. rewrite walk_filter, list_elem_of_filter.
  tauto.
Qed.

Lemma rglob_app (fs : FileSystem) (root rel : Path) :
  rel ∈ fs_rglob fs root -> root ++ rel ∈ CountLoc.rglob fs root.
Proof.
  intros Hin. unfold CountLoc.rglob. apply list_elem_of_fmap. by exists rel.
Qed.

(** C2, as stated, fails: the test runs over all the parts of the path,
    those of the root included, so a project kept below a directory named
    [build] loses every file although nothing below the root is ignored. *)
Lemma skipped_iff_ignored_below_root_fails : ~ Spec.skipped_iff_ignored_below_root.
Proof.
  intros H.
  destruct (H Demo.build_fs Demo.build_root ∅ {[ u "build" ]} [u "a.py"])
    as [Hskip _].
  - vm_compute. left.
  - reflexivity.
  - reflexivity.
  - destruct Hskip as (seg & Hseg & Hign).
    + intros Hin. apply iter_source_files_spec in Hin as [_ Hy].
      vm_compute in Hy. discriminate.
    + apply list_elem_of_singleton in Hseg as ->.
      apply elem_of_singleton in Hign. vm_compute in Hign. discriminate.
Qed.

(** C2, amended. An entry of the enumeration is skipped by the walker
    exactly when it is not a regular file, or some part of its path, the
    parts of the root included, equals a name of [ignore_dirs] (whole
    names, no substrings, no patterns), or its suffix fails the extension
    filter.  So a regular file that passes the extension test is skipped
    exactly when some part of its path, the parts of the root included,
    is an ignored name; consequently no relative path in the result of
    [count_project] holds an ignored segment. *)
Theorem skipped_iff_ignored_part
    (fs : FileSystem) (root : Path) (extensions ignore_dirs : gset str) :
  (forall rel,
     rel ∈ fs_rglob fs root ->
     (root ++ rel ∉ CountLoc.iter_source_files fs root extensions ignore_dirs
      <-> fs_is_file fs (root ++ rel) = false
          \/ (exists seg, seg ∈ root ++ rel /\ seg ∈ ignore_dirs)
          \/ CountLoc.suffix_rejected extensions (root ++ rel) = true))
  /\ (forall rel,
        rel ∈ fs_rglob fs root ->
        fs_is_file fs (root ++ rel) = true ->
        CountLoc.suffix_rejected extensions (root ++ rel) = false ->
        (root ++ rel ∉ CountLoc.iter_source_files fs root extensions ignore_dirs
         <-> exists seg, seg ∈ root ++ rel /\ seg ∈ ignore_dirs))
  /\ (forall files total,
        CountLoc.count_project fs root extensions ignore_dirs = Ok (files, total) ->
        forall loc rel seg, (loc, rel) ∈ files -> seg ∈ rel -> seg ∉ ignore_dirs).
Proof.
  split; [|split].
  - intros rel Hin.
    rewrite <- has_ignored_part_spec, iter_source_files_spec, yielded_spec.
    pose proof (rglob_app fs root rel Hin).
    destruct (fs_is_file fs (root ++ rel)),
      (CountLoc.has_ignored_part ignore_dirs (root ++ rel)),
      (CountLoc.suffix_rejected extensions (root ++ rel));
      intuition discriminate.
  - intros rel Hin Hfile Hext.
    rewrite <- has_ignored_part_spec, iter_source_files_spec, yielded_spec.
    pose proof (rglob_app fs root rel Hin).
    destruct (CountLoc.has_ignored_part ignore_dirs (root ++ rel));
      intuition discriminate.
  - intros files total Hrun loc rel seg Hin Hseg Hign.
    rewrite count_project_encountered in Hrun. injection Hrun as <- _.
    rewrite (sort_desc_perm fst) in Hin.
    apply encountered_spec in Hin as (_ & Hy & _).
    apply yielded_spec in Hy as (_ & Hnone & _).
    apply not_true_iff_false in Hnone. apply Hnone, has_ignored_part_spec.
    exists seg. split; [|done]. apply elem_of_app. by right.
Qed.

Lemma skipped_iff_ignored_part_witness :
  (Demo.mixed_root ++ [u "node_modules"; u "dep.py"]
     ∉ CountLoc.iter_source_files Demo.mixed_fs Demo.mixed_root ∅
         {[ u "node_modules" ]})
  /\ (Demo.mixed_root ++ [u "notes.md"]
       ∉ CountLoc.iter_source_files Demo.mixed_fs Demo.mixed_root
           (CountLoc.normalize_extensions Bot.DEFAULT_EXTENSIONS) ∅)
  /\ forall loc rel seg,
       (loc, rel) ∈ [(1, [u "Main.PY"]); (1, [u "notes.md"])] ->
       seg ∈ rel -> seg ∉ ({[ u "node_modules" ]} : gset str).
Proof.
  split; [|split].
  - destruct (skipped_iff_ignored_part Demo.mixed_fs Demo.mixed_root ∅
                {[ u "node_modules" ]}) as (_ & Hskip & _).
    apply Hskip.
    + vm_compute. do 3 right. left.
    + reflexivity.
    + reflexivity.
    + exists (u "node_modules"). split.
      * vm_compute. do 3 right. left.
      * by apply elem_of_singleton.
  - destruct (skipped_iff_ignored_part Demo.mixed_fs Demo.mixed_root
                (CountLoc.normalize_extensions Bot.DEFAULT_EXTENSIONS) ∅)
      as (Hskip & _).
    apply Hskip.
    + vm_compute. right. left.
    + do 2 right. vm_compute. reflexivity.
  - destruct (skipped_iff_ignored_part Demo.mixed_fs Demo.mixed_root ∅
                {[ u "node_modules" ]}) as (_ & _ & Hres).
    apply (Hres _ 2). vm_compute. reflexivity.
Defined.

Lemma dot_prefixed_startswith (ext : str) :
  Py.startswith (u ".") (CountLoc.dot_prefixed ext) = true.
Proof.
  unfold CountLoc.dot_prefixed.
  destruct (Py.startswith (u ".") ext) eqn:Hs; [done|reflexivity].
Qed.

Lemma suffix_rejected_false (extensions : gset str) (path : Path) :
  CountLoc.suffix_rejected extensions path = false
  <-> extensions = ∅ \/ Py.lower (Pathlib.suffix path) ∈ extensions.
Proof.
  unfold CountLoc.suffix_rejected.
  rewrite andb_false_iff, negb_false_iff, bool_decide_eq_false, bool_decide_eq_true.
  split; (intros [H|H]; [left|by right]).
  - by destruct (decide (extensions = ∅)).
  - by intros ?.
Qed.

(** C3. The normalised filter set holds each token with a leading dot
    (the token itself when it has one already).  When the filter set is
    not empty, the lower-cased suffix of every file the walker yields is
    an element of it, so the suffix is a member up to letter case
    ([str.lower], over all of Unicode); when it is empty, every suffix
    passes: each regular file without an ignored part is yielded. *)
Theorem yielded_suffix_in_filter
    (fs : FileSystem) (root : Path) (extensions ignore_dirs : gset str) :
  (forall (tokens : gset str) (e : str),
     e ∈ CountLoc.normalize_extensions tokens
     <-> exists t, t ∈ tokens
                   /\ e = (if Py.startswith (u ".") t then t else u "." ++ t))
  /\ (forall path,
        extensions <> ∅ ->
        path ∈ CountLoc.iter_source_files fs root extensions ignore_dirs ->
        Py.lower (Pathlib.suffix path) ∈ extensions
        /\ exists e, e ∈ extensions /\ Py.lower e = Py.lower (Pathlib.suffix path))
  /\ (forall path,
        extensions = ∅ ->
        path ∈ CountLoc.rglob fs root ->
        fs_is_file fs path = true ->
        CountLoc.has_ignored_part ignore_dirs path = false ->
        path ∈ CountLoc.iter_source_files fs root extensions ignore_dirs).
Proof.
  split; [|split].
  - intros tokens e. unfold CountLoc.normalize_extensions.
    rewrite elem_of_map. unfold CountLoc.dot_prefixed.
    split; intros (t & H1 & H2); by exists t.
  - intros path Hne Hin.
    apply iter_source_files_spec in Hin as [_ Hy].
    apply yielded_spec in Hy as (_ & _ & Hsuf).
    apply suffix_rejected_false in Hsuf as [Hempty|Hmem]; [done|].
    split; [done|].
    exists (Py.lower (Pathlib.suffix path)). split; [done|apply lower_idem].
  - intros path Hempty Hin Hfile Hign.
    apply iter_source_files_spec. split; [done|].
    apply yielded_spec. split; [done|]. split; [done|].
    apply suffix_rejected_false. by left.
Qed.

Lemma yielded_suffix_in_filter_witness :
  (exists e, e ∈ CountLoc.normalize_extensions (CountLoc.parse_csv_set (u "py, .go"))
             /\ Py.lower e = Py.lower (u ".PY"))
  /\ u ".kt" ∈ CountLoc.normalize_extensions Bot.DEFAULT_EXTENSIONS
  /\ Demo.mixed_root ++ [u "notes.md"]
       ∈ CountLoc.iter_source_files Demo.mixed_fs Demo.mixed_root ∅
           Bot.DEFAULT_IGNORE_DIRS.
Proof.
  split; [|split].
  - destruct (yielded_suffix_in_filter Demo.mixed_fs Demo.mixed_root
                (CountLoc.normalize_extensions (CountLoc.parse_csv_set (u "py, .go")))
                Bot.DEFAULT_IGNORE_DIRS) as (_ & Hmem & _).
    assert (Hsuffix : Pathlib.suffix (Demo.mixed_root ++ [u "Main.PY"]) = u ".PY")
      by (vm_compute; reflexivity).
    rewrite <- Hsuffix.
    apply (Hmem (Demo.mixed_root ++ [u "Main.PY"])).
    + intros Hempty.
      assert (Hin : u ".py" ∈ CountLoc.normalize_extensions
                                (CountLoc.parse_csv_set (u "py, .go")))
        by (apply (bool_decide_unpack _); vm_compute; exact I).
      rewrite Hempty in Hin. by apply not_elem_of_empty in Hin.
    + apply iter_source_files_spec. split.
      * vm_compute. left.
      * vm_compute. reflexivity.
  - destruct (yielded_suffix_in_filter Demo.kelvin_fs Demo.kelvin_root
                (CountLoc.normalize_extensions Bot.DEFAULT_EXTENSIONS)
                Bot.DEFAULT_IGNORE_DIRS) as (_ & Hmem & _).
    assert (Hlower : Py.lower (Pathlib.suffix (Demo.kelvin_root ++ [Demo.kelvin_name]))
                     = u ".kt")
      by (vm_compute; reflexivity).
    rewrite <- Hlower.
    apply (Hmem (Demo.kelvin_root ++ [Demo.kelvin_name])).
    + intros Hempty.
      assert (Hin : u ".py" ∈ CountLoc.normalize_extensions Bot.DEFAULT_EXTENSIONS)
        by (apply (bool_decide_unpack _); vm_compute; exact I).
      rewrite Hempty in Hin. by apply not_elem_of_empty in Hin.
    + apply iter_source_files_spec. split.
      * vm_compute. left.
      * vm_compute. reflexivity.
  - destruct (yielded_suffix_in_filter Demo.mixed_fs Demo.mixed_root ∅
                Bot.DEFAULT_IGNORE_DIRS) as (_ & _ & Hall).
    apply Hall.
    + reflexivity.
    + vm_compute. right. left.
    + reflexivity.
    + vm_compute. reflexivity.
Defined.

(** ** The claims about the fetcher *)

Lemma startswith_spec (p s : str) :
  Py.startswith p s = true <-> exists r, s = p ++ r.
Proof.
  revert s. induction p as [|a p IH]; intros s; simpl.
  - split; [by exists s|done].
  - destruct s as [|b s].
    + split; [done|]. by intros (r & Hr).
    + rewrite andb_true_iff, Z.eqb_eq, IH. split.
      * intros (-> & r & ->). by exists r.
      * intros (r & [= -> ->]). split; [done|by exists r].
Qed.

Lemma endswith_spec (p s : str) :
  Py.endswith p s = true <-> exists r, s = r ++ p.
Proof.
  unfold Py.endswith. rewrite startswith_spec. split.
  - intros (r & Hr). exists (rev r).
    apply (f_equal (@rev Z)) in Hr. rewrite rev_involutive, rev_app_distr in Hr.
    by rewrite rev_involutive in Hr.
  - intros (r & ->). exists (rev r). apply rev_app_distr.
Qed.

Lemma removesuffix_spec (p s : str) :
  p <> [] ->
  (forall r, s = r ++ p -> Py.removesuffix p s = r)
  /\ ((forall r, s <> r ++ p) -> Py.removesuffix p s = s).
Proof.
  intros Hp. unfold Py.removesuffix.
  apply truthy_ne in Hp. rewrite Hp. simpl. split.
  - intros r ->. rewrite (proj2 (endswith_spec p (r ++ p))) by by exists r.
    rewrite length_app, Nat.add_sub. by rewrite take_app_length.
  - intros Hno. destruct (Py.endswith p s) eqn:He; [|done].
    apply endswith_spec in He as (r & ->). by destruct (Hno r).
Qed.

Lemma join_nonempty (sep : str) (parts : list str) :
  parts <> [] -> Forall (fun part => part <> []) parts -> Py.join sep parts <> [].
Proof.
  destruct parts as [|p ps]; [done|]. intros _ Hall.
  apply Forall_cons in Hall as [Hp _]. simpl.
  destruct ps; [done|]. by destruct p.
Qed.

Lemma path_parts_nonempty (path : str) :
  Forall (fun part => part <> []) (Fetcher.path_parts path).
Proof.
  unfold Fetcher.path_parts. apply Forall_forall. intros part Hin.
  apply list_elem_of_filter in Hin as [Hin _]. by apply truthy_ne.
Qed.

Lemma parse_parsed_subpath (parsed : Urllib.ParseResult) (ref : Fetcher.RepoRef) :
  Fetcher.parse_parsed parsed = Ok ref ->
  Fetcher.opt_truthy (Fetcher.subpath ref) = bool_decide (is_Some (Fetcher.subpath ref)).
Proof.
  unfold Fetcher.parse_parsed.
  destruct (negb _); [done|].
  pose proof (path_parts_nonempty (Urllib.path parsed)) as Hne.
  destruct (length _ <? 2)%nat; [done|].
  destruct ((4 <=? _)%nat && _); [|by intros [= <-]].
  destruct (4 <? length (Fetcher.path_parts (Urllib.path parsed)))%nat eqn:Hlen;
    [|by intros [= <-]].
  intros [= <-]. simpl. apply Nat.ltb_lt in Hlen.
  change (Py.truthy (Py.join (u "/")
            (drop 4 (Fetcher.path_parts (Urllib.path parsed)))) = true).
  apply truthy_ne, join_nonempty.
  - intros Hnil. apply (f_equal length) in Hnil. rewrite length_drop in Hnil.
    simpl in Hnil. lia.
  - by apply Forall_drop.
Qed.

Lemma split_netloc_raises (check : str -> option str) (url : str) (e : exn) :
  Urllib.split_netloc check url = Raise e -> exists msg, e = ValueError msg.
Proof.
  unfold Urllib.split_netloc.
  destruct (Py.startswith (u "//") url); [|done].
  destruct (Urllib.splitnetloc (drop 2 url)) as [nl rest]. cbv zeta.
  destruct (_ || _); [intros [= <-]; by eexists|].
  destruct (_ && _); [|done].
  destruct (check nl); [intros [= <-]; by eexists|done].
Qed.

Lemma urlparse_raises (check : str -> option str) (url : str) (e : exn) :
  Urllib.urlparse check url = Raise e -> exists msg, e = ValueError msg.
Proof.
  unfold Urllib.urlparse, Urllib.urlsplit.
  destruct (Urllib.split_scheme (Urllib.strip_unsafe url)) as [sch rest].
  destruct (Urllib.split_netloc check rest) as [[nl rest']|e'] eqn:Hnl.
  - cbn [bind].
    destruct (Urllib.cut 35 rest') as [a frag], (Urllib.cut 63 a) as [b qry].
    unfold Urllib.checknetloc. destruct (existsb _ nl); cbn [bind].
    + intros [= <-]. by eexists.
    + by destruct (_ && _); [destruct (Urllib.splitparams b)|].
  - cbn [bind]. intros [= <-]. by apply split_netloc_raises in Hnl.
Qed.

(** C6, as stated, fails: the test is on the whole network location, so
    a port or user information in front of the host is enough for the
    "unsupported host" error although the host is [github.com]. *)
Lemma parses_by_host_fails : ~ Spec.parses_by_host.
Proof.
  intros H.
  destruct (H (fun _ => None) (u "https://github.com:443/acme/widgets")
              {| Urllib.scheme := u "https"; Urllib.netloc := u "github.com:443";
                 Urllib.path := u "/acme/widgets"; Urllib.params := [];
                 Urllib.query := []; Urllib.fragment := [] |}
              (u "acme") (u "widgets") [])
    as (ref & Hparse & _).
  - vm_compute. reflexivity.
  - apply (bool_decide_unpack _). vm_compute. exact I.
  - vm_compute. reflexivity.
  - vm_compute in Hparse. discriminate.
Qed.

(** C6, amended. A URL that the URL parser refuses (one square bracket
    in the network location without the other, a bracketed host that is
    not valid, a character that is not safe under NFKC) fails with the
    parser's [ValueError].  Otherwise, with [host] the whole network
    location of the URL in lower case, user information and port
    included, and [parts] the non-empty segments of its path: a host
    other than [github.com] and [www.github.com] fails with the
    "unsupported host" error; with such a host, fewer than two segments
    fail with "invalid repository URL"; otherwise the owner is the first
    segment, the repo the second with one trailing [.git] removed, the
    branch the fourth segment when the third is [tree], and the subpath
    the remaining segments joined with slashes.  The [/tree/dev/sub/dir]
    example parses to branch [dev] and subpath [sub/dir]; [github.com]
    with a port is an unsupported host. *)
Theorem parse_github_repo_url_cases (check : str -> option str) (url : str) :
  (forall e,
     Urllib.urlparse check url = Raise e ->
     Fetcher.parse_github_repo_url check url = Raise e
     /\ exists msg, e = ValueError msg)
  /\ (forall parsed,
        Urllib.urlparse check url = Ok parsed ->
        let host := Py.lower (Urllib.netloc parsed) in
        let parts := Fetcher.path_parts (Urllib.path parsed) in
        (host ∉ [u "github.com"; u "www.github.com"] ->
         Fetcher.parse_github_repo_url check url
         = Raise (ValueError (u "Supported only github.com repository links.")))
        /\ (host ∈ [u "github.com"; u "www.github.com"] ->
            (length parts < 2)%nat ->
            Fetcher.parse_github_repo_url check url
            = Raise (ValueError (u "Invalid GitHub repository URL.")))
        /\ (host ∈ [u "github.com"; u "www.github.com"] ->
            forall p0 p1 rest, parts = p0 :: p1 :: rest ->
            exists ref,
              Fetcher.parse_github_repo_url check url = Ok ref
              /\ Fetcher.owner ref = p0
              /\ (forall r, p1 = r ++ u ".git" -> Fetcher.repo ref = r)
              /\ ((forall r, p1 <> r ++ u ".git") -> Fetcher.repo ref = p1)
              /\ Fetcher.branch ref
                 = match rest with
                   | p2 :: p3 :: _ =>
                       if bool_decide (p2 = u "tree") then Some p3 else None
                   | _ => None
                   end
              /\ Fetcher.subpath ref
                 = match rest with
                   | p2 :: _ :: s :: more =>
                       if bool_decide (p2 = u "tree")
                       then Some (Py.join (u "/") (s :: more)) else None
                   | _ => None
                   end))
  /\ Fetcher.parse_github_repo_url check
       (u "https://github.com/acme/widgets/tree/dev/sub/dir")
     = Ok {| Fetcher.owner := u "acme"; Fetcher.repo := u "widgets";
             Fetcher.branch := Some (u "dev");
             Fetcher.subpath := Some (u "sub/dir") |}
  /\ Fetcher.parse_github_repo_url check (u "https://github.com:443/acme/widgets")
     = Raise (ValueError (u "Supported only github.com repository links."))
  /\ Fetcher.parse_github_repo_url check (u "https://[github.com/acme/widgets")
     = Raise (ValueError (u "Invalid IPv6 URL")).
Proof.
  split; [|split; [|split; [|split]]].
  - intros e He. unfold Fetcher.parse_github_repo_url. rewrite He.
    split; [done|]. by apply urlparse_raises in He.
  - intros parsed Hparsed host parts.
    unfold Fetcher.parse_github_repo_url. rewrite Hparsed. cbn [bind].
    unfold Fetcher.parse_parsed. fold host. fold parts.
    split; [|split].
    + intros Hhost. by rewrite bool_decide_eq_false_2.
    + intros Hhost Hlen. rewrite bool_decide_eq_true_2 by done. simpl.
      by rewrite (proj2 (Nat.ltb_lt _ _) Hlen).
    + intros Hhost p0 p1 rest Hparts. rewrite bool_decide_eq_true_2 by done.
      rewrite Hparts. simpl.
      assert (Hgit : u ".git" <> []) by done.
      destruct (removesuffix_spec (u ".git") p1 Hgit) as [Hstrip Hkeep].
      destruct rest as [|p2 [|p3 rest]]; simpl.
      * eexists. split; [reflexivity|]. repeat split; simpl; auto.
      * eexists. split; [reflexivity|]. repeat split; simpl; auto.
      * destruct rest as [|s more], (bool_decide (p2 = u "tree")); simpl;
          (eexists; split; [reflexivity|]; repeat split; simpl; auto).
  - vm_compute. reflexivity.
  - vm_compute. reflexivity.
  - vm_compute. reflexivity.
Qed.

Lemma parse_github_repo_url_cases_witness :
  Fetcher.parse_github_repo_url (fun _ => None) (u "https://gitlab.com/acme/widgets")
  = Raise (ValueError (u "Supported only github.com repository links."))
  /\ Fetcher.parse_github_repo_url (fun _ => None) (u "https://github.com/acme")
     = Raise (ValueError (u "Invalid GitHub repository URL."))
  /\ (exists ref,
       Fetcher.parse_github_repo_url (fun _ => None)
         (u "https://www.github.com/acme/widgets.git")
       = Ok ref
       /\ Fetcher.owner ref = u "acme" /\ Fetcher.repo ref = u "widgets"
       /\ Fetcher.branch ref = None /\ Fetcher.subpath ref = None)
  /\ Fetcher.parse_github_repo_url (fun _ => Some (u "not an address"))
       (u "https://[github.com]/acme/widgets")
     = Raise (ValueError (u "not an address")).
Proof.
  split; [|split; [|split]].
  - pose proof (parse_github_repo_url_cases (fun _ => None)
                  (u "https://gitlab.com/acme/widgets")) as (_ & Hok & _).
    destruct (Hok {| Urllib.scheme := u "https"; Urllib.netloc := u "gitlab.com";
                     Urllib.path := u "/acme/widgets"; Urllib.params := [];
                     Urllib.query := []; Urllib.fragment := [] |}
                ltac:(vm_compute; reflexivity)) as (Hhost & _).
    apply Hhost. apply (bool_decide_unpack _). vm_compute. exact I.
  - pose proof (parse_github_repo_url_cases (fun _ => None)
                  (u "https://github.com/acme")) as (_ & Hok & _).
    destruct (Hok {| Urllib.scheme := u "https"; Urllib.netloc := u "github.com";
                     Urllib.path := u "/acme"; Urllib.params := [];
                     Urllib.query := []; Urllib.fragment := [] |}
                ltac:(vm_compute; reflexivity)) as (_ & Hshort & _).
    apply Hshort.
    + apply (bool_decide_unpack _). vm_compute. exact I.
    + vm_compute. lia.
  - pose proof (parse_github_repo_url_cases (fun _ => None)
                  (u "https://www.github.com/acme/widgets.git")) as (_ & Hok & _).
    destruct (Hok {| Urllib.scheme := u "https"; Urllib.netloc := u "www.github.com";
                     Urllib.path := u "/acme/widgets.git"; Urllib.params := [];
                     Urllib.query := []; Urllib.fragment := [] |}
                ltac:(vm_compute; reflexivity)) as (_ & _ & Hparts).
    destruct (Hparts ltac:(apply (bool_decide_unpack _); vm_compute; exact I)
                (u "acme") (u "widgets.git") [] ltac:(vm_compute; reflexivity))
      as (ref & Hparse & Howner & Hrepo & _ & Hbranch & Hsub).
    exists ref. split; [exact Hparse|]. split; [exact Howner|].
    split; [|split; [exact Hbranch|exact Hsub]].
    apply (Hrepo (u "widgets")). vm_compute. reflexivity.
  - pose proof (parse_github_repo_url_cases (fun _ => Some (u "not an address"))
                  (u "https://[github.com]/acme/widgets")) as (Hraise & _).
    apply Hraise. vm_compute. reflexivity.
Defined.

Lemma parse_github_repo_url_subpath (check : str -> option str) (url : str)
    (ref : Fetcher.RepoRef) :
  Fetcher.parse_github_repo_url check url = Ok ref ->
  Fetcher.opt_truthy (Fetcher.subpath ref) = bool_decide (is_Some (Fetcher.subpath ref)).
Proof.
  unfold Fetcher.parse_github_repo_url.
  destruct (Urllib.urlparse check url) as [parsed|e]; [|done].
  apply parse_parsed_subpath.
Qed.

(** C7. Once the URL has parsed and the archive has been fetched and
    extracted, the effective root is the one subdirectory of the scratch
    directory [extracted] when there is exactly one, and that directory
    itself otherwise; without a subpath this root is returned; with a
    subpath the result is the root joined with the subpath's segments,
    or, when that path does not exist, the "path not found" error that
    names the subpath. *)
Theorem download_root_resolution
    (check : str -> option str) (quote : str -> str)
    (fetch_and_extract : str -> Path -> result FileSystem)
    (url : str) (temp_dir : Path) (ref : Fetcher.RepoRef) (fs : FileSystem) :
  Fetcher.parse_github_repo_url check url = Ok ref ->
  fetch_and_extract (Fetcher.archive_url quote ref) temp_dir = Ok fs ->
  let extract_dir := temp_dir ++ [u "extracted"] in
  let subdirs :=
    filter (fun p => fs_is_dir fs p = true)
      (map (fun n => extract_dir ++ [n]) (fs_iterdir fs extract_dir)) in
  let root := match subdirs with [d] => d | _ => extract_dir end in
  match Fetcher.subpath ref with
  | None =>
      Fetcher.download_and_extract_repo check quote fetch_and_extract url temp_dir
      = Ok (fs, root)
  | Some sp =>
      let target := Fetcher.joinpath root (Py.split 47 sp) in
      (fs_exists fs target = true ->
       Fetcher.download_and_extract_repo check quote fetch_and_extract url temp_dir
       = Ok (fs, target))
      /\ (fs_exists fs target = false ->
          Fetcher.download_and_extract_repo check quote fetch_and_extract url temp_dir
          = Raise (ValueError (u "Path not found in repository: " ++ sp)))
  end.
Proof.
  intros Hparse Hfetch extract_dir subdirs root.
  unfold Fetcher.download_and_extract_repo. rewrite Hparse. simpl.
  rewrite Hfetch. simpl. unfold Fetcher.resolve_root.
  fold extract_dir. fold subdirs.
  rewrite (parse_github_repo_url_subpath _ _ _ Hparse).
  assert (Hroot : (if bool_decide (length subdirs = 1%nat)
                   then default extract_dir (head subdirs) else extract_dir) = root).
  { unfold root. by destruct subdirs as [|d [|d' rest]]. }
  rewrite Hroot.
  destruct (Fetcher.subpath ref) as [sp|]; simpl; [|done].
  split; intros Hex; by rewrite Hex.
Qed.

Lemma download_root_resolution_witness :
  Fetcher.download_and_extract_repo (fun _ => None) (fun b => b)
    (fun _ _ => Ok Demo.extracted_fs)
    (u "https://github.com/acme/widgets/tree/dev/sub/dir") Demo.scratch
  = Ok (Demo.extracted_fs,
        Demo.scratch ++ [u "extracted"; u "widgets-dev"; u "sub"; u "dir"]).
Proof.
  pose proof (download_root_resolution (fun _ => None) (fun b => b)
                (fun _ _ => Ok Demo.extracted_fs)
                (u "https://github.com/acme/widgets/tree/dev/sub/dir") Demo.scratch
                {| Fetcher.owner := u "acme"; Fetcher.repo := u "widgets";
                   Fetcher.branch := Some (u "dev");
                   Fetcher.subpath := Some (u "sub/dir") |}
                Demo.extracted_fs ltac:(vm_compute; reflexivity) eq_refl) as H.
  cbv zeta in H. cbn [Fetcher.subpath] in H. destruct H as [Hfound _].
  rewrite Hfound; [|vm_compute; reflexivity].
  reflexivity.
Defined.

(** ** The claim about the report *)

Lemma slice_to_nonneg {A} (top : Z) (l : list A) :
  0 <= top ->
  Py.slice_to top l = take (Z.to_nat (Z.min top (Z.of_nat (length l)))) l.
Proof.
  intros Htop. unfold Py.slice_to.
  destruct (Z.ltb_spec top 0) as [?|_]; [lia|].
  destruct (Z.le_gt_cases top (Z.of_nat (length l))) as [Hle|Hgt].
  - by rewrite Z.min_l.
  - rewrite Z.min_r by lia. rewrite Nat2Z.id, firstn_all.
    apply take_ge. lia.
Qed.

Lemma slice_to_length {A} (top : Z) (l : list A) :
  0 <= top ->
  Z.of_nat (length (Py.slice_to top l)) = Z.min top (Z.of_nat (length l)).
Proof.
  intros Htop. rewrite slice_to_nonneg by done. rewrite length_take. lia.
Qed.

Lemma rjust_spec (w : nat) (s : str) :
  exists pad, Py.rjust w s = replicate pad 32 ++ s
              /\ (pad + length s)%nat = Nat.max w (length s).
Proof. exists (w - length s)%nat. split; [done|lia]. Qed.

(** C8, as stated, fails for a negative top-N: [--top -1] announces
    "Top -1" and lists all files but the last. *)
Lemma listing_has_min_lines_fails : ~ Spec.listing_has_min_lines.
Proof.
  intros H.
  destruct (H (u "U") [(120, [u "x.go"]); (80, [u "y.go"])] 200 (-1)) as [_ Hcli].
  vm_compute in Hcli. discriminate.
Qed.

(** C8, amended. For every result and every requested top-N that is
    not negative, with [K = min(N, len(files))]: the header line of the
    listing announces K, the listing holds exactly K lines, one for each
    of the first K entries in order, and each line is the line count
    right-aligned with spaces in a field of at least 8 characters, two
    spaces, and the relative path.  This holds for the report that
    [_render_result] builds and for the one [main] prints. *)
Theorem listing_shows_top_entries
    (url : str) (per_file : list (Z * Path)) (total top : Z) :
  0 <= top ->
  let K := Z.min top (Z.of_nat (length per_file)) in
  Render._render_lines url per_file total top !! 4%nat
  = Some (u "Топ " ++ Py.str_of_int K ++ u " файлів:")
  /\ Spec.rendered_listing url per_file total top
     = map Render.listing_line (take (Z.to_nat K) per_file)
  /\ Z.of_nat (length (Spec.rendered_listing url per_file total top)) = K
  /\ Render.print_report per_file total top !! 3%nat
     = Some (u "Top " ++ Py.str_of_int K ++ u " files:")
  /\ Spec.printed_listing per_file total top
     = map Render.listing_line (take (Z.to_nat K) per_file)
  /\ Z.of_nat (length (Spec.printed_listing per_file total top)) = K
  /\ forall entry,
       exists pad,
         Render.listing_line entry
         = replicate pad 32 ++ Py.str_of_int entry.1 ++ u "  "
           ++ Pathlib.to_str entry.2
         /\ (pad + length (Py.str_of_int entry.1))%nat
            = Nat.max 8 (length (Py.str_of_int entry.1)).
Proof.
  intros Htop K.
  assert (Hlist : Spec.rendered_listing url per_file total top
                  = map Render.listing_line (take (Z.to_nat K) per_file)).
  { unfold Spec.rendered_listing, Render._render_lines. simpl.
    by rewrite slice_to_nonneg. }
  assert (Hcli : Spec.printed_listing per_file total top
                 = map Render.listing_line (take (Z.to_nat K) per_file)).
  { unfold Spec.printed_listing, Render.print_report. simpl.
    by rewrite slice_to_nonneg. }
  assert (Hlen : Z.of_nat (length (map Render.listing_line
                                     (take (Z.to_nat K) per_file))) = K).
  { rewrite length_map, length_take. unfold K. lia. }
  split; [reflexivity|]. split; [done|]. split; [by rewrite Hlist|].
  split; [reflexivity|]. split; [done|]. split; [by rewrite Hcli|].
  intros entry. unfold Render.listing_line.
  destruct (rjust_spec 8 (Py.str_of_int entry.1)) as (pad & Hpad & Hw).
  exists pad. split; [|done]. by rewrite Hpad, <- app_assoc.
Qed.

Lemma listing_shows_top_entries_witness :
  Spec.rendered_listing (u "https://github.com/acme/widgets")
    [(120, [u "x.go"]); (80, [u "y.go"])] 200 1
  = [u "     120  x.go"].
Proof.
  destruct (listing_shows_top_entries (u "https://github.com/acme/widgets")
              [(120, [u "x.go"]); (80, [u "y.go"])] 200 1 ltac:(lia))
    as (_ & Hlist & _).
  rewrite Hlist. vm_compute. reflexivity.
Defined.

(** ** The claims about the chat front end *)

Section BotClaims.

Variable check : str -> option str.
Variable quote : str -> str.
Variable fetch_and_extract : str -> Path -> result FileSystem.
Variable tmp : Path.
Variable int_of_str : str -> result Z.

Lemma handle_message_top_button (label : str) (n : Z) (confirm : str)
    (ud : gmap string Bot.value) (tg : list (option exn)) :
  Py.strip label = label -> label <> [] ->
  Bot.handle_button_text true label
  = Bot.hbind (Bot._set_user_top n)
      (fun _ => Bot.hbind (Bot.reply_text true confirm) (fun _ => Bot.ret true)) ->
  Bot.handle_message check quote fetch_and_extract tmp int_of_str (Some (Some label))
    (ud, tg)
  = (match tg with Some e :: _ => Raise e | _ => Ok tt end,
     (<["top" := Bot.VInt n]> ud, tail tg),
     [Bot.Reply confirm false Bot.NoMarkup]).
Proof.
  intros Hstrip Hne Hbtn. unfold Bot.handle_message.
  cbv iota. change (default [] (Some label)) with label.
  rewrite Hstrip. apply truthy_ne in Hne. rewrite Hne. simpl negb. cbv iota.
  rewrite Hbtn. by destruct tg as [|[e|] tg].
Qed.

End BotClaims.

(** C9. A message that is the Top-10 (Top-20) keyboard label sets
    [top] to 10 (20) in the session's [user_data] and sends one
    confirmation: every other key, [last_url] among them, keeps its
    value, and no counting pipeline is run.  The handler returns
    normally, unless sending the confirmation raises. *)
Theorem top_buttons_set_preference_only
    (check : str -> option str) (quote : str -> str)
    (fetch_and_extract : str -> Path -> result FileSystem)
    (tmp : Path) (int_of_str : str -> result Z) (ud : gmap string Bot.value)
    (tg : list (option exn)) :
  let press label :=
    Bot.handle_message check quote fetch_and_extract tmp int_of_str (Some (Some label))
      (ud, tg) in
  let outcome := match tg with Some e :: _ => Raise e | _ => Ok tt end in
  exists ud10 ud20 ev10 ev20,
    press Bot.BTN_TOP_10 = (outcome, (ud10, tail tg), ev10)
    /\ press Bot.BTN_TOP_20 = (outcome, (ud20, tail tg), ev20)
    /\ ud10 = <["top" := Bot.VInt 10]> ud
    /\ ud20 = <["top" := Bot.VInt 20]> ud
    /\ ud10 !! "last_url" = ud !! "last_url"
    /\ ud20 !! "last_url" = ud !! "last_url"
    /\ (forall k, k <> "top" -> ud10 !! k = ud !! k /\ ud20 !! k = ud !! k)
    /\ (forall url top, (Bot.RunCount url top ∉ ev10) /\ (Bot.RunCount url top ∉ ev20))
    /\ length ev10 = 1%nat /\ length ev20 = 1%nat.
Proof.
  intros press outcome. unfold press, outcome.
  eexists _, _, _, _.
  split; [apply handle_message_top_button; [by vm_compute|done|reflexivity]|].
  split; [apply handle_message_top_button; [by vm_compute|done|reflexivity]|].
  split; [reflexivity|]. split; [reflexivity|].
  split; [by rewrite lookup_insert_ne|]. split; [by rewrite lookup_insert_ne|].
  split; [|split; [|done]].
  - intros k Hk. by rewrite !lookup_insert_ne.
  - intros url top. split; intros Hin; apply list_elem_of_singleton in Hin; done.
Qed.

Lemma top_buttons_set_preference_only_witness :
  exists ud10 ev10,
    Bot.handle_message (fun _ => None) (fun b => b) (fun _ _ => Raise (URLError []))
      Demo.scratch (fun _ => Raise (ValueError [])) (Some (Some Bot.BTN_TOP_10))
      (Demo.session, [])
    = (Ok tt, (ud10, []), ev10)
    /\ ud10 !! "top" = Some (Bot.VInt 10)
    /\ ud10 !! "last_url" = Some (Bot.VStr (u "https://github.com/acme/widgets")).
Proof.
  destruct (top_buttons_set_preference_only (fun _ => None) (fun b => b)
              (fun _ _ => Raise (URLError [])) Demo.scratch
              (fun _ => Raise (ValueError [])) Demo.session [])
    as (ud10 & ud20 & ev10 & ev20 & Hrun & _ & Hud & _ & Hurl & _).
  exists ud10, ev10. split; [exact Hrun|]. split.
  - rewrite Hud. apply lookup_insert_eq.
  - rewrite Hurl. reflexivity.
Defined.

Lemma nonspace_run_take (s : str) :
  take (length (Spec.nonspace_run s)) s = Spec.nonspace_run s.
Proof.
  induction s as [|c s IH]; simpl; [done|].
  destruct (Py.isspace c); simpl; [done|]. by rewrite IH.
Qed.

(** The greedy [[^\s]+] at the end of a pattern takes the whole run. *)
Lemma match_nonspace_plus (s : str) :
  Re.match_items [Re.OneOrMore Re.NotSpace] s
  = match s with
    | c :: _ => if Py.isspace c then None else Some (length (Spec.nonspace_run s))
    | [] => None
    end.
Proof.
  induction s as [|c s IH]; [done|].
  change (Re.match_items [Re.OneOrMore Re.NotSpace] (c :: s))
    with (if negb (Py.isspace c)
          then match Re.match_items [Re.OneOrMore Re.NotSpace] s with
               | Some n => Some (S n)
               | None => Some 1%nat
               end
          else None).
  rewrite IH. cbn [Spec.nonspace_run].
  destruct (Py.isspace c) eqn:Hc; cbn [negb]; [done|].
  destruct s as [|d s]; [done|].
  cbn [Spec.nonspace_run]. by destruct (Py.isspace d).
Qed.

Lemma ignorecase_s_not_colon (c : Z) :
  Re.ignorecase_eq 115 c = true -> Re.ignorecase_eq 58 c = false.
Proof.
  unfold Re.ignorecase_eq. cbn [Z.eqb andb orb]. rewrite !orb_false_r.
  intros [H|H]%orb_true_iff.
  - apply Z.eqb_eq in H. rewrite H. reflexivity.
  - apply Z.eqb_eq in H. subst c. vm_compute. reflexivity.
Qed.

Lemma ignorecase_colon_not_s (c : Z) :
  Re.ignorecase_eq 58 c = true -> Re.ignorecase_eq 115 c = false.
Proof.
  unfold Re.ignorecase_eq. cbn [Z.eqb andb orb]. rewrite !orb_false_r.
  intros H. apply Z.eqb_eq in H. rewrite H. cbn [Z.eqb orb].
  destruct (Z.eqb_spec c 383) as [->|]; [|done]. vm_compute in H. discriminate.
Qed.

Lemma ignorecase_nonspace (l c : Z) :
  Re.ignorecase_eq l c = true -> Py.isspace l = false -> Py.isspace c = false.
Proof.
  unfold Re.ignorecase_eq. intros H Hl.
  destruct (Py.isspace c) eqn:Hc; [|done].
  rewrite (isspace_lower_char c Hc) in H.
  apply orb_true_iff in H as [H|H]; [apply orb_true_iff in H as [H|H]|].
  - apply Z.eqb_eq in H. congruence.
  - apply andb_true_iff in H as [_ H]. apply Z.eqb_eq in H. subst c. done.
  - apply andb_true_iff in H as [_ H]. apply Z.eqb_eq in H. subst c. done.
Qed.

Lemma match_literal (lit : str) (p : list Re.item) (s : str) :
  Re.match_items (Re.literal lit ++ p) s
  = if Spec.ci_startswith lit s
    then (fun n => (length lit + n)%nat) <$> Re.match_items p (drop (length lit) s)
    else None.
Proof.
  revert s. induction lit as [|l lit IH]; intros s.
  - cbn. rewrite drop_0. by destruct (Re.match_items p s).
  - destruct s as [|c s]; [done|].
    change (Re.match_items (Re.literal (l :: lit) ++ p) (c :: s))
      with (if Re.ignorecase_eq l c
            then S <$> Re.match_items (Re.literal lit ++ p) s else None).
    cbn [Spec.ci_startswith length drop].
    destruct (Re.ignorecase_eq l c); [|done]. rewrite IH. cbn [andb].
    destruct (Spec.ci_startswith lit s); [|done].
    by destruct (Re.match_items p (drop (length lit) s)).
Qed.

Lemma ci_startswith_app (l1 l2 s : str) :
  Spec.ci_startswith (l1 ++ l2) s
  = Spec.ci_startswith l1 s && Spec.ci_startswith l2 (drop (length l1) s).
Proof.
  revert s. induction l1 as [|l l1 IH]; intros s; [done|].
  destruct s as [|c s]; cbn [app Spec.ci_startswith length drop].
  - by destruct l2.
  - rewrite IH. by destruct (Re.ignorecase_eq l c).
Qed.

Lemma ci_startswith_run (lit s : str) :
  Forall (fun l => Py.isspace l = false) lit ->
  Spec.ci_startswith lit s = true ->
  length (Spec.nonspace_run s)
  = (length lit + length (Spec.nonspace_run (drop (length lit) s)))%nat.
Proof.
  intros Hlit. revert s. induction Hlit as [|l lit Hl _ IH]; intros s Hs; [done|].
  destruct s as [|c s]; [done|]. cbn [Spec.ci_startswith] in Hs.
  apply andb_true_iff in Hs as [Hc Hs].
  cbn [Spec.nonspace_run length drop].
  rewrite (ignorecase_nonspace l c Hc Hl). cbn [length]. by rewrite (IH s Hs).
Qed.

Lemma ci_colon_after_s (c : Z) (t : str) :
  Re.ignorecase_eq 115 c = true -> Spec.ci_startswith (u "://") (c :: t) = false.
Proof.
  intros Hs. change (u "://") with (58 :: u "//"). cbn [Spec.ci_startswith].
  by rewrite (ignorecase_s_not_colon c Hs).
Qed.

(** The optional [s]: when the next character is an [s] the rest of the
    pattern cannot start there, so backtracking never succeeds. *)
Lemma match_optional_s (q : list Re.item) (t : str) :
  Re.match_items (Re.Optional (Re.Chr 115) :: Re.literal (u "://") ++ q) t
  = match t with
    | c :: t' =>
        if Re.ignorecase_eq 115 c
        then S <$> Re.match_items (Re.literal (u "://") ++ q) t'
        else Re.match_items (Re.literal (u "://") ++ q) t
    | [] => None
    end.
Proof.
  destruct t as [|c t'].
  - change (Re.match_items (Re.Optional (Re.Chr 115) :: Re.literal (u "://") ++ q) [])
      with (Re.match_items (Re.literal (u "://") ++ q) []).
    by rewrite match_literal.
  - change (Re.match_items (Re.Optional (Re.Chr 115) :: Re.literal (u "://") ++ q)
              (c :: t'))
      with (if Re.ignorecase_eq 115 c
            then match Re.match_items (Re.literal (u "://") ++ q) t' with
                 | Some n => Some (S n)
                 | None => Re.match_items (Re.literal (u "://") ++ q) (c :: t')
                 end
            else Re.match_items (Re.literal (u "://") ++ q) (c :: t')).
    destruct (Re.ignorecase_eq 115 c) eqn:Hs; [|done].
    destruct (Re.match_items (Re.literal (u "://") ++ q) t'); [done|].
    by rewrite match_literal, ci_colon_after_s.
Qed.

(** After [://], the pattern ends with the greedy run. *)
Lemma match_slashes_run (t : str) :
  Re.match_items (Re.literal (u "://") ++ [Re.OneOrMore Re.NotSpace]) t
  = if Spec.scheme_then_char (u "://") t
    then Some (length (Spec.nonspace_run t)) else None.
Proof.
  rewrite match_literal, match_nonspace_plus. unfold Spec.scheme_then_char.
  destruct (Spec.ci_startswith (u "://") t) eqn:Hs; [|done]. cbn [andb].
  rewrite (ci_startswith_run (u "://") t ltac:(by repeat constructor) Hs).
  destruct (drop (length (u "://")) t) as [|d r]; [done|].
  by destruct (Py.isspace d).
Qed.

Lemma match_URL_RE (s : str) :
  Re.match_items Bot.URL_RE s
  = if Spec.link_here s then Some (length (Spec.nonspace_run s)) else None.
Proof.
  unfold Bot.URL_RE, Spec.link_here. rewrite match_literal, match_optional_s.
  assert (Hsplit : forall rest,
            Spec.scheme_then_char (u "http" ++ rest) s
            = Spec.ci_startswith (u "http") s
              && Spec.scheme_then_char rest (drop (length (u "http")) s)).
  { intros rest. unfold Spec.scheme_then_char.
    by rewrite ci_startswith_app, length_app, <- drop_drop, andb_assoc. }
  change (u "http://") with (u "http" ++ u "://").
  change (u "https://") with (u "http" ++ 115 :: u "://").
  rewrite !Hsplit.
  destruct (Spec.ci_startswith (u "http") s) eqn:Hhttp; [|done]. cbn [andb].
  rewrite (ci_startswith_run (u "http") s ltac:(by repeat constructor) Hhttp).
  destruct (drop (length (u "http")) s) as [|c t']; [done|].
  assert (Hs : Spec.scheme_then_char (115 :: u "://") (c :: t')
               = Re.ignorecase_eq 115 c && Spec.scheme_then_char (u "://") t').
  { unfold Spec.scheme_then_char. cbn [Spec.ci_startswith length drop].
    by rewrite andb_assoc. }
  rewrite Hs, !match_slashes_run.
  destruct (Re.ignorecase_eq 115 c) eqn:Hc; cbn [andb].
  - assert (Hno : Spec.scheme_then_char (u "://") (c :: t') = false).
    { unfold Spec.scheme_then_char. by rewrite ci_colon_after_s. }
    rewrite Hno. cbn [orb Spec.nonspace_run].
    rewrite (ignorecase_nonspace 115 c Hc eq_refl).
    by destruct (Spec.scheme_then_char (u "://") t').
  - rewrite orb_false_r.
    by destruct (Spec.scheme_then_char (u "://") (c :: t')).
Qed.

Lemma extract_url_first_proper_link (text : str) :
  Bot._extract_url text = Spec.first_proper_link text.
Proof.
  unfold Bot._extract_url.
  induction text as [|c text IH].
  - reflexivity.
  - cbn [Re.search Spec.first_proper_link]. rewrite match_URL_RE.
    destruct (Spec.link_here (c :: text)); [|exact IH].
    by rewrite nonspace_run_take.
Qed.

Lemma nonspace_run_split (s : str) :
  exists after,
    s = Spec.nonspace_run s ++ after
    /\ Forall (fun c => Py.isspace c = false) (Spec.nonspace_run s)
    /\ match after with c :: _ => Py.isspace c = true | [] => True end.
Proof.
  induction s as [|c s (after & Hs & Hrun & Hafter)]; [by exists []|].
  cbn [Spec.nonspace_run]. destruct (Py.isspace c) eqn:Hc.
  - by exists (c :: s).
  - exists after. split; [by rewrite <- app_comm_cons, <- Hs|].
    split; [by constructor|done].
Qed.

Lemma first_proper_link_Some (text url : str) :
  Spec.first_proper_link text = Some url ->
  exists before after,
    text = before ++ url ++ after
    /\ Forall (fun c => Py.isspace c = false) url
    /\ match after with c :: _ => Py.isspace c = true | [] => True end
    /\ Spec.link_here (url ++ after) = true
    /\ forall i, (i < length before)%nat -> Spec.link_here (drop i text) = false.
Proof.
  induction text as [|c text IH].
  - cbn [Spec.first_proper_link]. by change (Spec.link_here []) with false.
  - cbn [Spec.first_proper_link].
    destruct (Spec.link_here (c :: text)) eqn:Hlink.
    + intros [= <-].
      destruct (nonspace_run_split (c :: text)) as (after & Hs & Hrun & Hafter).
      exists [], after. split; [done|]. split; [done|]. split; [done|].
      split; [|intros i Hi; simpl in Hi; lia].
      change (Spec.link_here (Spec.nonspace_run (c :: text) ++ after) = true).
      by rewrite <- Hs.
    + intros Hrec.
      destruct (IH Hrec) as (before & after & -> & Hrun & Hafter & Hhere & Hfirst).
      exists (c :: before), after. split; [done|]. split; [done|].
      split; [done|]. split; [done|].
      intros [|i] Hi; [done|]. apply Hfirst. simpl in Hi. lia.
Qed.

Lemma first_proper_link_None (text : str) :
  Spec.first_proper_link text = None ->
  forall i, Spec.link_here (drop i text) = false.
Proof.
  induction text as [|c text IH]; intros Hnone i.
  - by rewrite drop_nil.
  - cbn [Spec.first_proper_link] in Hnone.
    destruct (Spec.link_here (c :: text)) eqn:Hlink; [done|].
    destruct i as [|i]; [done|]. by apply IH.
Qed.

(** C10, as stated, fails: a bare [http://] is a whitespace-free
    substring that starts with the scheme, and the extractor does not
    return it; it goes on to a later link or returns [None]. *)
Lemma extract_url_bare_scheme :
  Bot._extract_url (u "http://") = None
  /\ Spec.first_link (u "http://") = Some (u "http://")
  /\ Bot._extract_url (u "http:// https://github.com/a/b")
     = Some (u "https://github.com/a/b")
  /\ Spec.first_link (u "http:// https://github.com/a/b") = Some (u "http://").
Proof. vm_compute. auto. Qed.

(** C10, amended. The extractor returns the maximal whitespace-free
    substring at the first position where the text reads [http://] or
    [https://] (in any letter case) followed by at least one character
    that is not whitespace, and [None] when there is no such position;
    punctuation attached to the link is part of what is returned. *)
Theorem extract_url_first_link (text : str) :
  Bot._extract_url text = Spec.first_proper_link text
  /\ (forall url,
        Bot._extract_url text = Some url ->
        exists before after,
          text = before ++ url ++ after
          /\ Forall (fun c => Py.isspace c = false) url
          /\ match after with c :: _ => Py.isspace c = true | [] => True end
          /\ Spec.link_here (url ++ after) = true
          /\ forall i, (i < length before)%nat ->
                       Spec.link_here (drop i text) = false)
  /\ (Bot._extract_url text = None ->
      forall i, Spec.link_here (drop i text) = false)
  /\ Bot._extract_url (u "see (https://github.com/a/b). ok")
     = Some (u "https://github.com/a/b).").
Proof.
  split; [apply extract_url_first_proper_link|]. split; [|split].
  - intros url Hurl. apply first_proper_link_Some.
    by rewrite <- extract_url_first_proper_link.
  - intros Hnone. apply first_proper_link_None.
    by rewrite <- extract_url_first_proper_link.
  - vm_compute. reflexivity.
Qed.

Lemma extract_url_first_link_witness :
  exists before after,
    u "Look: HTTPS://GitHub.com/a/b, thanks"
    = before ++ u "HTTPS://GitHub.com/a/b," ++ after
    /\ Forall (fun c => Py.isspace c = false) (u "HTTPS://GitHub.com/a/b,")
    /\ match after with c :: _ => Py.isspace c = true | [] => True end.
Proof.
  destruct (extract_url_first_link (u "Look: HTTPS://GitHub.com/a/b, thanks"))
    as (_ & Hsome & _).
  destruct (Hsome (u "HTTPS://GitHub.com/a/b,") ltac:(vm_compute; reflexivity))
    as (before & after & Htext & Hrun & Hafter & _).
  by exists before, after.
Defined.

(** ** The scenarios of the specification *)

Example end_to_end_small :
  CountLoc.count_project Demo.small_fs Demo.small_root
    (CountLoc.normalize_extensions Bot.DEFAULT_EXTENSIONS) Bot.DEFAULT_IGNORE_DIRS
  = Ok ([(2, [u "a.py"])], 2).
Proof. vm_compute. reflexivity. Qed.

Example parse_plain_repository (check : str -> option str) :
  Fetcher.parse_github_repo_url check (u "https://github.com/acme/widgets")
  = Ok {| Fetcher.owner := u "acme"; Fetcher.repo := u "widgets";
          Fetcher.branch := None; Fetcher.subpath := None |}.
Proof. vm_compute. reflexivity. Qed.

Example render_top_one :
  Render._render_result (u "https://github.com/acme/widgets")
    [(120, [u "x.go"]); (80, [u "y.go"])] 200 1
  = u "Репозиторій: https://github.com/acme/widgets" ++ [10]
    ++ u "Файлів пораховано: 2" ++ [10]
    ++ u "Загалом non-empty рядків: 200" ++ [10] ++ [10]
    ++ u "Топ 1 файлів:" ++ [10]
    ++ u "     120  x.go".
Proof. vm_compute. reflexivity. Qed.

Example refresh_runs_the_count :
  (Bot.handle_callback (fun _ => None) (fun b => b)
     (fun _ _ => Raise (URLError (u "offline")))
     Demo.scratch true (u "refresh_top_10") (Demo.session, [])).2
  = [ Bot.Answer;
      Bot.Reply (u "Оновлюю результат з налаштуванням: Топ 10.") false Bot.NoMarkup;
      Bot.Reply (u "Рахую рядки коду, зачекай...") false Bot.NoMarkup;
      Bot.RunCount (u "https://github.com/acme/widgets") 10;
      Bot.Reply (u "Не вдалося завантажити репозиторій: offline") false
        Bot.NoMarkup ].
Proof. vm_compute. reflexivity. Qed.

(** The reply that carries the result is sent inside the [try] block:
    when it raises, the last clause answers with the "unknown error"
    text. *)
Example result_reply_fails :
  Bot._run_count (fun _ => None) (fun b => b) (fun _ _ => Ok Demo.extracted_fs)
    Demo.scratch true (u "https://github.com/acme/widgets/tree/dev/sub/dir") 10
    (∅, [None; Some (OtherError (u "Timed out"))])
  = (Ok tt,
     ({[ "last_url" := Bot.VStr (u "https://github.com/acme/widgets/tree/dev/sub/dir") ]},
      []),
     [ Bot.Reply (u "Рахую рядки коду, зачекай...") false Bot.NoMarkup;
       Bot.RunCount (u "https://github.com/acme/widgets/tree/dev/sub/dir") 10;
       Bot.Reply
         (Render._render_result_html
            (u "https://github.com/acme/widgets/tree/dev/sub/dir")
            [] 0 10)
         true Bot.InlineResultButtons;
       Bot.Reply (u "Невідома помилка: Timed out") false Bot.NoMarkup ]).
Proof. vm_compute. reflexivity. Qed.

(** * Further properties *)

(** ** Splitting, joining and trimming *)

Lemma split_from_no_sep (sep : Z) (p cur rest : str) :
  sep ∉ p ->
  Py.split_from sep cur (p ++ rest) = Py.split_from sep (rev p ++ cur) rest.
Proof.
  revert cur. induction p as [|c p IH]; intros cur Hp; [done|].
  apply not_elem_of_cons in Hp as [Hc Hp]. simpl.
  destruct (Z.eqb_spec c sep) as [->|_]; [done|].
  rewrite IH by done. by rewrite <- app_assoc.
Qed.

Lemma split_from_join (sep : Z) (cur p : str) (ps : list str) :
  Forall (fun part => sep ∉ part) (p :: ps) ->
  Py.split_from sep cur (Py.join [sep] (p :: ps)) = (rev cur ++ p) :: ps.
Proof.
  revert cur p. induction ps as [|q ps IH]; intros cur p Hall.
  - apply Forall_cons in Hall as [Hp _]. cbn [Py.join].
    transitivity (Py.split_from sep cur (p ++ [])); [by rewrite app_nil_r|].
    rewrite split_from_no_sep by done. cbn [Py.split_from].
    by rewrite rev_app_distr, rev_involutive.
  - apply Forall_cons in Hall as [Hp Hall].
    change (Py.join [sep] (p :: q :: ps)) with (p ++ [sep] ++ Py.join [sep] (q :: ps)).
    rewrite split_from_no_sep by done.
    change ([sep] ++ Py.join [sep] (q :: ps)) with (sep :: Py.join [sep] (q :: ps)).
    cbn [Py.split_from]. rewrite Z.eqb_refl, (IH [] q Hall).
    by rewrite rev_app_distr, rev_involutive.
Qed.

(** Splitting undoes joining, as long as no part holds the separator
    and there is a part to begin with. *)
Lemma split_join (sep : Z) (parts : list str) :
  parts <> [] -> Forall (fun part => sep ∉ part) parts ->
  Py.split sep (Py.join [sep] parts) = parts.
Proof.
  destruct parts as [|p ps]; [done|]. intros _ Hall.
  unfold Py.split. by rewrite split_from_join.
Qed.

Lemma split_from_parts_no_sep (sep : Z) (s cur : str) :
  sep ∉ cur -> Forall (fun part => sep ∉ part) (Py.split_from sep cur s).
Proof.
  revert cur. induction s as [|c s IH]; intros cur Hcur; simpl.
  - constructor; [|done]. intros Hin. apply Hcur.
    apply list_elem_of_In. apply in_rev. by apply list_elem_of_In.
  - destruct (Z.eqb_spec c sep) as [->|Hc].
    + constructor; [|apply IH; by apply not_elem_of_nil].
      intros Hin. apply Hcur.
      apply list_elem_of_In. apply in_rev. by apply list_elem_of_In.
    + apply IH. by apply not_elem_of_cons.
Qed.

Lemma lstrip_with_suffix (p : Z -> bool) (s : str) :
  exists w, s = w ++ Py.lstrip_with p s /\ Forall (fun c => p c = true) w.
Proof.
  induction s as [|c s (w & Hs & Hw)]; [by exists []|]. simpl.
  destruct (p c) eqn:Hc.
  - exists (c :: w). split; [by rewrite <- app_comm_cons, <- Hs|by constructor].
  - by exists [].
Qed.

Lemma lstrip_with_head (p : Z -> bool) (s : str) (c : Z) (t : str) :
  Py.lstrip_with p s = c :: t -> p c = false.
Proof.
  induction s as [|d s IH]; simpl; [done|].
  destruct (p d) eqn:Hd; [done|]. by intros [= <- _].
Qed.

Lemma lstrip_with_fixed (p : Z -> bool) (s : str) :
  match s with c :: _ => p c = false | [] => True end -> Py.lstrip_with p s = s.
Proof. destruct s as [|c s]; [done|]. simpl. by intros ->. Qed.

Lemma lstrip_with_idem (p : Z -> bool) (s : str) :
  Py.lstrip_with p (Py.lstrip_with p s) = Py.lstrip_with p s.
Proof.
  apply lstrip_with_fixed. destruct (Py.lstrip_with p s) eqn:Hs; [done|].
  by apply lstrip_with_head in Hs.
Qed.

(** Trimming leaves nothing to trim on either side. *)
Lemma strip_with_idem (p : Z -> bool) (s : str) :
  Py.strip_with p (Py.strip_with p s) = Py.strip_with p s.
Proof.
  unfold Py.strip_with, Py.rstrip_with.
  remember (Py.lstrip_with p s) as a eqn:Hdef.
  destruct (lstrip_with_suffix p (rev a)) as (w & Hrev & Hw).
  remember (Py.lstrip_with p (rev a)) as y eqn:Hy.
  assert (Ha : a = rev y ++ rev w).
  { rewrite <- (rev_involutive a), Hrev. apply rev_app_distr. }
  assert (Hfix : Py.lstrip_with p (rev y) = rev y).
  { apply lstrip_with_fixed. destruct (rev y) as [|c t] eqn:Hhd; [done|].
    assert (Hhead : Py.lstrip_with p s = c :: (t ++ rev w))
      by (by rewrite <- Hdef, Ha).
    by apply lstrip_with_head in Hhead. }
  rewrite Hfix, rev_involutive. rewrite Hy. by rewrite lstrip_with_idem.
Qed.

(** ** Configuration strings *)

Lemma filter_map_strip (items : list str) :
  map Py.strip (filter (fun item => Py.truthy (Py.strip item) = true) items)
  = filter (fun item => item <> []) (map Py.strip items).
Proof.
  induction items as [|item items IH]; [done|].
  cbn [map]. rewrite !filter_cons, <- IH.
  pose proof (truthy_ne (Py.strip item)) as Ht.
  repeat case_decide; cbn [map]; try done; tauto.
Qed.

Lemma filter_none {A} (P : A -> Prop) `{!forall x, Decision (P x)} (l : list A) :
  Forall (fun x => ~ P x) l -> filter P l = [].
Proof.
  induction 1 as [|x l Hx _ IH]; [done|]. by rewrite filter_cons_False.
Qed.

(** X1. Every name that [parse_csv_set] returns is non-empty, has no
    white space at either end and holds no comma; a string of commas and
    white space only gives the empty set. *)
Theorem parse_csv_set_elements (value : str) :
  (forall e, e ∈ CountLoc.parse_csv_set value ->
             e <> [] /\ Py.strip e = e /\ 44 ∉ e)
  /\ (Forall (fun c => c = 44 \/ Py.isspace c = true) value ->
      CountLoc.parse_csv_set value = ∅).
Proof.
  unfold CountLoc.parse_csv_set. rewrite filter_map_strip. split.
  - intros e He. apply elem_of_list_to_set, list_elem_of_filter in He as [Hne He].
    apply list_elem_of_fmap in He as (item & -> & Hitem).
    split; [done|]. split; [apply strip_with_idem|].
    pose proof (split_from_parts_no_sep 44 value [] ltac:(apply not_elem_of_nil))
      as Hparts.
    rewrite Forall_forall in Hparts. specialize (Hparts item Hitem).
    intros Hin. apply Hparts.
    unfold Py.strip, Py.strip_with, Py.rstrip_with in Hin.
    apply list_elem_of_In, in_rev, list_elem_of_In in Hin.
    destruct (lstrip_with_suffix Py.isspace (rev (Py.lstrip_with Py.isspace item)))
      as (w & Hrev & _).
    assert (Hin2 : 44 ∈ rev (Py.lstrip_with Py.isspace item)).
    { rewrite Hrev. apply elem_of_app. by right. }
    apply list_elem_of_In, in_rev, list_elem_of_In in Hin2.
    destruct (lstrip_with_suffix Py.isspace item) as (w' & Hitem' & _).
    rewrite Hitem'. apply elem_of_app. by right.
  - intros Hblank.
    rewrite filter_none; [done|]. apply Forall_forall.
    intros e He Hne. apply Hne. apply list_elem_of_fmap in He as (item & -> & Hitem).
    apply strip_with_nil. apply Forall_forall. intros c Hc.
    assert (Hsub : forall cur s,
               Forall (fun c => c = 44 \/ Py.isspace c = true) cur ->
               Forall (fun c => c = 44 \/ Py.isspace c = true) s ->
               Forall (Forall (fun c => c = 44 \/ Py.isspace c = true))
                 (Py.split_from 44 cur s)).
    { clear. intros cur s. revert cur.
      induction s as [|c s IH]; intros cur Hcur Hs; simpl.
      - constructor; [|done]. by apply Forall_rev.
      - apply Forall_cons in Hs as [Hc Hs]. destruct (c =? 44).
        + constructor; [by apply Forall_rev|by apply IH].
        + apply IH; [by constructor|done]. }
    specialize (Hsub [] value ltac:(constructor) Hblank).
    rewrite Forall_forall in Hsub. specialize (Hsub item Hitem).
    rewrite Forall_forall in Hsub. destruct (Hsub c Hc) as [->|Hws]; [|done].
    exfalso.
    pose proof (split_from_parts_no_sep 44 value [] ltac:(apply not_elem_of_nil))
      as Hparts.
    rewrite Forall_forall in Hparts. by apply (Hparts item Hitem).
Qed.

Lemma parse_csv_set_elements_witness :
  CountLoc.parse_csv_set (u " , ,,") = ∅ /\ Py.strip (u "js") = u "js".
Proof.
  destruct (parse_csv_set_elements (u " , ,,")) as [_ Hblank].
  destruct (parse_csv_set_elements (u "py, js")) as [Helem _].
  split.
  - apply Hblank. vm_compute.
    repeat (constructor; [first [left; reflexivity | right; reflexivity]|]).
    constructor.
  - apply (Helem (u "js")). apply (bool_decide_unpack _). vm_compute. exact I.
Defined.

(** X2. Joining names with commas and parsing the result gives the set
    of the trimmed, non-blank names back, whenever no name holds a comma
    (this is how the default of [--ext] and [--ignore-dirs] is built). *)
Theorem parse_csv_set_join (items : list str) :
  Forall (fun item => 44 ∉ item) items ->
  CountLoc.parse_csv_set (Py.join (u ",") items)
  = list_to_set (filter (fun item => item <> []) (map Py.strip items)).
Proof.
  intros Hitems. unfold CountLoc.parse_csv_set. rewrite filter_map_strip.
  destruct items as [|item items]; [reflexivity|].
  change (u ",") with [44]. by rewrite split_join.
Qed.

Lemma parse_csv_set_join_witness :
  CountLoc.parse_csv_set (Py.join (u ",") [u ".git"; u "node_modules"; u " dist "])
  = {[ u ".git"; u "node_modules"; u "dist" ]}.
Proof.
  rewrite parse_csv_set_join.
  - apply set_eq. intros e. vm_compute filter. set_solver.
  - repeat constructor; (intros Hin; apply list_elem_of_In in Hin; vm_compute in Hin;
      intuition discriminate).
Defined.

Lemma dot_prefixed_idem (ext : str) :
  CountLoc.dot_prefixed (CountLoc.dot_prefixed ext) = CountLoc.dot_prefixed ext.
Proof.
  unfold CountLoc.dot_prefixed at 1. by rewrite dot_prefixed_startswith.
Qed.

Lemma normalize_extensions_empty (exts : gset str) :
  CountLoc.normalize_extensions exts = ∅ <-> exts = ∅.
Proof.
  unfold CountLoc.normalize_extensions. split.
  - intros Hempty. apply set_eq. intros t. split; [|by intros ?%not_elem_of_empty].
    intros Ht. exfalso. apply (not_elem_of_empty (C := gset str)
                                 (CountLoc.dot_prefixed t)).
    rewrite <- Hempty. apply elem_of_map. by exists t.
  - intros ->. apply set_eq. intros e. rewrite elem_of_map. split.
    + by intros (t & _ & ?%not_elem_of_empty).
    + by intros ?%not_elem_of_empty.
Qed.

(** X3. Normalising extensions twice is the same as normalising them
    once, and the normalised set is empty only for the empty set. *)
Theorem normalize_extensions_idempotent (exts : gset str) :
  CountLoc.normalize_extensions (CountLoc.normalize_extensions exts)
  = CountLoc.normalize_extensions exts
  /\ (CountLoc.normalize_extensions exts = ∅ <-> exts = ∅).
Proof.
  split; [|apply normalize_extensions_empty].
  unfold CountLoc.normalize_extensions.
  apply set_eq. intros e. rewrite !elem_of_map. split.
  - intros (d & -> & Hd). apply elem_of_map in Hd as (t & -> & Ht).
    exists t. by rewrite dot_prefixed_idem.
  - intros (t & -> & Ht). exists (CountLoc.dot_prefixed t).
    rewrite dot_prefixed_idem. split; [done|]. apply elem_of_map. by exists t.
Qed.

Lemma rfind_from_absent (c i : Z) (s : str) :
  c ∉ s -> Pathlib.rfind_from c i s = -1.
Proof.
  revert i. induction s as [|d s IH]; intros i Hc; [done|].
  apply not_elem_of_cons in Hc as [Hd Hc]. simpl. rewrite IH by done. simpl.
  by destruct (Z.eqb_spec d c).
Qed.

(** X4. With a non-empty filter built by [normalize_extensions], the
    walker yields no file without a suffix: a name without a dot, such as
    [Makefile], is never counted, whatever tokens the filter was built
    from. *)
Theorem no_suffix_never_yielded
    (fs : FileSystem) (root : Path) (tokens ignore_dirs : gset str) (path : Path) :
  tokens <> ∅ ->
  path ∈ CountLoc.iter_source_files fs root
           (CountLoc.normalize_extensions tokens) ignore_dirs ->
  Pathlib.suffix path <> [] /\ 46 ∈ Pathlib.name path.
Proof.
  intros Htokens Hin.
  assert (Hsuf : Pathlib.suffix path <> []).
  { apply iter_source_files_spec in Hin as [_ Hy].
    apply yielded_spec in Hy as (_ & _ & Hrej).
    apply suffix_rejected_false in Hrej as [Hempty|Hmem].
    - by apply (proj1 (normalize_extensions_empty tokens)) in Hempty.
    - intros Hnil. rewrite Hnil in Hmem.
      apply elem_of_map in Hmem as (t & Ht & _).
      pose proof (dot_prefixed_startswith t) as Hdot. by rewrite <- Ht in Hdot. }
  split; [done|].
  destruct (decide (46 ∈ Pathlib.name path)) as [|Hno]; [done|].
  exfalso. apply Hsuf. unfold Pathlib.suffix.
  by rewrite (rfind_from_absent 46 0 _ Hno).
Qed.

Lemma no_suffix_never_yielded_witness :
  46 ∈ Pathlib.name (Demo.mixed_root ++ [u "Main.PY"]).
Proof.
  apply (no_suffix_never_yielded Demo.mixed_fs Demo.mixed_root {[ u "py" ]} ∅).
  - intros Hempty. apply (not_elem_of_empty (C := gset str) (u "py")).
    rewrite <- Hempty. by apply elem_of_singleton.
  - apply iter_source_files_spec. split.
    + vm_compute. left.
    + vm_compute. reflexivity.
Defined.

(** [relative_to] undoes joining: it returns [rel] exactly for the
    paths [root ++ rel], and raises for every path that does not extend
    [root]. *)
Theorem relative_to_iff (root path rel : Path) :
  (Pathlib.relative_to root path = Ok rel <-> path = root ++ rel)
  /\ ((forall r, path <> root ++ r) ->
      exists msg, Pathlib.relative_to root path = Raise (ValueError msg)).
Proof.
  split.
  - split; [|intros ->; apply relative_to_app].
    revert path. induction root as [|r root IH]; intros path; simpl.
    + by intros [= ->].
    + destruct path as [|p path]; [done|]. case_bool_decide as Hrp; [|done].
      subst p. intros Hrel. by rewrite (IH _ Hrel).
  - revert path. induction root as [|r root IH]; intros path Hno; simpl.
    + by destruct (Hno path).
    + destruct path as [|p path]; [by eexists|].
      case_bool_decide as Hrp; [|by eexists]. subst p.
      apply IH. intros r' ->. by apply (Hno r').
Qed.

Lemma relative_to_iff_witness :
  Pathlib.relative_to Demo.proj_root (Demo.proj_root ++ [u "src"; u "ff.py"])
  = Ok [u "src"; u "ff.py"]
  /\ exists msg,
       Pathlib.relative_to Demo.proj_root [u "/"; u "etc"; u "passwd"]
       = Raise (ValueError msg).
Proof.
  split.
  - by apply (relative_to_iff Demo.proj_root).
  - apply (relative_to_iff Demo.proj_root _ []).
    intros r Hr. vm_compute in Hr. discriminate.
Defined.

(** ** More on the counter *)

Lemma encountered_paths_sublist (fs : FileSystem) (root : Path)
    (extensions ignore_dirs : gset str) :
  (Spec.encountered fs root extensions ignore_dirs).*2 `sublist_of` fs_rglob fs root.
Proof.
  unfold Spec.encountered.
  induction (fs_rglob fs root) as [|rel rels IH]; [done|].
  rewrite filter_cons. case_decide.
  - cbn [omap list_omap].
    destruct (CountLoc.count_non_empty_lines fs (root ++ rel) =? 0).
    + by apply sublist_cons.
    + cbn [fmap list_fmap snd]. by apply sublist_skip.
  - by apply sublist_cons.
Qed.

(** X5. When the enumeration of the tree lists no entry twice, no
    relative path occurs twice in the result of [count_project], and
    every path of the result is one of the enumerated entries. *)
Theorem count_project_paths_unique
    (fs : FileSystem) (root : Path) (extensions ignore_dirs : gset str)
    (files : list (Z * Path)) (total : Z) :
  NoDup (fs_rglob fs root) ->
  CountLoc.count_project fs root extensions ignore_dirs = Ok (files, total) ->
  NoDup (files.*2) /\ forall rel, rel ∈ files.*2 -> rel ∈ fs_rglob fs root.
Proof.
  intros Hnodup Hrun. rewrite count_project_encountered in Hrun.
  injection Hrun as <- _.
  pose proof (sort_desc_perm fst (Spec.encountered fs root extensions ignore_dirs))
    as Hperm.
  apply (fmap_Permutation snd) in Hperm.
  pose proof (encountered_paths_sublist fs root extensions ignore_dirs) as Hsub.
  split.
  - rewrite Hperm. by eapply sublist_NoDup.
  - intros rel Hin. rewrite Hperm in Hin.
    by eapply elem_of_sublist.
Qed.

Lemma count_project_paths_unique_witness :
  NoDup [[u "a.py"]; [u "src"; u "ff.py"]].
Proof.
  apply (count_project_paths_unique Demo.proj_fs Demo.proj_root
           (CountLoc.normalize_extensions (CountLoc.parse_csv_set (u "py"))) ∅
           [(2, [u "a.py"]); (2, [u "src"; u "ff.py"])] 4).
  - apply (bool_decide_unpack _). vm_compute. exact I.
  - vm_compute. reflexivity.
Defined.

Lemma sum_non_empty_bounds (lines : list str) :
  0 <= CountLoc.sum_non_empty lines <= Z.of_nat (length (concat lines)).
Proof.
  induction lines as [|line lines IH]; simpl; [lia|].
  rewrite length_app.
  destruct (Py.truthy (Py.strip line)) eqn:Ht; [|lia].
  assert (line <> []) as Hne.
  { intros ->. done. }
  destruct line; [done|]. simpl length. lia.
Qed.

Lemma split_lines_from_length (brk : Z -> bool) (s : str) :
  forall cur,
    (length (concat (Py.split_lines_from brk cur s)) <= length cur + length s)%nat.
Proof.
  induction s as [|c s IH IH'] using list_tail_ind; intros cur.
  - cbn [Py.split_lines_from]. destruct cur; [simpl; lia|].
    cbn [concat]. rewrite app_nil_r, length_rev. lia.
  - cbn [Py.split_lines_from]. destruct (brk c).
    + cbn [concat]. rewrite length_app, length_rev. cbn [length].
      destruct (c =? 13).
      * destruct s as [|d s'].
        -- specialize (IH []). simpl in *. lia.
        -- destruct (d =? 10).
           ++ specialize (IH' d s' eq_refl []). simpl in *. lia.
           ++ specialize (IH []). simpl in *. lia.
      * specialize (IH []). simpl in *. lia.
    + specialize (IH (c :: cur)). simpl in *. lia.
Qed.

(** X6. The count of a file is never negative and never more than the
    number of characters of its text. *)
Theorem count_non_empty_lines_bounds (fs : FileSystem) (path : Path) :
  0 <= CountLoc.count_non_empty_lines fs path
  /\ forall text, fs_read_text fs path = Some text ->
                  CountLoc.count_non_empty_lines fs path <= Z.of_nat (length text).
Proof.
  unfold CountLoc.count_non_empty_lines, CountLoc.count_text, Py.splitlines.
  destruct (fs_read_text fs path) as [text|].
  - pose proof (sum_non_empty_bounds (Py.split_lines_from Py.is_linebreak [] text)).
    pose proof (split_lines_from_length Py.is_linebreak text []).
    split; [lia|]. intros ? [= <-]. simpl in *. lia.
  - split; [lia|done].
Qed.

Lemma count_non_empty_lines_bounds_witness :
  CountLoc.count_non_empty_lines Demo.proj_fs (Demo.proj_root ++ [u "src"; u "ff.py"])
  <= 3.
Proof.
  destruct (count_non_empty_lines_bounds Demo.proj_fs
              (Demo.proj_root ++ [u "src"; u "ff.py"])) as [_ Hle].
  apply (Hle [97; 12; 98]). vm_compute. reflexivity.
Defined.

Lemma sum_non_empty_app (l1 l2 : list str) :
  CountLoc.sum_non_empty (l1 ++ l2)
  = CountLoc.sum_non_empty l1 + CountLoc.sum_non_empty l2.
Proof.
  induction l1 as [|line l1 IH]; simpl; [done|].
  destruct (Py.truthy (Py.strip line)); lia.
Qed.

Lemma sum_non_empty_cons (line : str) (lines : list str) :
  CountLoc.sum_non_empty (line :: lines)
  = CountLoc.sum_non_empty [line] + CountLoc.sum_non_empty lines.
Proof. apply (sum_non_empty_app [line]). Qed.

Lemma split_lines_newline (a : str) :
  forall cur b,
    CountLoc.sum_non_empty (Py.split_lines_from Py.is_linebreak cur (a ++ 10 :: b))
    = CountLoc.sum_non_empty (Py.split_lines_from Py.is_linebreak cur a)
      + CountLoc.sum_non_empty (Py.split_lines_from Py.is_linebreak [] b).
Proof.
  induction a as [|c a IH IH'] using list_tail_ind; intros cur b.
  - cbn [app Py.split_lines_from]. change (Py.is_linebreak 10) with true.
    change (10 =? 13) with false. cbv iota.
    destruct cur as [|x cur]; [reflexivity|].
    apply sum_non_empty_cons.
  - rewrite <- app_comm_cons. cbn [Py.split_lines_from].
    destruct (Py.is_linebreak c).
    + rewrite (sum_non_empty_cons (rev cur)).
      rewrite (sum_non_empty_cons (rev cur) (if c =? 13 then _ else _)).
      rewrite <- Z.add_assoc. f_equal.
      destruct (c =? 13); [|apply IH].
      destruct a as [|d a'].
      * reflexivity.
      * rewrite <- app_comm_cons. destruct (d =? 10); [|apply IH].
        apply (IH' d a' eq_refl).
    + apply IH.
Qed.

(** X7. Counting is additive over texts joined by a newline: the count
    of [a], LF, [b] is the count of [a] plus the count of [b]. *)
Theorem count_text_newline_additive (a b : str) :
  CountLoc.count_text (a ++ [10] ++ b)
  = CountLoc.count_text a + CountLoc.count_text b.
Proof. unfold CountLoc.count_text, Py.splitlines. apply split_lines_newline. Qed.

(** ** More on the fetcher *)

Lemma filter_all {A} (P : A -> Prop) `{!forall x, Decision (P x)} (l : list A) :
  Forall P l -> filter P l = l.
Proof.
  induction 1 as [|x l Hx _ IH]; [done|]. by rewrite filter_cons_True, IH.
Qed.

Lemma splitnetloc_host (host rest : str) :
  Forall (fun c => c <> 47 /\ c <> 63 /\ c <> 35) host ->
  Urllib.splitnetloc (host ++ 47 :: rest) = (host, 47 :: rest).
Proof.
  induction 1 as [|c host (H1 & H2 & H3) _ IH]; [done|].
  cbn [app Urllib.splitnetloc]. rewrite IH.
  destruct (Z.eqb_spec c 47), (Z.eqb_spec c 63), (Z.eqb_spec c 35); done.
Qed.

(** A network location without square brackets and without characters
    that are unsafe under NFKC. *)
Lemma checknetloc_safe (nl : str) :
  Forall (fun c => c ∉ Urllib.nfkc_unsafe) nl -> Urllib.checknetloc nl = Ok tt.
Proof.
  intros Hsafe. unfold Urllib.checknetloc.
  destruct (existsb _ nl) eqn:Hex; [|done].
  apply existsb_exists in Hex as (c & Hin & Hc).
  apply bool_decide_eq_true in Hc. rewrite Forall_forall in Hsafe.
  by destruct (Hsafe c (proj2 (list_elem_of_In _ _) Hin)).
Qed.

Lemma urlparse_components (check : str -> option str) (url0 : str)
    (parsed : Urllib.ParseResult) :
  Urllib.urlparse check url0 = Ok parsed ->
  exists rest rest',
    Urllib.split_scheme (Urllib.strip_unsafe url0) = (Urllib.scheme parsed, rest)
    /\ Urllib.split_netloc check rest = Ok (Urllib.netloc parsed, rest')
    /\ Urllib.checknetloc (Urllib.netloc parsed) = Ok tt.
Proof.
  unfold Urllib.urlparse, Urllib.urlsplit.
  destruct (Urllib.split_scheme (Urllib.strip_unsafe url0)) as [sch rest0].
  destruct (Urllib.split_netloc check rest0) as [[nl rest']|e] eqn:Hnl; [|done].
  cbn [bind].
  destruct (Urllib.cut 35 rest') as [a frag], (Urllib.cut 63 a) as [b qry].
  destruct (Urllib.checknetloc nl) as [[]|e] eqn:Hchk; [|done]. cbn [bind].
  by destruct (_ && _); [destruct (Urllib.splitparams b)|];
    intros [= <-]; exists rest0, rest'.
Qed.

Lemma urlparse_built (check : str -> option str) (url0 sch rest nl rest' : str) :
  Urllib.split_scheme (Urllib.strip_unsafe url0) = (sch, rest) ->
  Urllib.split_netloc check rest = Ok (nl, rest') ->
  Urllib.checknetloc nl = Ok tt ->
  exists parsed,
    Urllib.urlparse check url0 = Ok parsed
    /\ Urllib.scheme parsed = sch /\ Urllib.netloc parsed = nl.
Proof.
  intros H1 H2 H3. unfold Urllib.urlparse, Urllib.urlsplit.
  rewrite H1, H2. cbn [bind].
  destruct (Urllib.cut 35 rest') as [a frag], (Urllib.cut 63 a) as [b qry].
  rewrite H3. cbn [bind].
  by destruct (_ && _); [destruct (Urllib.splitparams b)|]; eexists.
Qed.

Lemma split_netloc_plain (check : str -> option str) (host tail : str) :
  Forall (fun c => c <> 47 /\ c <> 63 /\ c <> 35) host ->
  (91 ∉ host) -> (93 ∉ host) ->
  Urllib.split_netloc check (u "//" ++ host ++ 47 :: tail) = Ok (host, 47 :: tail).
Proof.
  intros Hhost Ho Hc. unfold Urllib.split_netloc.
  change (Py.startswith (u "//") (u "//" ++ host ++ 47 :: tail)) with true.
  cbv iota. change (drop 2 (u "//" ++ host ++ 47 :: tail)) with (host ++ 47 :: tail).
  rewrite (splitnetloc_host host tail Hhost). cbv zeta.
  by rewrite !bool_decide_eq_false_2.
Qed.

Lemma urlparse_https_host (check : str -> option str) (host tail : str) :
  Forall (fun c => c <> 47 /\ c <> 63 /\ c <> 35) host ->
  Forall (fun c => c <> 9 /\ c <> 13 /\ c <> 10) host ->
  (91 ∉ host) -> (93 ∉ host) ->
  Forall (fun c => c ∉ Urllib.nfkc_unsafe) host ->
  exists parsed,
    Urllib.urlparse check (u "https://" ++ host ++ 47 :: tail) = Ok parsed
    /\ Urllib.scheme parsed = u "https" /\ Urllib.netloc parsed = host.
Proof.
  intros Hhost Hplain Ho Hc Hsafe.
  set (t := filter (fun c => c <> 9 /\ c <> 13 /\ c <> 10) tail).
  apply (urlparse_built _ _ _ (u "//" ++ host ++ 47 :: t) _ (47 :: t)).
  - assert (Hurl : Urllib.strip_unsafe (u "https://" ++ host ++ 47 :: tail)
                   = u "https://" ++ host ++ 47 :: t).
    { unfold Urllib.strip_unsafe.
      rewrite (lstrip_with_fixed _ (u "https://" ++ host ++ 47 :: tail)) by done.
      rewrite !filter_app, filter_cons_True by done.
      by rewrite (filter_all _ host). }
    rewrite Hurl. vm_compute. reflexivity.
  - by apply split_netloc_plain.
  - by apply checknetloc_safe.
Qed.

Lemma archive_url_parsed (check : str -> option str) (quote : str -> str)
    (ref : Fetcher.RepoRef) :
  exists parsed,
    Urllib.urlparse check (Fetcher.archive_url quote ref) = Ok parsed
    /\ Urllib.scheme parsed = u "https"
    /\ Urllib.netloc parsed
       = (if Fetcher.opt_truthy (Fetcher.branch ref)
          then u "codeload.github.com" else u "api.github.com").
Proof.
  unfold Fetcher.archive_url.
  destruct (Fetcher.opt_truthy (Fetcher.branch ref)).
  - change (u "https://codeload.github.com/" ++ ?x)
      with (u "https://" ++ u "codeload.github.com" ++ 47 :: x).
    apply urlparse_https_host;
      try (apply Forall_forall; intros c Hc); try intros Hc;
      apply list_elem_of_In in Hc; vm_compute in Hc;
      try intros Hbad%list_elem_of_In; try (vm_compute in Hbad); lia.
  - change (u "https://api.github.com/repos/" ++ ?x)
      with (u "https://" ++ u "api.github.com" ++ 47 :: (u "repos/" ++ x)).
    apply urlparse_https_host;
      try (apply Forall_forall; intros c Hc); try intros Hc;
      apply list_elem_of_In in Hc; vm_compute in Hc;
      try intros Hbad%list_elem_of_In; try (vm_compute in Hbad); lia.
Qed.

(** X9. Whatever the repository reference, the archive URL parses, and
    it is an [https] URL whose network location is [codeload.github.com]
    (with a branch) or [api.github.com] (without): owner, repository and
    branch cannot redirect the download to another host. *)
Theorem archive_url_host (check : str -> option str) (quote : str -> str)
    (ref : Fetcher.RepoRef) :
  exists parsed,
    Urllib.urlparse check (Fetcher.archive_url quote ref) = Ok parsed
    /\ Urllib.scheme parsed = u "https"
    /\ Urllib.netloc parsed
       = (if Fetcher.opt_truthy (Fetcher.branch ref)
          then u "codeload.github.com" else u "api.github.com").
Proof. apply archive_url_parsed. Qed.

(** X10. The outcome of [download_and_extract_repo] depends on the
    network only through [https] URLs at [codeload.github.com] and
    [api.github.com]: two networks that agree there give the same
    outcome. *)
Theorem download_only_from_github
    (check : str -> option str) (quote : str -> str)
    (fetch1 fetch2 : str -> Path -> result FileSystem)
    (url : str) (temp_dir : Path) :
  (forall archive dir parsed,
     Urllib.urlparse check archive = Ok parsed ->
     Urllib.scheme parsed = u "https" ->
     Urllib.netloc parsed ∈ [u "codeload.github.com"; u "api.github.com"] ->
     fetch1 archive dir = fetch2 archive dir) ->
  Fetcher.download_and_extract_repo check quote fetch1 url temp_dir
  = Fetcher.download_and_extract_repo check quote fetch2 url temp_dir.
Proof.
  intros Hagree. unfold Fetcher.download_and_extract_repo.
  destruct (Fetcher.parse_github_repo_url check url) as [ref|e]; [|done]. simpl.
  destruct (archive_url_parsed check quote ref) as (parsed & Hparsed & Hscheme & Hhost).
  rewrite (Hagree _ temp_dir parsed Hparsed Hscheme); [done|].
  rewrite Hhost. destruct (Fetcher.opt_truthy (Fetcher.branch ref)).
  - left.
  - right. left.
Qed.

Lemma download_only_from_github_witness :
  Fetcher.download_and_extract_repo (fun _ => None) (fun b => b)
    (fun archive _ =>
       match Urllib.urlparse (fun _ => None) archive with
       | Ok parsed =>
           if bool_decide (Urllib.netloc parsed
                             ∈ [u "codeload.github.com"; u "api.github.com"])
           then Ok Demo.extracted_fs else Raise (URLError (u "blocked"))
       | Raise _ => Raise (URLError (u "blocked"))
       end)
    (u "https://github.com/acme/widgets/tree/dev/sub/dir") Demo.scratch
  = Fetcher.download_and_extract_repo (fun _ => None) (fun b => b)
      (fun _ _ => Ok Demo.extracted_fs)
      (u "https://github.com/acme/widgets/tree/dev/sub/dir") Demo.scratch.
Proof.
  apply download_only_from_github.
  intros archive dir parsed -> _ Hhost. by rewrite bool_decide_eq_true_2.
Defined.

Lemma path_parts_clean (path : str) :
  Forall (fun part => part <> [] /\ 47 ∉ part) (Fetcher.path_parts path).
Proof.
  unfold Fetcher.path_parts. apply Forall_forall. intros part Hin.
  apply list_elem_of_filter in Hin as [Hne Hin]. split; [by apply truthy_ne|].
  pose proof (split_from_parts_no_sep 47 (Py.strip_chars (u "/") path) []
                ltac:(apply not_elem_of_nil)) as Hparts.
  rewrite Forall_forall in Hparts. by apply Hparts.
Qed.

Lemma removesuffix_subset (p s : str) (c : Z) :
  c ∈ Py.removesuffix p s -> c ∈ s.
Proof.
  unfold Py.removesuffix. destruct (Py.truthy p && Py.endswith p s); [|done].
  intros Hin. rewrite <- (take_drop (length s - length p) s).
  apply elem_of_app. by left.
Qed.

Lemma parse_parsed_shape (parsed : Urllib.ParseResult) (ref : Fetcher.RepoRef) :
  Fetcher.parse_parsed parsed = Ok ref ->
  Fetcher.owner ref <> [] /\ (47 ∉ Fetcher.owner ref) /\ (47 ∉ Fetcher.repo ref)
  /\ (forall b, Fetcher.branch ref = Some b -> b <> [] /\ 47 ∉ b)
  /\ (forall sp, Fetcher.subpath ref = Some sp ->
        sp <> [] /\ is_Some (Fetcher.branch ref)
        /\ exists segments,
             segments <> []
             /\ Forall (fun seg => seg <> [] /\ 47 ∉ seg) segments
             /\ sp = Py.join (u "/") segments
             /\ Py.split 47 sp = segments).
Proof.
  unfold Fetcher.parse_parsed.
  destruct (negb _); [done|].
  pose proof (path_parts_clean (Urllib.path parsed)) as Hclean.
  destruct (Fetcher.path_parts (Urllib.path parsed))
    as [|p0 [|p1 rest]]; [done|done|].
  cbn [length Nat.ltb Nat.leb nth].
  apply Forall_cons in Hclean as [[Hp0 Hs0] Hclean].
  apply Forall_cons in Hclean as [[Hp1 Hs1] Hclean].
  assert (Hrepo : 47 ∉ Py.removesuffix (u ".git") p1)
    by (intros Hin; by apply removesuffix_subset in Hin).
  destruct rest as [|p2 [|p3 rest]];
    cbn [length Nat.ltb Nat.leb andb drop nth].
  - intros [= <-]. cbn. by repeat split.
  - intros [= <-]. cbn. by repeat split.
  - apply Forall_cons in Hclean as [_ Hclean].
    apply Forall_cons in Hclean as [[Hp3 Hs3] Hclean].
    destruct (bool_decide (p2 = u "tree")); [|intros [= <-]; cbn; by repeat split].
    destruct rest as [|seg rest]; cbn [length Nat.ltb Nat.leb andb drop nth];
      intros [= <-];
      cbn [Fetcher.owner Fetcher.repo Fetcher.branch Fetcher.subpath].
    + split; [done|]. split; [done|]. split; [done|]. split; [|done].
      by intros b [= <-].
    + split; [done|]. split; [done|]. split; [done|]. split.
      * by intros b [= <-].
      * intros sp Hsp.
        assert (Hjoin : sp = Py.join (u "/") (seg :: rest)) by (by injection Hsp).
        clear Hsp. subst sp. split.
        -- apply join_nonempty; [done|].
           eapply Forall_impl; [exact Hclean|]. by intros ? [? ?].
        -- split; [by eexists|]. exists (seg :: rest).
           split; [done|]. split; [done|]. split; [done|].
           change (u "/") with [47]. apply split_join; [done|].
           eapply Forall_impl; [exact Hclean|]. by intros ? [? ?].
Qed.

Lemma parsed_subpath_segments (check : str -> option str) (url : str)
    (ref : Fetcher.RepoRef) (sp : str) :
  Fetcher.parse_github_repo_url check url = Ok ref ->
  Fetcher.subpath ref = Some sp ->
  Forall (fun seg => seg <> []) (Py.split 47 sp).
Proof.
  unfold Fetcher.parse_github_repo_url.
  destruct (Urllib.urlparse check url) as [parsed|e]; [|done]. cbn [bind].
  intros Hparse Hsp.
  destruct (parse_parsed_shape parsed ref Hparse) as (_ & _ & _ & _ & Hsub).
  destruct (Hsub sp Hsp) as (_ & _ & segments & _ & Hall & _ & ->).
  eapply Forall_impl; [exact Hall|]. by intros ? [? ?].
Qed.

Lemma filter_agree {A} (P Q : A -> Prop) `{!forall x, Decision (P x)}
    `{!forall x, Decision (Q x)} (l : list A) :
  Forall (fun x => P x <-> Q x) l -> filter P l = filter Q l.
Proof.
  induction 1 as [|x l Hx _ IH]; [done|].
  rewrite !filter_cons, IH. by destruct (decide (P x)), (decide (Q x)); tauto.
Qed.

Lemma resolve_root_shape (fs : FileSystem) (extract_dir : Path)
    (subpath : option str) (root : Path) :
  Fetcher.resolve_root fs extract_dir subpath = Ok root ->
  exists top,
    (length top <= 1)%nat
    /\ root = extract_dir ++ top
              ++ match subpath with
                 | Some sp => filter (fun seg => seg <> [] /\ seg <> u ".")
                                (Py.split 47 sp)
                 | None => []
                 end.
Proof.
  unfold Fetcher.resolve_root.
  set (subdirs := filter _ _).
  assert (Hroot : exists top,
             (length top <= 1)%nat
             /\ (if bool_decide (length subdirs = 1%nat)
                 then default extract_dir (head subdirs) else extract_dir)
                = extract_dir ++ top).
  { case_bool_decide; [|exists []; split; [simpl; lia|by rewrite app_nil_r]].
    destruct subdirs as [|d rest] eqn:Hsub; [done|]. simpl.
    assert (Hd : d ∈ subdirs) by (rewrite Hsub; left).
    apply list_elem_of_filter in Hd as [_ Hd].
    apply list_elem_of_fmap in Hd as (n & -> & _). exists [n]. split; [simpl; lia|done]. }
  destruct Hroot as (top & Htop & ->).
  destruct subpath as [sp|]; cbn [Fetcher.opt_truthy].
  - destruct (Py.truthy sp) eqn:Hsp.
    + destruct (negb _); [done|]. intros [= <-]. exists top. split; [done|].
      unfold Fetcher.joinpath. cbn [default]. by rewrite <- app_assoc.
    + destruct sp; [|done]. intros [= <-]. exists top. split; [done|].
      by rewrite app_nil_r.
  - intros [= <-]. exists top. by rewrite app_nil_r.
Qed.

Lemma download_ok (check : str -> option str) (quote : str -> str)
    (fetch_and_extract : str -> Path -> result FileSystem)
    (url : str) (temp_dir : Path) (ref : Fetcher.RepoRef) (fs : FileSystem)
    (root : Path) :
  Fetcher.parse_github_repo_url check url = Ok ref ->
  fetch_and_extract (Fetcher.archive_url quote ref) temp_dir = Ok fs ->
  Fetcher.resolve_root fs (temp_dir ++ [u "extracted"]) (Fetcher.subpath ref)
  = Ok root ->
  Fetcher.download_and_extract_repo check quote fetch_and_extract url temp_dir
  = Ok (fs, root).
Proof.
  intros Hparse Hfetch Hroot. unfold Fetcher.download_and_extract_repo.
  rewrite Hparse. cbn [bind]. rewrite Hfetch. cbn [bind]. by rewrite Hroot.
Qed.

(** X11. A URL that does not parse fails with the parser's error
    whatever the network does; an error of the fetch or the extraction,
    of whatever kind, is passed on unchanged; and a path that is returned
    is made of [temp_dir / "extracted"], at most one directory name, and
    the segments of the subpath other than [.], in order and as they
    are.  A segment [..] is kept, so that the path returned can name a
    place outside of the directory of the extraction. *)
Theorem download_errors_and_scope
    (check : str -> option str) (quote : str -> str)
    (fetch_and_extract : str -> Path -> result FileSystem)
    (url : str) (temp_dir : Path) :
  (forall e, Fetcher.parse_github_repo_url check url = Raise e ->
             Fetcher.download_and_extract_repo check quote fetch_and_extract
               url temp_dir
             = Raise e)
  /\ (forall ref e,
        Fetcher.parse_github_repo_url check url = Ok ref ->
        fetch_and_extract (Fetcher.archive_url quote ref) temp_dir = Raise e ->
        Fetcher.download_and_extract_repo check quote fetch_and_extract
          url temp_dir
        = Raise e)
  /\ (forall fs root,
        Fetcher.download_and_extract_repo check quote fetch_and_extract
          url temp_dir
        = Ok (fs, root) ->
        exists ref top,
          Fetcher.parse_github_repo_url check url = Ok ref
          /\ fetch_and_extract (Fetcher.archive_url quote ref) temp_dir = Ok fs
          /\ (length top <= 1)%nat
          /\ root = temp_dir ++ [u "extracted"] ++ top
                    ++ match Fetcher.subpath ref with
                       | Some sp => filter (fun seg => seg <> u ".") (Py.split 47 sp)
                       | None => []
                       end)
  /\ Fetcher.download_and_extract_repo check quote (fun _ _ => Ok Demo.lenient_fs)
       (u "https://github.com/acme/widgets/tree/dev/../../..") Demo.scratch
     = Ok (Demo.lenient_fs,
           Demo.scratch ++ [u "extracted"; u "widgets-dev"; u ".."; u ".."; u ".."]).
Proof.
  split; [|split; [|split]]; [unfold Fetcher.download_and_extract_repo..|].
  - by intros e ->.
  - intros ref e -> Hfetch. simpl. by rewrite Hfetch.
  - intros fs root.
    destruct (Fetcher.parse_github_repo_url check url) as [ref|e] eqn:Hparse; [|done].
    simpl.
    destruct (fetch_and_extract _ temp_dir) as [fs'|e] eqn:Hfetch; [|done]. simpl.
    destruct (Fetcher.resolve_root fs' _ _) as [root'|e] eqn:Hroot; [|done].
    simpl. intros [= <- <-].
    apply resolve_root_shape in Hroot as (top & Htop & ->).
    exists ref, top. split; [done|]. split; [done|]. split; [done|].
    rewrite <- !app_assoc. do 3 f_equal.
    destruct (Fetcher.subpath ref) as [sp|] eqn:Hsp; [|done].
    pose proof (parsed_subpath_segments check url ref sp Hparse Hsp) as Hseg.
    apply filter_agree. eapply Forall_impl; [exact Hseg|].
    intros seg Hne. cbv beta in *. tauto.
  - apply (download_ok _ _ _ _ _
             {| Fetcher.owner := u "acme"; Fetcher.repo := u "widgets";
                Fetcher.branch := Some (u "dev");
                Fetcher.subpath := Some (u "../../..") |}).
    + vm_compute. reflexivity.
    + reflexivity.
    + vm_compute. reflexivity.
Qed.

Lemma download_errors_and_scope_witness :
  Fetcher.download_and_extract_repo (fun _ => None) (fun b => b)
    (fun _ _ => Ok Demo.extracted_fs)
    (u "https://gitlab.com/acme/widgets") Demo.scratch
  = Raise (ValueError (u "Supported only github.com repository links."))
  /\ Fetcher.download_and_extract_repo (fun _ => None) (fun b => b)
       (fun _ _ => Raise (OtherError (u "disk full")))
       (u "https://github.com/acme/widgets") Demo.scratch
     = Raise (OtherError (u "disk full"))
  /\ exists top,
       (length top <= 1)%nat
       /\ Demo.scratch ++ [u "extracted"; u "widgets-dev"; u "sub"; u "dir"]
          = Demo.scratch ++ [u "extracted"] ++ top ++ [u "sub"; u "dir"].
Proof.
  split; [|split].
  - apply (download_errors_and_scope (fun _ => None) (fun b => b)
             (fun _ _ => Ok Demo.extracted_fs)).
    vm_compute. reflexivity.
  - apply (download_errors_and_scope (fun _ => None) (fun b => b)
             (fun _ _ => Raise (OtherError (u "disk full")))
             (u "https://github.com/acme/widgets") Demo.scratch)
      with (ref := {| Fetcher.owner := u "acme"; Fetcher.repo := u "widgets";
                      Fetcher.branch := None; Fetcher.subpath := None |}).
    + vm_compute. reflexivity.
    + reflexivity.
  - pose proof (download_errors_and_scope (fun _ => None) (fun b => b)
                  (fun _ _ => Ok Demo.extracted_fs)
                  (u "https://github.com/acme/widgets/tree/dev/sub/dir")
                  Demo.scratch) as (_ & _ & Hshape & _).
    assert (Hrun : Fetcher.download_and_extract_repo (fun _ => None) (fun b => b)
                     (fun _ _ => Ok Demo.extracted_fs)
                     (u "https://github.com/acme/widgets/tree/dev/sub/dir")
                     Demo.scratch
                   = Ok (Demo.extracted_fs,
                         Demo.scratch
                         ++ [u "extracted"; u "widgets-dev"; u "sub"; u "dir"])).
    { apply (download_ok _ _ _ _ _
               {| Fetcher.owner := u "acme"; Fetcher.repo := u "widgets";
                  Fetcher.branch := Some (u "dev");
                  Fetcher.subpath := Some (u "sub/dir") |});
        [vm_compute; reflexivity|reflexivity|vm_compute; reflexivity]. }
    destruct (Hshape _ _ Hrun) as (ref & top & Hparse & _ & Htop & Hroot).
    exists top. split; [exact Htop|].
    assert (Href : ref = {| Fetcher.owner := u "acme"; Fetcher.repo := u "widgets";
                            Fetcher.branch := Some (u "dev");
                            Fetcher.subpath := Some (u "sub/dir") |}).
    { vm_compute in Hparse. by injection Hparse. }
    rewrite Href in Hroot. exact Hroot.
Defined.

(** X12. In a parsed reference the owner is not empty, and owner,
    repository and branch hold no slash; a branch is never empty; a
    subpath only comes with a branch, is not empty, and splitting it at
    the slashes gives back non-empty segments of the URL's path. *)
Theorem parsed_reference_components (check : str -> option str) (url : str)
    (ref : Fetcher.RepoRef) :
  Fetcher.parse_github_repo_url check url = Ok ref ->
  Fetcher.owner ref <> [] /\ (47 ∉ Fetcher.owner ref) /\ (47 ∉ Fetcher.repo ref)
  /\ (forall b, Fetcher.branch ref = Some b -> b <> [] /\ 47 ∉ b)
  /\ (forall sp, Fetcher.subpath ref = Some sp ->
        sp <> [] /\ is_Some (Fetcher.branch ref)
        /\ exists segments,
             segments <> []
             /\ Forall (fun seg => seg <> [] /\ 47 ∉ seg) segments
             /\ sp = Py.join (u "/") segments
             /\ Py.split 47 sp = segments).
Proof.
  unfold Fetcher.parse_github_repo_url.
  destruct (Urllib.urlparse check url) as [parsed|e]; [|done].
  apply parse_parsed_shape.
Qed.

Lemma parsed_reference_components_witness :
  u "sub/dir" <> [] /\ (47 ∉ u "widgets").
Proof.
  destruct (parsed_reference_components (fun _ => None)
              (u "https://github.com/acme/widgets/tree/dev/sub/dir")
              {| Fetcher.owner := u "acme"; Fetcher.repo := u "widgets";
                 Fetcher.branch := Some (u "dev");
                 Fetcher.subpath := Some (u "sub/dir") |}
              ltac:(vm_compute; reflexivity))
    as (_ & _ & Hrepo & _ & Hsub).
  destruct (Hsub (u "sub/dir") eq_refl) as (Hne & _).
  by split.
Defined.

(** ** More on the report *)

Lemma html_escape_cons (c : Z) (text : str) :
  Render.html_escape (c :: text) = Notions.escape_char c ++ Render.html_escape text.
Proof. reflexivity. Qed.

Lemma escape_char_cases (c : Z) :
  (c = 38 /\ Notions.escape_char c = u "&amp;")
  \/ (c = 60 /\ Notions.escape_char c = u "&lt;")
  \/ (c = 62 /\ Notions.escape_char c = u "&gt;")
  \/ (c = 34 /\ Notions.escape_char c = u "&quot;")
  \/ (c = 39 /\ Notions.escape_char c = u "&#x27;")
  \/ (c <> 38 /\ c <> 60 /\ c <> 62 /\ c <> 34 /\ c <> 39 /\ Notions.escape_char c = [c]).
Proof.
  unfold Notions.escape_char.
  destruct (Z.eqb_spec c 38) as [->|?]; [by left|].
  destruct (Z.eqb_spec c 60) as [->|?]; [by right; left|].
  destruct (Z.eqb_spec c 62) as [->|?]; [by right; right; left|].
  destruct (Z.eqb_spec c 34) as [->|?]; [by right; right; right; left|].
  destruct (Z.eqb_spec c 39) as [->|?]; [by right; right; right; right; left|].
  by repeat right.
Qed.

(** X13. Escaped text holds none of the characters [<], [>], double
    quote and single quote, whatever the file paths contain, so the
    report cannot open or close a tag inside the [pre] block. *)
Theorem html_escape_no_markup (text : str) :
  Forall (fun c => Notions.is_markup c = false) (Render.html_escape text)
  /\ forall url per_file total top,
       exists safe,
         Render._render_result_html url per_file total top
         = u "<b>Результат підрахунку LOC</b>" ++ [10] ++ u "<pre>"
           ++ safe ++ u "</pre>"
         /\ Forall (fun c => Notions.is_markup c = false) safe
         /\ (safe = Render.html_escape (Render._render_result url per_file total top)).
Proof.
  assert (Hsafe : forall t,
            Forall (fun c => Notions.is_markup c = false) (Render.html_escape t)).
  2: { split; [apply Hsafe|]. intros url per_file total top.
       eexists. split; [reflexivity|]. split; [apply Hsafe|reflexivity]. }
  clear text. intros text.
  induction text as [|c text IH]; [constructor|].
  rewrite html_escape_cons. apply Forall_app. split; [|done].
  destruct (escape_char_cases c)
    as [[_ ->]|[[_ ->]|[[_ ->]|[[_ ->]|[[_ ->]|(?&?&?&?&?& ->)]]]]];
    try (vm_compute; by repeat constructor).
  constructor; [|done]. unfold Notions.is_markup. lia.
Qed.

(** Escaping loses nothing: two texts with the same escaped form
    are the same text. *)
Theorem html_escape_injective (a b : str) :
  Render.html_escape a = Render.html_escape b -> a = b.
Proof.
  revert b. induction a as [|c a IH]; intros b Heq.
  - destruct b as [|d b]; [done|]. rewrite html_escape_cons in Heq.
    exfalso. simpl in Heq.
    by destruct (escape_char_cases d)
      as [[_ H]|[[_ H]|[[_ H]|[[_ H]|[[_ H]|(?&?&?&?&?& H)]]]]]; rewrite H in Heq.
  - destruct b as [|d b].
    + rewrite html_escape_cons in Heq. exfalso. simpl in Heq.
      by destruct (escape_char_cases c)
        as [[_ H]|[[_ H]|[[_ H]|[[_ H]|[[_ H]|(?&?&?&?&?& H)]]]]]; rewrite H in Heq.
    + rewrite !html_escape_cons in Heq.
      destruct (escape_char_cases c)
        as [[-> Hc]|[[-> Hc]|[[-> Hc]|[[-> Hc]|[[-> Hc]|(?&?&?&?&?& Hc)]]]]];
      destruct (escape_char_cases d)
        as [[-> Hd]|[[-> Hd]|[[-> Hd]|[[-> Hd]|[[-> Hd]|(?&?&?&?&?& Hd)]]]]];
      rewrite ?Hc, ?Hd in Heq;
      first
        [ apply app_inv_head in Heq; f_equal; by apply IH
        | exfalso; vm_compute in Heq; congruence
        | cbn [app] in Heq; injection Heq as -> Heq; f_equal; by apply IH ].
Qed.

Lemma html_escape_injective_witness : u "a<b>" = u "a<b>".
Proof.
  apply html_escape_injective. reflexivity.
Defined.

(** ** More on the chat front end *)

(** *** The rules of the triples *)

Section Triples.

Context (Inv : gmap string Bot.value -> Prop) (Ev : Bot.event -> Prop).

Lemma triple_ret {A} (Exc : exn -> Prop) (P : gmap string Bot.value -> Prop)
    (a : A) (Q : A -> gmap string Bot.value -> Prop) :
  (forall ud, P ud -> Q a ud) ->
  Notions.triple Inv Ev Exc P (Bot.ret a) Q.
Proof.
  intros HQ ud tg HP. cbn. split; [constructor|]. split; [by exists []|by apply HQ].
Qed.

Lemma triple_pure {A} (Exc : exn -> Prop) (P : gmap string Bot.value -> Prop)
    (fact : Prop) (m : Bot.Handler A) (Q : A -> gmap string Bot.value -> Prop) :
  (fact -> Notions.triple Inv Ev Exc P m Q) ->
  Notions.triple Inv Ev Exc (fun ud => P ud /\ fact) m Q.
Proof. intros Hm ud tg [HP Hfact]. by apply Hm. Qed.

Lemma triple_bind {A B} (Exc : exn -> Prop) (P : gmap string Bot.value -> Prop)
    (m : Bot.Handler A) (Q : A -> gmap string Bot.value -> Prop)
    (k : A -> Bot.Handler B) (R : B -> gmap string Bot.value -> Prop) :
  Notions.triple Inv Ev Exc P m Q ->
  (forall a, Notions.triple Inv Ev Exc (Q a) (k a) R) ->
  Notions.triple Inv Ev Exc P (Bot.hbind m k) R.
Proof.
  intros Hm Hk ud tg HP. specialize (Hm ud tg HP). unfold Bot.hbind.
  destruct (m (ud, tg)) as [[r [ud1 tg1]] ev1]. cbn in Hm.
  destruct Hm as (Hev & (used & ->) & Hr). destruct r as [a|e].
  - specialize (Hk a ud1 tg1 Hr).
    destruct (k a (ud1, tg1)) as [[r2 [ud2 tg2]] ev2]. cbn in Hk |- *.
    destruct Hk as (Hev2 & (used2 & ->) & Hr2).
    split; [by apply Forall_app|].
    split; [exists (used ++ used2); by rewrite app_assoc|].
    destruct r2 as [b|e]; [done|]. destruct Hr2 as [[Hin|Hexc] Hinv].
    + split; [left; apply elem_of_app; by right|done].
    + split; [by right|done].
  - cbn. split; [done|]. split; [by exists used|done].
Qed.

Lemma triple_conseq {A} (Exc Exc' : exn -> Prop)
    (P P' : gmap string Bot.value -> Prop) (m : Bot.Handler A)
    (Q Q' : A -> gmap string Bot.value -> Prop) :
  Notions.triple Inv Ev Exc P m Q ->
  (forall ud, P' ud -> P ud) -> (forall a ud, Q a ud -> Q' a ud) ->
  (forall e, Exc e -> Exc' e) ->
  Notions.triple Inv Ev Exc' P' m Q'.
Proof.
  intros Hm HP HQ HE ud tg HP'. destruct (Hm ud tg (HP ud HP')) as (Hev & Hused & Hr).
  split; [done|]. split; [done|].
  destruct ((m (ud, tg)).1.1) as [a|e]; [by apply HQ|].
  destruct Hr as [[Hin|Hexc] Hinv]; split; auto.
Qed.

Lemma triple_call (Exc : exn -> Prop) (P : gmap string Bot.value -> Prop)
    (e : Bot.event) :
  Ev e -> (forall ud, P ud -> Inv ud) ->
  Notions.triple Inv Ev Exc P (Bot.call e) (fun _ ud => P ud).
Proof.
  intros He HInv ud tg HP. unfold Bot.call. cbn [fst snd].
  destruct tg as [|[x|] tg]; cbn; (split; [by repeat constructor|]).
  - split; [by exists []|done].
  - split; [by exists [Some x]|]. split; [left; left|by apply HInv].
  - split; [by exists [None]|done].
Qed.

Lemma triple_emit (Exc : exn -> Prop) (P : gmap string Bot.value -> Prop)
    (e : Bot.event) :
  Ev e -> Notions.triple Inv Ev Exc P (Bot.emit e) (fun _ ud => P ud).
Proof.
  intros He ud tg HP. cbn. split; [by repeat constructor|].
  split; [by exists []|done].
Qed.

Lemma triple_set_item (Exc : exn -> Prop) (P Q : gmap string Bot.value -> Prop)
    (k : string) (v : Bot.value) :
  (forall ud, P ud -> Q (<[k := v]> ud)) ->
  Notions.triple Inv Ev Exc P (Bot.set_item k v) (fun _ ud => Q ud).
Proof.
  intros HQ ud tg HP. cbn. split; [constructor|]. split; [by exists []|by apply HQ].
Qed.

Lemma triple_get_item (Exc : exn -> Prop) (P : gmap string Bot.value -> Prop)
    (k : string) :
  Notions.triple Inv Ev Exc P (Bot.get_item k) (fun v ud => v = ud !! k /\ P ud).
Proof.
  intros ud tg HP. cbn. split; [constructor|]. split; [by exists []|done].
Qed.

(** The exceptions of the counting pipeline are not those of a Telegram
    call: a [lift] is only sound where every exception is allowed. *)
Lemma triple_lift {A} (P : gmap string Bot.value -> Prop) (r : result A) :
  (forall ud, P ud -> Inv ud) ->
  Notions.triple Inv Ev (fun _ => True) P (Bot.lift r) (fun _ ud => P ud).
Proof.
  intros HInv ud tg HP. cbn. split; [constructor|]. split; [by exists []|].
  destruct r; [done|]. split; [by right|by apply HInv].
Qed.

Lemma triple_catch {A} (Exc : exn -> Prop) (P : gmap string Bot.value -> Prop)
    (m : Bot.Handler A) (h : exn -> Bot.Handler A)
    (Q : A -> gmap string Bot.value -> Prop) :
  Notions.triple Inv Ev (fun _ => True) P m Q ->
  (forall e, Notions.triple Inv Ev Exc Inv (h e) Q) ->
  Notions.triple Inv Ev Exc P (Bot.catch m h) Q.
Proof.
  intros Hm Hh ud tg HP. specialize (Hm ud tg HP). unfold Bot.catch.
  destruct (m (ud, tg)) as [[r [ud1 tg1]] ev1]. cbn in Hm.
  destruct Hm as (Hev & (used & ->) & Hr). destruct r as [a|e].
  - cbn. split; [done|]. split; [by exists used|done].
  - destruct Hr as [_ Hinv]. specialize (Hh e ud1 tg1 Hinv).
    destruct (h e (ud1, tg1)) as [[r2 [ud2 tg2]] ev2]. cbn in Hh |- *.
    destruct Hh as (Hev2 & (used2 & ->) & Hr2).
    split; [by apply Forall_app|].
    split; [exists (used ++ used2); by rewrite app_assoc|].
    destruct r2 as [b|e2]; [done|]. destruct Hr2 as [[Hin|Hexc] Hinv2].
    + split; [left; apply elem_of_app; by right|done].
    + split; [by right|done].
Qed.

(** Every call of the Telegram API is an event that [Ev] allows. *)
Hypothesis Ev_calls : forall e, Notions.is_run_count e = false -> Ev e.

(** A reply to a message that is missing raises: the exception has to
    be one of those that [Exc] allows. *)
Lemma triple_reply (Exc : exn -> Prop) (P : gmap string Bot.value -> Prop)
    (present : bool) (e : Bot.event) :
  Notions.is_run_count e = false ->
  (forall ud, P ud -> Inv ud) ->
  (present = true \/ Exc (Bot.no_attribute "reply_text")) ->
  Notions.triple Inv Ev Exc P (Bot.reply present e) (fun _ ud => P ud).
Proof.
  intros He HInv Hpresent. unfold Bot.reply. destruct present.
  - apply triple_call; [by apply Ev_calls|done].
  - destruct Hpresent as [|Hexc]; [done|].
    intros ud tg HP. cbn. split; [constructor|]. split; [by exists []|].
    split; [by right|by apply HInv].
Qed.

Lemma triple_reply_text (Exc : exn -> Prop) (P : gmap string Bot.value -> Prop)
    (present : bool) (text : str) :
  (forall ud, P ud -> Inv ud) ->
  (present = true \/ Exc (Bot.no_attribute "reply_text")) ->
  Notions.triple Inv Ev Exc P (Bot.reply_text present text) (fun _ ud => P ud).
Proof. intros HInv Hpresent. by apply triple_reply. Qed.

Context (check : str -> option str) (quote : str -> str)
  (fetch_and_extract : str -> Path -> result FileSystem) (tmp : Path).

Lemma run_count_triple (Exc : exn -> Prop) (present : bool) (url : str) (n : Z) :
  Ev (Bot.RunCount url n) ->
  (forall ud, Inv ud -> Inv (<["last_url" := Bot.VStr url]> ud)) ->
  (present = true \/ Exc (Bot.no_attribute "reply_text")) ->
  Notions.triple Inv Ev Exc Inv
    (Bot._run_count check quote fetch_and_extract tmp present url n)
    (fun _ ud => Inv ud).
Proof.
  intros Hrun Hset Hpresent. unfold Bot._run_count.
  eapply triple_bind; [by apply (triple_set_item _ Inv Inv)|].
  intros ?. eapply triple_bind; [by apply triple_reply_text|].
  intros ?. apply triple_catch.
  - unfold Bot.count_and_reply.
    eapply triple_bind; [by apply triple_emit|].
    intros ?. eapply triple_bind; [by apply triple_lift|].
    intros [[per_file total] top].
    apply triple_reply; [done|done|]. destruct present; [by left|by right].
  - intros e. unfold Bot.report_failure. by apply triple_reply_text.
Qed.

End Triples.

(** *** The handlers, when the Telegram calls succeed *)

Section BotExtras.

Variable check : str -> option str.
Variable quote : str -> str.
Variable fetch_and_extract : str -> Path -> result FileSystem.
Variable tmp : Path.
Variable int_of_str : str -> result Z.

Lemma run_count_outcome (url : str) (top : Z) (ud : gmap string Bot.value) :
  exists text html kb,
    Bot._run_count check quote fetch_and_extract tmp true url top (ud, [])
    = (Ok tt, (<["last_url" := Bot.VStr url]> ud, []),
       [ Bot.Reply (u "Рахую рядки коду, зачекай...") false Bot.NoMarkup;
         Bot.RunCount url top;
         Bot.Reply text html kb ])
    /\ (kb = Bot.InlineResultButtons
        <-> exists r, Bot._count_repo_from_url check quote fetch_and_extract tmp
                        url top
                      = Ok r)
    /\ (forall e,
          Bot._count_repo_from_url check quote fetch_and_extract tmp url top
          = Raise e ->
          text = Bot.failure_text e /\ html = false).
Proof.
  unfold Bot._run_count, Bot.catch, Bot.count_and_reply, Bot.report_failure,
    Bot.hbind, Bot.set_item, Bot.reply_text, Bot.reply, Bot.call, Bot.emit,
    Bot.lift.
  cbn [fst snd].
  destruct (Bot._count_repo_from_url check quote fetch_and_extract tmp url top)
    as [[[per_file total] top']|e].
  - do 3 eexists. split; [reflexivity|]. split; [|done].
    split; [by eexists|done].
  - do 3 eexists. split; [reflexivity|]. split.
    + split; [done|]. by intros (r & Hr).
    + by intros e' [= <-].
Qed.

Lemma run_count_unacknowledged (url : str) (top : Z) (ud : gmap string Bot.value)
    (e : exn) (tg : list (option exn)) :
  Bot._run_count check quote fetch_and_extract tmp true url top (ud, Some e :: tg)
  = (Raise e, (<["last_url" := Bot.VStr url]> ud, tg),
     [Bot.Reply (u "Рахую рядки коду, зачекай...") false Bot.NoMarkup]).
Proof. reflexivity. Qed.

Lemma run_count_no_message (url : str) (top : Z) (ud : gmap string Bot.value)
    (tg : list (option exn)) :
  Bot._run_count check quote fetch_and_extract tmp false url top (ud, tg)
  = (Raise (Bot.no_attribute "reply_text"),
     (<["last_url" := Bot.VStr url]> ud, tg), []).
Proof. reflexivity. Qed.

Lemma get_user_top_well_formed (ud : gmap string Bot.value) (tg : list (option exn)) :
  Notions.well_formed ud ->
  exists n, Bot._get_user_top int_of_str (ud, tg) = (Ok n, (ud, tg), [])
            /\ (n = 10 \/ n = 20)
            /\ (ud !! "top" = None -> n = 10)
            /\ (forall m, ud !! "top" = Some (Bot.VInt m) -> n = m).
Proof.
  intros [Htop _]. unfold Bot._get_user_top, Bot.hbind, Bot.get_item. cbn [fst].
  destruct (ud !! "top") as [v|] eqn:Hv.
  - destruct (Htop v eq_refl) as [-> | ->].
    + exists 10. split; [reflexivity|]. split; [by left|]. split; [done|].
      by intros m [= <-].
    + exists 20. split; [reflexivity|]. split; [by right|]. split; [done|].
      by intros m [= <-].
  - exists 10. split; [reflexivity|]. split; [by left|]. done.
Qed.

Lemma well_formed_set_top (n : Z) (ud : gmap string Bot.value) :
  n = 10 \/ n = 20 -> Notions.well_formed ud ->
  Notions.well_formed (<["top" := Bot.VInt n]> ud).
Proof.
  intros Hn [Htop Hurl]. split.
  - intros v. rewrite lookup_insert_eq. intros [= <-]. by destruct Hn as [-> | ->]; [left|right].
  - intros v. rewrite lookup_insert_ne by done. apply Hurl.
Qed.

Lemma well_formed_set_url (url : str) (ud : gmap string Bot.value) :
  Notions.well_formed ud ->
  Notions.well_formed (<["last_url" := Bot.VStr url]> ud).
Proof.
  intros [Htop Hurl]. split.
  - intros v. rewrite lookup_insert_ne by done. apply Htop.
  - intros v. rewrite lookup_insert_eq. intros [= <-]. by eexists.
Qed.

End BotExtras.

Lemma link_here_head (s : str) :
  Spec.link_here s = true -> exists c t, s = c :: t /\ Py.isspace c = false.
Proof.
  unfold Spec.link_here, Spec.scheme_then_char.
  destruct s as [|c t]; [done|]. intros Hlink. exists c, t. split; [done|].
  apply (ignorecase_nonspace 104 c); [|done].
  apply orb_true_iff in Hlink as [H|H]; apply andb_true_iff in H as [H _];
    change (u "http://") with (104 :: u "ttp://") in H;
    change (u "https://") with (104 :: u "ttps://") in H;
    cbn [Spec.ci_startswith] in H; by apply andb_true_iff in H as [H _].
Qed.

Lemma extract_url_nonempty (text url : str) :
  Bot._extract_url text = Some url -> url <> [] /\ text <> [].
Proof.
  rewrite extract_url_first_proper_link. intros Hurl.
  destruct (first_proper_link_Some text url Hurl)
    as (before & after & -> & _ & Hafter & Hlink & _).
  apply link_here_head in Hlink as (c & t & Hct & Hc).
  destruct url as [|d url].
  - simpl in Hct. subst after. congruence.
  - split; [done|]. by destruct before.
Qed.

Lemma labels_hold_no_link :
  Bot._extract_url Bot.BTN_COUNT = None /\ Bot._extract_url Bot.BTN_TOP_10 = None
  /\ Bot._extract_url Bot.BTN_TOP_20 = None /\ Bot._extract_url Bot.BTN_HELP = None.
Proof. vm_compute. auto. Qed.

Lemma handle_button_text_other (present : bool) (text : str) :
  text <> Bot.BTN_COUNT -> text <> Bot.BTN_TOP_10 -> text <> Bot.BTN_TOP_20 ->
  text <> Bot.BTN_HELP ->
  Bot.handle_button_text present text = Bot.ret false.
Proof.
  intros H1 H2 H3 H4. unfold Bot.handle_button_text.
  by rewrite !bool_decide_eq_false_2.
Qed.

(** X14. The preference that [_set_user_top] stores is the one that
    [_get_user_top] reads back; without a stored preference the top-N is
    10; and [/start] resets it to 10 whatever it was, also when its reply
    cannot be sent. *)
Theorem user_top_round_trip
    (int_of_str : str -> result Z) (n : Z) (ud : gmap string Bot.value)
    (tg : list (option exn)) :
  Bot.hbind (Bot._set_user_top n) (fun _ => Bot._get_user_top int_of_str) (ud, tg)
  = (Ok n, (<["top" := Bot.VInt n]> ud, tg), [])
  /\ (ud !! "top" = None ->
      Bot._get_user_top int_of_str (ud, tg) = (Ok 10, (ud, tg), []))
  /\ (Bot.hbind (Bot.start true) (fun _ => Bot._get_user_top int_of_str)
        (ud, [])).1.1
     = Ok 10
  /\ (forall present,
        (Bot.start present (ud, tg)).1.2.1 !! "top" = Some (Bot.VInt 10)).
Proof.
  split; [|split; [|split]].
  - cbv beta iota zeta delta [Bot.hbind Bot._set_user_top Bot._get_user_top
      Bot.set_item Bot.get_item Bot.ret fst snd].
    by rewrite lookup_insert_eq.
  - intros Hnone.
    cbv beta iota zeta delta [Bot.hbind Bot._get_user_top Bot.get_item Bot.ret
      fst snd].
    by rewrite Hnone.
  - cbv beta iota zeta delta [Bot.hbind Bot.start Bot._set_user_top
      Bot._get_user_top Bot.set_item Bot.get_item Bot.reply Bot.call Bot.ret
      fst snd].
    by rewrite lookup_insert_eq.
  - intros present.
    cbv beta iota zeta delta [Bot.hbind Bot.start Bot._set_user_top
      Bot.set_item Bot.reply Bot.call Bot.lift fst snd].
    destruct present; [destruct tg as [|[e|] tg]|]; cbn [fst snd];
      by rewrite lookup_insert_eq.
Qed.

Lemma user_top_round_trip_witness :
  Bot._get_user_top (fun _ => Raise (ValueError [])) (∅, []) = (Ok 10, (∅, []), []).
Proof.
  by apply (user_top_round_trip (fun _ => Raise (ValueError [])) 0 ∅ []).
Defined.

(** X15. [_run_count] stores the URL under [last_url] before anything
    else, so also when the count or a reply fails.  When the
    acknowledgement cannot be sent, because the call raises or because
    the update carries no message to reply to, the exception leaves the
    handler and no count is run.  When the message is there and the
    Telegram calls succeed, the handler returns normally whatever the
    pipeline does: it sends the acknowledgement, runs the pipeline once,
    and sends exactly one more reply, which carries the result and the
    refresh buttons when the count succeeded and is the error text for
    the kind of the exception otherwise. *)
Theorem run_count_always_replies
    (check : str -> option str) (quote : str -> str)
    (fetch_and_extract : str -> Path -> result FileSystem)
    (tmp : Path) (url : str) (top : Z) (ud : gmap string Bot.value)
    (tg : list (option exn)) :
  let run := Bot._run_count check quote fetch_and_extract tmp in
  let ack := Bot.Reply (u "Рахую рядки коду, зачекай...") false Bot.NoMarkup in
  (forall present,
     (run present url top (ud, tg)).1.2.1 = <["last_url" := Bot.VStr url]> ud)
  /\ (forall e rest,
        tg = Some e :: rest ->
        run true url top (ud, tg)
        = (Raise e, (<["last_url" := Bot.VStr url]> ud, rest), [ack]))
  /\ run false url top (ud, tg)
     = (Raise (Bot.no_attribute "reply_text"),
        (<["last_url" := Bot.VStr url]> ud, tg), [])
  /\ (exists text html kb,
        run true url top (ud, [])
        = (Ok tt, (<["last_url" := Bot.VStr url]> ud, []),
           [ack; Bot.RunCount url top; Bot.Reply text html kb])
        /\ (kb = Bot.InlineResultButtons
            <-> exists r, Bot._count_repo_from_url check quote fetch_and_extract
                            tmp url top
                          = Ok r)
        /\ (forall e,
              Bot._count_repo_from_url check quote fetch_and_extract tmp url top
              = Raise e ->
              text = Bot.failure_text e /\ html = false)).
Proof.
  intros run ack. split; [|split; [|split]].
  - intros [|]; [|reflexivity].
    unfold run, Bot._run_count, Bot.catch, Bot.count_and_reply, Bot.report_failure,
      Bot.hbind, Bot.set_item, Bot.reply_text, Bot.reply, Bot.call, Bot.emit,
      Bot.lift.
    cbn [fst snd].
    destruct tg as [|[e|] tg]; [|done|];
      (destruct (Bot._count_repo_from_url check quote fetch_and_extract tmp url top)
         as [[[per_file total] top']|e']; cbn [fst snd]).
    + done.
    + done.
    + by destruct tg as [|[e|] [|[e'|] tg]].
    + by destruct tg as [|[e|] tg].
  - intros e rest ->. apply run_count_unacknowledged.
  - apply run_count_no_message.
  - apply run_count_outcome.
Qed.

Lemma run_count_always_replies_witness :
  (Bot._run_count (fun _ => None) (fun b => b)
     (fun _ _ => Raise (OtherError (u "connection reset"))) Demo.scratch true
     (u "https://github.com/acme/widgets") 10 (∅, [])).2
  = [ Bot.Reply (u "Рахую рядки коду, зачекай...") false Bot.NoMarkup;
      Bot.RunCount (u "https://github.com/acme/widgets") 10;
      Bot.Reply (u "Невідома помилка: connection reset") false Bot.NoMarkup ].
Proof.
  destruct (run_count_always_replies (fun _ => None) (fun b => b)
              (fun _ _ => Raise (OtherError (u "connection reset"))) Demo.scratch
              (u "https://github.com/acme/widgets") 10 ∅ [])
    as (_ & _ & _ & (text & html & kb & Hrun & Hkb & Hfail)).
  destruct (Hfail (OtherError (u "connection reset")) ltac:(vm_compute; reflexivity))
    as [-> ->].
  rewrite Hrun. cbn [snd].
  destruct kb; [reflexivity|..].
  - vm_compute in Hrun. discriminate.
  - destruct (proj1 Hkb eq_refl) as (r & Hr). vm_compute in Hr. discriminate.
Defined.

(** X16. A message without text, or of white space only, has no effect
    at all; a message that is no button label and holds no link gets the
    "no link" hint, and the session is left as it was.  An update that
    carries no new message makes the handler raise at once. *)
Theorem message_without_link
    (check : str -> option str) (quote : str -> str)
    (fetch_and_extract : str -> Path -> result FileSystem)
    (tmp : Path) (int_of_str : str -> result Z) (ud : gmap string Bot.value)
    (tg : list (option exn)) :
  let handle :=
    Bot.handle_message check quote fetch_and_extract tmp int_of_str in
  handle (Some None) (ud, tg) = (Ok tt, (ud, tg), [])
  /\ (forall text,
        Forall (fun c => Py.isspace c = true) text ->
        handle (Some (Some text)) (ud, tg) = (Ok tt, (ud, tg), []))
  /\ (forall text,
        Py.strip text <> [] ->
        Py.strip text ∉ [Bot.BTN_COUNT; Bot.BTN_TOP_10; Bot.BTN_TOP_20; Bot.BTN_HELP] ->
        Bot._extract_url (Py.strip text) = None ->
        handle (Some (Some text)) (ud, tg)
        = (match tg with Some e :: _ => Raise e | _ => Ok tt end,
           (ud, tail tg),
           [Bot.Reply (u "Не знайшов посилання. Надішли GitHub URL, наприклад:"
                       ++ [10] ++ u "https://github.com/owner/repo")
              false Bot.NoMarkup]))
  /\ handle None (ud, tg) = (Raise (Bot.no_attribute "text"), (ud, tg), []).
Proof.
  intros handle. unfold handle. split; [reflexivity|]. split; [|split].
  - intros text Hblank. unfold Bot.handle_message.
    change (default [] (Some text)) with text.
    assert (Hstrip : Py.strip text = [])
      by (by apply (proj2 (strip_with_nil Py.isspace text))).
    by rewrite Hstrip.
  - intros text Hne Hlabel Hnone. unfold Bot.handle_message.
    change (default [] (Some text)) with text.
    apply truthy_ne in Hne. rewrite Hne. cbn [negb].
    rewrite handle_button_text_other, Hnone; [by destruct tg as [|[e|] tg]|..];
      intros Heq; apply Hlabel; rewrite Heq.
    + left.
    + right; left.
    + do 2 right; left.
    + do 3 right; left.
  - reflexivity.
Qed.

Lemma message_without_link_witness :
  Bot.handle_message (fun _ => None) (fun b => b) (fun _ _ => Raise (URLError []))
    Demo.scratch (fun _ => Raise (ValueError [])) (Some (Some (u "  hello there ")))
    (Demo.session, [])
  = (Ok tt, (Demo.session, []),
     [Bot.Reply (u "Не знайшов посилання. Надішли GitHub URL, наприклад:"
                 ++ [10] ++ u "https://github.com/owner/repo")
        false Bot.NoMarkup]).
Proof.
  apply (message_without_link (fun _ => None) (fun b => b)
           (fun _ _ => Raise (URLError [])) Demo.scratch
           (fun _ => Raise (ValueError [])) Demo.session []).
  - by vm_compute.
  - apply (bool_decide_unpack _). vm_compute. exact I.
  - vm_compute. reflexivity.
Defined.

(** X17. A message that holds a link starts a count for that link with
    the stored preference (10 when none is stored): the link becomes
    [last_url], and, when the Telegram calls succeed, the events are the
    acknowledgement, one pipeline run and one final reply.  When the
    acknowledgement cannot be sent, its exception leaves the handler and
    no count is run. *)
Theorem message_with_link_runs_count
    (check : str -> option str) (quote : str -> str)
    (fetch_and_extract : str -> Path -> result FileSystem)
    (tmp : Path) (int_of_str : str -> result Z) (ud : gmap string Bot.value)
    (text url : str) :
  Notions.well_formed ud ->
  Bot._extract_url (Py.strip text) = Some url ->
  let handle :=
    Bot.handle_message check quote fetch_and_extract tmp int_of_str
      (Some (Some text)) in
  (exists n reply html kb,
     handle (ud, [])
     = (Ok tt, (<["last_url" := Bot.VStr url]> ud, []),
        [ Bot.Reply (u "Рахую рядки коду, зачекай...") false Bot.NoMarkup;
          Bot.RunCount url n;
          Bot.Reply reply html kb ])
     /\ (ud !! "top" = None -> n = 10)
     /\ (forall m, ud !! "top" = Some (Bot.VInt m) -> n = m))
  /\ (forall e tg,
        handle (ud, Some e :: tg)
        = (Raise e, (<["last_url" := Bot.VStr url]> ud, tg),
           [Bot.Reply (u "Рахую рядки коду, зачекай...") false Bot.NoMarkup])).
Proof.
  intros Hwf Hurl handle.
  destruct (extract_url_nonempty _ _ Hurl) as [Hne Htext].
  destruct labels_hold_no_link as (L1 & L2 & L3 & L4).
  assert (Hstep : forall tg,
            exists n,
              handle (ud, tg)
              = Bot._run_count check quote fetch_and_extract tmp true url n (ud, tg)
              /\ (ud !! "top" = None -> n = 10)
              /\ (forall m, ud !! "top" = Some (Bot.VInt m) -> n = m)).
  { intros tg.
    destruct (get_user_top_well_formed int_of_str ud tg Hwf)
      as (n & Hget & _ & Hnone & Hsome).
    exists n. split; [|by split].
    unfold handle, Bot.handle_message. change (default [] (Some text)) with text.
    apply truthy_ne in Htext. rewrite Htext. cbn [negb].
    rewrite handle_button_text_other, Hurl by (intros Heq; congruence).
    apply truthy_ne in Hne. rewrite Hne.
    unfold Bot.hbind at 1. unfold Bot.ret at 1. cbv iota beta.
    unfold Bot.hbind. rewrite Hget.
    by destruct (Bot._run_count check quote fetch_and_extract tmp true url n (ud, tg))
      as [[r st] ev]; rewrite app_nil_l. }
  split.
  - destruct (Hstep []) as (n & -> & Hnone & Hsome).
    destruct (run_count_outcome check quote fetch_and_extract tmp url n ud)
      as (reply & html & kb & Hrun & _).
    exists n, reply, html, kb. split; [exact Hrun|]. split; [exact Hnone|exact Hsome].
  - intros e tg. destruct (Hstep (Some e :: tg)) as (n & -> & _).
    apply run_count_unacknowledged.
Qed.

Lemma message_with_link_runs_count_witness :
  exists n reply html kb,
    Bot.handle_message (fun _ => None) (fun b => b)
      (fun _ _ => Raise (URLError (u "offline")))
      Demo.scratch (fun _ => Raise (ValueError []))
      (Some (Some (u "count https://github.com/acme/widgets please")))
      (Demo.session, [])
    = (Ok tt,
       (<["last_url" := Bot.VStr (u "https://github.com/acme/widgets")]> Demo.session,
        []),
       [ Bot.Reply (u "Рахую рядки коду, зачекай...") false Bot.NoMarkup;
         Bot.RunCount (u "https://github.com/acme/widgets") n;
         Bot.Reply reply html kb ])
    /\ n = 20.
Proof.
  destruct (message_with_link_runs_count (fun _ => None) (fun b => b)
              (fun _ _ => Raise (URLError (u "offline"))) Demo.scratch
              (fun _ => Raise (ValueError [])) Demo.session
              (u "count https://github.com/acme/widgets please")
              (u "https://github.com/acme/widgets"))
    as ((n & reply & html & kb & Hrun & _ & Hsome) & _).
  - split; intros v Hv; vm_compute in Hv; injection Hv as <-; [by right|by eexists].
  - vm_compute. reflexivity.
  - exists n, reply, html, kb. split; [exact Hrun|]. by apply Hsome.
Defined.

Lemma callback_refresh_cases
    (check : str -> option str) (quote : str -> str)
    (fetch_and_extract : str -> Path -> result FileSystem)
    (tmp : Path) (data : str) (ud : gmap string Bot.value) :
  let handle := Bot.handle_callback check quote fetch_and_extract tmp true data in
  (ud !! "last_url" = None \/ ud !! "last_url" = Some (Bot.VStr []) ->
   handle (ud, [])
   = (Ok tt, (ud, []),
      [ Bot.Answer;
        Bot.Reply (u "Немає останнього URL. Надішли нове посилання.") false
          Bot.NoMarkup ]))
  /\ (forall url,
        ud !! "last_url" = Some (Bot.VStr url) -> url <> [] ->
        data ∉ [u "refresh_top_10"; u "refresh_top_20"] ->
        handle (ud, []) = (Ok tt, (ud, []), [Bot.Answer]))
  /\ (forall url n,
        ud !! "last_url" = Some (Bot.VStr url) -> url <> [] ->
        (data, n) ∈ [(u "refresh_top_10", 10); (u "refresh_top_20", 20)] ->
        exists reply html kb,
          handle (ud, [])
          = (Ok tt,
             (<["last_url" := Bot.VStr url]> (<["top" := Bot.VInt n]> ud), []),
             [ Bot.Answer;
               Bot.Reply (u "Оновлюю результат з налаштуванням: Топ "
                          ++ Py.str_of_int n ++ u ".") false Bot.NoMarkup;
               Bot.Reply (u "Рахую рядки коду, зачекай...") false Bot.NoMarkup;
               Bot.RunCount url n;
               Bot.Reply reply html kb ]))
  /\ (forall e tg, handle (ud, Some e :: tg) = (Raise e, (ud, tg), [Bot.Answer])).
Proof.
  intros handle. unfold handle. split; [|split; [|split]].
  - intros [Hnone|Hempty]; unfold Bot.handle_callback, Bot.hbind, Bot.call,
      Bot.get_item, Bot.reply_text, Bot.reply, Bot.call; cbn [fst snd];
      [by rewrite Hnone|by rewrite Hempty].
  - intros url Hurl Hne Hdata.
    unfold Bot.handle_callback, Bot.hbind, Bot.call, Bot.get_item, Bot.ret.
    cbn [fst snd].
    rewrite Hurl. apply truthy_ne in Hne. rewrite Hne. cbn [negb].
    rewrite !bool_decide_eq_false_2; [done|..]; intros ->; apply Hdata.
    + right; left.
    + left.
  - intros url n Hurl Hne Hdata.
    destruct (run_count_outcome check quote fetch_and_extract tmp url n
                (<["top" := Bot.VInt n]> ud)) as (reply & html & kb & Hrun & _).
    exists reply, html, kb.
    cbv beta iota zeta delta [Bot.handle_callback Bot.hbind Bot.call Bot.get_item
      Bot.ret Bot._set_user_top Bot.set_item Bot.reply_text Bot.reply fst snd].
    rewrite Hurl. apply truthy_ne in Hne. rewrite Hne. cbn [negb].
    apply elem_of_cons in Hdata as [[= -> ->]|Hdata].
    + rewrite bool_decide_eq_true_2 by done.
      cbv beta iota zeta. by rewrite Hrun.
    + apply list_elem_of_singleton in Hdata as [= -> ->].
      rewrite bool_decide_eq_false_2 by done.
      rewrite bool_decide_eq_true_2 by done.
      cbv beta iota zeta. by rewrite Hrun.
  - reflexivity.
Qed.

(** X18. When the Telegram calls succeed: a refresh callback without a
    stored URL only answers and says so; with a stored URL and unknown
    callback data it only answers; with [refresh_top_10] or
    [refresh_top_20] it stores 10 or 20 as the preference and counts the
    stored URL again with that top-N.  When the callback cannot be
    answered, the exception leaves the handler and nothing else is
    done. *)
Theorem callback_refresh
    (check : str -> option str) (quote : str -> str)
    (fetch_and_extract : str -> Path -> result FileSystem)
    (tmp : Path) (data : str) (ud : gmap string Bot.value) :
  let handle := Bot.handle_callback check quote fetch_and_extract tmp true data in
  (ud !! "last_url" = None \/ ud !! "last_url" = Some (Bot.VStr []) ->
   handle (ud, [])
   = (Ok tt, (ud, []),
      [ Bot.Answer;
        Bot.Reply (u "Немає останнього URL. Надішли нове посилання.") false
          Bot.NoMarkup ]))
  /\ (forall url,
        ud !! "last_url" = Some (Bot.VStr url) -> url <> [] ->
        data ∉ [u "refresh_top_10"; u "refresh_top_20"] ->
        handle (ud, []) = (Ok tt, (ud, []), [Bot.Answer]))
  /\ (forall url n,
        ud !! "last_url" = Some (Bot.VStr url) -> url <> [] ->
        (data, n) ∈ [(u "refresh_top_10", 10); (u "refresh_top_20", 20)] ->
        exists reply html kb,
          handle (ud, [])
          = (Ok tt,
             (<["last_url" := Bot.VStr url]> (<["top" := Bot.VInt n]> ud), []),
             [ Bot.Answer;
               Bot.Reply (u "Оновлюю результат з налаштуванням: Топ "
                          ++ Py.str_of_int n ++ u ".") false Bot.NoMarkup;
               Bot.Reply (u "Рахую рядки коду, зачекай...") false Bot.NoMarkup;
               Bot.RunCount url n;
               Bot.Reply reply html kb ]))
  /\ (forall e tg, handle (ud, Some e :: tg) = (Raise e, (ud, tg), [Bot.Answer])).
Proof. apply callback_refresh_cases. Qed.

Lemma callback_refresh_witness :
  Bot.handle_callback (fun _ => None) (fun b => b) (fun _ _ => Raise (URLError []))
    Demo.scratch true (u "refresh_top_10") (∅, [])
  = (Ok tt, (∅, []),
     [ Bot.Answer;
       Bot.Reply (u "Немає останнього URL. Надішли нове посилання.") false
         Bot.NoMarkup ])
  /\ exists reply html kb,
       (Bot.handle_callback (fun _ => None) (fun b => b)
          (fun _ _ => Raise (URLError [])) Demo.scratch true (u "refresh_top_10")
          (Demo.session, [])).2
       = [ Bot.Answer;
           Bot.Reply (u "Оновлюю результат з налаштуванням: Топ 10.") false
             Bot.NoMarkup;
           Bot.Reply (u "Рахую рядки коду, зачекай...") false Bot.NoMarkup;
           Bot.RunCount (u "https://github.com/acme/widgets") 10;
           Bot.Reply reply html kb ].
Proof.
  split.
  - apply (callback_refresh (fun _ => None) (fun b => b)
             (fun _ _ => Raise (URLError [])) Demo.scratch (u "refresh_top_10") ∅).
    by left.
  - destruct (callback_refresh (fun _ => None) (fun b => b)
                (fun _ _ => Raise (URLError [])) Demo.scratch (u "refresh_top_10")
                Demo.session) as (_ & _ & Hrefresh & _).
    destruct (Hrefresh (u "https://github.com/acme/widgets") 10)
      as (reply & html & kb & Hrun).
    + reflexivity.
    + done.
    + left.
    + exists reply, html, kb. by rewrite Hrun.
Defined.

(** *** The invariant of a session *)

Lemma capped_calls (e : Bot.event) :
  Notions.is_run_count e = false -> Notions.count_is_capped e.
Proof. by destruct e. Qed.

Section SessionInvariant.

Variable check : str -> option str.
Variable quote : str -> str.
Variable fetch_and_extract : str -> Path -> result FileSystem.
Variable tmp : Path.
Variable int_of_str : str -> result Z.

(** The exceptions, besides those of the Telegram calls, that may leave
    a handler. *)
Variable Exc : exn -> Prop.

Lemma get_user_top_triple :
  Notions.triple Notions.well_formed Notions.count_is_capped Exc
    Notions.well_formed (Bot._get_user_top int_of_str)
    (fun n ud => Notions.well_formed ud /\ (n = 10 \/ n = 20)).
Proof.
  intros ud tg Hwf.
  destruct (get_user_top_well_formed int_of_str ud tg Hwf) as (n & -> & Hn & _).
  cbn. split; [constructor|]. split; [by exists []|done].
Qed.

Lemma reply_triple (present : bool) (e : Bot.event) :
  Notions.is_run_count e = false ->
  present = true \/ Exc (Bot.no_attribute "reply_text") ->
  Notions.handles Exc (Bot.reply present e).
Proof. intros He Hpresent. apply triple_reply; [apply capped_calls|done..]. Qed.

Lemma reply_text_triple (present : bool) (text : str) :
  present = true \/ Exc (Bot.no_attribute "reply_text") ->
  Notions.handles Exc (Bot.reply_text present text).
Proof. by apply reply_triple. Qed.

Lemma set_user_top_triple (n : Z) :
  n = 10 \/ n = 20 -> Notions.handles Exc (Bot._set_user_top n).
Proof.
  intros Hn. apply triple_set_item. intros ud. by apply well_formed_set_top.
Qed.

Lemma start_triple (present : bool) :
  present = true \/ Exc (Bot.no_attribute "reply_text") ->
  Notions.handles Exc (Bot.start present).
Proof.
  intros Hpresent. unfold Bot.start.
  eapply triple_bind; [apply set_user_top_triple; by left|].
  intros ?. by apply reply_triple.
Qed.

Lemma help_cmd_triple (present : bool) :
  present = true \/ Exc (Bot.no_attribute "reply_text") ->
  Notions.handles Exc (Bot.help_cmd present).
Proof. intros Hpresent. by apply reply_triple. Qed.

Lemma run_count_handles (present : bool) (url : str) (n : Z) :
  present = true \/ Exc (Bot.no_attribute "reply_text") ->
  n = 10 \/ n = 20 ->
  Notions.handles Exc
    (Bot._run_count check quote fetch_and_extract tmp present url n).
Proof.
  intros Hpresent Hn. apply run_count_triple; [apply capped_calls|exact Hn| |done].
  intros ud. apply well_formed_set_url.
Qed.

Lemma handle_button_text_triple (text : str) :
  Notions.handles Exc (Bot.handle_button_text true text).
Proof.
  unfold Bot.handle_button_text.
  case_bool_decide.
  { eapply triple_bind; [apply reply_text_triple; by left|].
    intros ?. by apply triple_ret. }
  case_bool_decide.
  { eapply triple_bind; [apply set_user_top_triple; by left|]. intros ?.
    eapply triple_bind; [apply reply_text_triple; by left|].
    intros ?. by apply triple_ret. }
  case_bool_decide.
  { eapply triple_bind; [apply set_user_top_triple; by right|]. intros ?.
    eapply triple_bind; [apply reply_text_triple; by left|].
    intros ?. by apply triple_ret. }
  case_bool_decide.
  { eapply triple_bind; [apply help_cmd_triple; by left|].
    intros ?. by apply triple_ret. }
  by apply triple_ret.
Qed.

Lemma handle_message_triple (message : option (option str)) :
  is_Some message \/ Exc (Bot.no_attribute "text") ->
  Notions.handles Exc
    (Bot.handle_message check quote fetch_and_extract tmp int_of_str message).
Proof.
  intros Hmessage. unfold Bot.handle_message.
  destruct message as [message_text|].
  - destruct (Py.truthy _); cbn [negb]; [|by apply triple_ret].
    eapply triple_bind; [apply handle_button_text_triple|].
    intros [|]; [by apply triple_ret|].
    destruct (Bot._extract_url _) as [url|]; [|apply reply_text_triple; by left].
    destruct (Py.truthy url); [|apply reply_text_triple; by left].
    eapply triple_bind; [apply get_user_top_triple|].
    intros n. apply triple_pure. apply run_count_handles. by left.
  - destruct Hmessage as [[? [=]]|Hexc].
    intros ud tg Hwf. cbn. split; [constructor|]. split; [by exists []|].
    split; [by right|done].
Qed.

Lemma handle_callback_triple (present : bool) (data : str) :
  present = true \/ Exc (Bot.no_attribute "reply_text") ->
  Notions.handles Exc
    (Bot.handle_callback check quote fetch_and_extract tmp present data).
Proof.
  intros Hpresent. unfold Bot.handle_callback.
  eapply triple_bind; [apply triple_call; [exact I|done]|]. intros ?.
  eapply triple_bind; [apply triple_get_item|]. intros last_url.
  eapply triple_conseq with (P := Notions.well_formed)
                            (Q := fun _ ud => Notions.well_formed ud)
                            (Exc := Exc);
    [|by intros ud [_ Hwf]|done|done].
  destruct last_url as [[n|url]|];
    [by apply reply_text_triple| |by apply reply_text_triple].
  destruct (Py.truthy url); cbn [negb]; [|by apply reply_text_triple].
  case_bool_decide.
  { eapply triple_bind; [apply set_user_top_triple; by left|]. intros ?.
    eapply triple_bind; [by apply reply_text_triple|]. intros ?.
    apply run_count_handles; [done|by left]. }
  case_bool_decide.
  { eapply triple_bind; [apply set_user_top_triple; by right|]. intros ?.
    eapply triple_bind; [by apply reply_text_triple|]. intros ?.
    apply run_count_handles; [done|by right]. }
  by apply triple_ret.
Qed.

Lemma dispatch_triple (upd : Notions.update) :
  Notions.carries_message upd = true \/ (forall e, Notions.message_missing e -> Exc e) ->
  Notions.handles Exc
    (Notions.dispatch check quote fetch_and_extract tmp int_of_str upd).
Proof.
  intros Hupd.
  assert (Hreply : forall present,
            Notions.carries_message upd = present ->
            present = true \/ Exc (Bot.no_attribute "reply_text")).
  { intros present <-. destruct Hupd as [->|Hexc]; [by left|].
    right. apply Hexc. by right. }
  destruct upd as [present|present|message|present data]; cbn [Notions.dispatch].
  - by apply start_triple, Hreply.
  - by apply help_cmd_triple, Hreply.
  - apply handle_message_triple. destruct Hupd as [Hsome|Hexc].
    + left. by apply bool_decide_eq_true in Hsome.
    + right. apply Hexc. by left.
  - by apply handle_callback_triple, Hreply.
Qed.

Lemma run_session_invariant (updates : list Notions.update)
    (ud : gmap string Bot.value) (tg : list (option exn)) :
  Forall (fun upd => Notions.carries_message upd = true
                     \/ (forall e, Notions.message_missing e -> Exc e)) updates ->
  Notions.well_formed ud ->
  let out :=
    Notions.run_session check quote fetch_and_extract tmp int_of_str updates
      (ud, tg) in
  Notions.well_formed out.1.1.1
  /\ Forall Notions.count_is_capped out.1.2
  /\ (forall e, e ∈ out.2 -> Some e ∈ tg \/ Exc e).
Proof.
  intros Hupds. revert ud tg.
  induction Hupds as [|upd updates Hupd _ IH]; intros ud tg Hwf.
  - cbn. split; [done|]. split; [constructor|]. intros e He. by apply elem_of_nil in He.
  - cbn [Notions.run_session].
    destruct (dispatch_triple upd Hupd ud tg Hwf) as (Hev & (used & Hused) & Hr).
    destruct (Notions.dispatch check quote fetch_and_extract tmp int_of_str upd
                (ud, tg)) as [[r [ud1 tg1]] ev1].
    cbn [fst snd] in Hev, Hused, Hr.
    assert (Hwf1 : Notions.well_formed ud1) by (destruct r; [done|by destruct Hr]).
    specialize (IH ud1 tg1 Hwf1).
    destruct (Notions.run_session check quote fetch_and_extract tmp int_of_str
                updates (ud1, tg1)) as [[[ud2 tg2] ev2] raised].
    cbn [fst snd] in IH |- *. destruct IH as (Hwf2 & Hev2 & Hraised).
    split; [done|]. split; [by apply Forall_app|].
    assert (Hlater : forall e, e ∈ raised -> Some e ∈ tg \/ Exc e).
    { intros e He. destruct (Hraised e He) as [Hin|Hexc]; [left|by right].
      rewrite Hused. apply elem_of_app. by right. }
    destruct r as [[]|e0]; [done|].
    intros e [->|He]%elem_of_cons; [|by apply Hlater].
    by destruct Hr as [Hr _].
Qed.

End SessionInvariant.

(** X19. Over a whole session, starting from a [user_data] that holds
    at most a top-N of 10 or 20 and a URL string (the empty one of a new
    user in particular), whatever the updates carry and whatever the
    pipeline and the Telegram calls do, also when handlers raise: the
    stored top-N stays 10 or 20, and every count that is run is run with
    top-N 10 or 20. *)
Theorem session_invariant
    (check : str -> option str) (quote : str -> str)
    (fetch_and_extract : str -> Path -> result FileSystem)
    (tmp : Path) (int_of_str : str -> result Z)
    (updates : list Notions.update) (ud : gmap string Bot.value)
    (tg : list (option exn)) :
  Notions.well_formed ud ->
  let out :=
    Notions.run_session check quote fetch_and_extract tmp int_of_str updates
      (ud, tg) in
  Notions.well_formed out.1.1.1 /\ Forall Notions.count_is_capped out.1.2.
Proof.
  intros Hwf out.
  destruct (run_session_invariant check quote fetch_and_extract tmp int_of_str
              (fun _ => True) updates ud tg) as (Hwf' & Hev & _); [|done|done].
  apply Forall_forall. intros upd _. by right.
Qed.

Lemma session_invariant_witness :
  Forall Notions.count_is_capped
    (Notions.run_session (fun _ => None) (fun b => b)
       (fun _ _ => Raise (OtherError (u "offline")))
       Demo.scratch (fun _ => Raise (ValueError []))
       [ Notions.CmdStart true;
         Notions.Text (Some (Some (u "https://github.com/acme/widgets")));
         Notions.Callback true (u "refresh_top_20");
         Notions.Text None ] (∅, [None; Some (OtherError (u "Timed out"))])).1.2.
Proof.
  apply (session_invariant (fun _ => None) (fun b => b)
           (fun _ _ => Raise (OtherError (u "offline")))
           Demo.scratch (fun _ => Raise (ValueError []))).
  split; intros v Hv; by rewrite lookup_empty in Hv.
Defined.

(** X24. Over a whole session as in X19, every exception that leaves a
    handler was raised by a Telegram call, or is the [AttributeError] of
    an update that does not carry the message its handler replies to.
    So when every update carries its message and the Telegram calls
    succeed, no handler lets an exception out: the exceptions of the
    counting pipeline, of whatever kind, are all answered with a
    reply. *)
Theorem session_exceptions
    (check : str -> option str) (quote : str -> str)
    (fetch_and_extract : str -> Path -> result FileSystem)
    (tmp : Path) (int_of_str : str -> result Z)
    (updates : list Notions.update) (ud : gmap string Bot.value)
    (tg : list (option exn)) :
  Notions.well_formed ud ->
  let raised :=
    (Notions.run_session check quote fetch_and_extract tmp int_of_str updates
       (ud, tg)).2 in
  (forall e, e ∈ raised -> Some e ∈ tg \/ Notions.message_missing e)
  /\ (Forall (fun upd => Notions.carries_message upd = true) updates ->
      (forall e, e ∈ raised -> Some e ∈ tg)
      /\ (Forall (fun outcome => outcome = None) tg -> raised = [])).
Proof.
  intros Hwf raised. split.
  - destruct (run_session_invariant check quote fetch_and_extract tmp int_of_str
                Notions.message_missing updates ud tg) as (_ & _ & Hraised);
      [|done|done].
    apply Forall_forall. intros upd _. by right.
  - intros Hcarry.
    assert (Hraised : forall e, e ∈ raised -> Some e ∈ tg).
    { destruct (run_session_invariant check quote fetch_and_extract tmp int_of_str
                  (fun _ => False) updates ud tg) as (_ & _ & Hraised);
        [|done|].
      - eapply Forall_impl; [exact Hcarry|]. intros upd Hupd. by left.
      - intros e He. by destruct (Hraised e He). }
    split; [done|].
    intros Hcalm. fold raised in Hraised. destruct raised as [|e raised']; [done|].
    assert (Hin : Some e ∈ tg) by (apply Hraised; left).
    rewrite Forall_forall in Hcalm. by specialize (Hcalm _ Hin).
Qed.

Lemma session_exceptions_witness :
  (Notions.run_session (fun _ => None) (fun b => b)
     (fun _ _ => Raise (OtherError (u "offline")))
     Demo.scratch (fun _ => Raise (ValueError []))
     [ Notions.CmdStart true;
       Notions.Text (Some (Some (u "https://github.com/acme/widgets")));
       Notions.Callback true (u "refresh_top_20") ] (∅, [None; None])).2
  = [].
Proof.
  pose proof (session_exceptions (fun _ => None) (fun b => b)
                (fun _ _ => Raise (OtherError (u "offline")))
                Demo.scratch (fun _ => Raise (ValueError []))
                [ Notions.CmdStart true;
                  Notions.Text (Some (Some (u "https://github.com/acme/widgets")));
                  Notions.Callback true (u "refresh_top_20") ] ∅ [None; None])
    as H.
  cbv zeta in H. destruct H as (_ & Hcarry).
  - split; intros v Hv; by rewrite lookup_empty in Hv.
  - destruct Hcarry as [_ Hcalm]; [by repeat constructor|].
    apply Hcalm. by repeat constructor.
Defined.

(** ** The command line *)




(** X21. Without a target, [main] counts the current directory when the
    input is not a terminal, and also when the terminal answers the prompt
    with the end of input or with white space only; in the last two cases
    the prompt is written first. *)
Theorem main_default_target (args : Cli.Args) (env : Cli.Env) :
  Cli.target args = None ->
  let here := {| Cli.target := Some (u "."); Cli.ext := Cli.ext args;
                 Cli.ignore_dirs := Cli.ignore_dirs args; Cli.top := Cli.top args |} in
  (Cli.isatty env = false -> Cli.main args env = Cli.main here env)
  /\ (Cli.isatty env = true ->
      Cli.input env = None
      \/ (exists answer, Cli.input env = Some answer
                         /\ Forall (fun c => Py.isspace c = true) answer) ->
      Cli.main args env
      = (Cli.Prompt (u "Paste GitHub URL or local path (Enter = current folder): ")
           :: (Cli.main here env).1,
         (Cli.main here env).2)).
Proof.
  intros Hnone here. unfold Cli.main, Cli.resolve_target.
  rewrite Hnone. cbn [Cli.target Cli.ext Cli.ignore_dirs Cli.top here].
  split.
  - by intros ->.
  - intros -> Hblank.
    assert (Hinput : match Cli.input env with
                     | Some answer => Py.strip answer
                     | None => []
                     end = []).
    { destruct Hblank as [->|(answer & -> & Hws)]; [done|].
      by apply (proj2 (strip_with_nil Py.isspace answer)). }
    rewrite Hinput. cbn [Py.truthy].
    destruct (Cli.count_target env (u ".") _ _) as [[head [files total]]|e];
      [reflexivity|]. by destruct (Cli.caught e).
Qed.

Lemma main_default_target_witness :
  (Cli.main {| Cli.target := None; Cli.ext := u "py"; Cli.ignore_dirs := u ".git";
               Cli.top := 20 |}
     {| Cli.isatty := true; Cli.input := Some (u "  ");
        Cli.resolve := fun _ => Ok Demo.small_root; Cli.local_fs := Demo.small_fs;
        Cli.check_bracketed_netloc := fun _ => None;
        Cli.quote := fun b => b;
        Cli.fetch_and_extract := fun _ _ => Raise (URLError (u "offline"));
        Cli.tmp := Demo.scratch |}).2 = Ok 0.
Proof.
  pose proof (main_default_target
    {| Cli.target := None; Cli.ext := u "py"; Cli.ignore_dirs := u ".git";
       Cli.top := 20 |}
    {| Cli.isatty := true; Cli.input := Some (u "  ");
       Cli.resolve := fun _ => Ok Demo.small_root; Cli.local_fs := Demo.small_fs;
       Cli.check_bracketed_netloc := fun _ => None;
       Cli.quote := fun b => b;
       Cli.fetch_and_extract := fun _ _ => Raise (URLError (u "offline"));
       Cli.tmp := Demo.scratch |} eq_refl) as [_ Htty].
  rewrite Htty.
  - vm_compute. reflexivity.
  - reflexivity.
  - right. exists (u "  "). split; [reflexivity|]. by repeat constructor.
Defined.

(** X22. With a negative top-N the listing of either report holds the
    entries but the last [-N] (none when there are not that many), while
    the header announces N itself. *)
Theorem negative_top_listing
    (url : str) (per_file : list (Z * Path)) (total top : Z) :
  top < 0 ->
  Spec.printed_listing per_file total top
  = map Render.listing_line (take (length per_file - Z.to_nat (- top)) per_file)
  /\ Spec.rendered_listing url per_file total top
     = map Render.listing_line (take (length per_file - Z.to_nat (- top)) per_file)
  /\ Render.print_report per_file total top !! 3%nat
     = Some (u "Top " ++ Py.str_of_int top ++ u " files:").
Proof.
  intros Htop.
  assert (Hslice : Py.slice_to top per_file
                   = take (length per_file - Z.to_nat (- top)) per_file).
  { unfold Py.slice_to. rewrite (proj2 (Z.ltb_lt top 0) Htop). f_equal. lia. }
  unfold Spec.printed_listing, Spec.rendered_listing, Render.print_report,
    Render._render_lines. cbn [drop app]. rewrite Hslice.
  split; [done|]. split; [done|].
  cbn [lookup list_lookup]. unfold Render.shown. by rewrite Z.min_l by lia.
Qed.

Lemma negative_top_listing_witness :
  Spec.printed_listing [(120, [u "x.go"]); (80, [u "y.go"])] 200 (-1)
  = [u "     120  x.go"].
Proof.
  destruct (negative_top_listing [] [(120, [u "x.go"]); (80, [u "y.go"])] 200 (-1)
              ltac:(lia)) as [Hcli _].
  rewrite Hcli. vm_compute. reflexivity.
Defined.

(** ** More on the walker and on paths *)

(** X8. The walker yields regular files only, each of them an entry of
    the enumeration, and in the order of the enumeration. *)
Theorem walker_yields_files_in_order
    (fs : FileSystem) (root : Path) (extensions ignore_dirs : gset str) :
  CountLoc.iter_source_files fs root extensions ignore_dirs
    `sublist_of` CountLoc.rglob fs root
  /\ Forall (fun path => fs_is_file fs path = true)
       (CountLoc.iter_source_files fs root extensions ignore_dirs).
Proof.
  unfold CountLoc.iter_source_files. rewrite walk_filter. split.
  - apply sublist_filter.
  - apply Forall_forall. intros path Hin.
    apply list_elem_of_filter in Hin as [Hy _].
    by apply yielded_spec in Hy as (Hfile & _).
Qed.

Lemma rfind_from_spec (c : Z) (s : str) :
  forall i,
    ((c ∉ s) /\ Pathlib.rfind_from c i s = -1)
    \/ (0 <= i ->
        exists a b, s = a ++ c :: b /\ (c ∉ b)
                    /\ Pathlib.rfind_from c i s = i + Z.of_nat (length a)).
Proof.
  induction s as [|d s IH]; intros i.
  - left. split; [apply not_elem_of_nil|done].
  - cbn [Pathlib.rfind_from]. destruct (IH (i + 1)) as [[Hno Hr]|Hfound].
    + rewrite Hr. cbn [Z.eqb]. destruct (Z.eqb_spec d c) as [->|Hd].
      * right. intros Hi. exists [], s. split; [done|]. split; [done|].
        simpl. lia.
      * left. split; [|done]. by apply not_elem_of_cons.
    + destruct (Z.le_gt_cases 0 i) as [Hi|Hi].
      * destruct (Hfound ltac:(lia)) as (a & b & -> & Hb & Hr).
        right. intros _. exists (d :: a), b. split; [done|]. split; [done|].
        rewrite Hr. destruct (Z.eqb_spec (i + 1 + Z.of_nat (length a)) (-1)); [lia|].
        simpl length. lia.
      * right. intros ?. lia.
Qed.

(** The suffix of a path is empty or is the end of the name from
    its last dot on: a dot followed by at least one character, none of
    them a dot, after a name part that is not empty (so [.bashrc] and
    [archive.] have no suffix). *)
Theorem suffix_shape (p : Path) :
  Pathlib.suffix p = []
  \/ exists stem rest,
       Pathlib.name p = stem ++ Pathlib.suffix p
       /\ stem <> [] /\ Pathlib.suffix p = 46 :: rest
       /\ rest <> [] /\ (46 ∉ rest).
Proof.
  unfold Pathlib.suffix.
  destruct (rfind_from_spec 46 (Pathlib.name p) 0) as [[_ Hr]|Hfound].
  - rewrite Hr. by left.
  - destruct (Hfound ltac:(lia)) as (a & b & Hname & Hb & Hr).
    rewrite Hr, Hname.
    destruct ((0 <? 0 + Z.of_nat (length a))
              && (0 + Z.of_nat (length a) <? Z.of_nat (length (a ++ 46 :: b)) - 1))
      eqn:Hcond; [|by left].
    right. apply andb_true_iff in Hcond as [Ha Hlen].
    apply Z.ltb_lt in Ha. apply Z.ltb_lt in Hlen.
    rewrite length_app in Hlen. simpl length in Hlen.
    replace (Z.to_nat (0 + Z.of_nat (length a))) with (length a) by lia.
    rewrite drop_app_length. exists a, b. split; [done|].
    split; [by destruct a; [simpl in Ha; lia|]|]. split; [done|].
    split; [by destruct b; [simpl in Hlen; lia|]|done].
Qed.

Lemma find_absent (c : Z) (s : str) : c ∉ s -> Urllib.find c s = None.
Proof.
  induction s as [|d s IH]; intros Hc; [done|].
  apply not_elem_of_cons in Hc as [Hd Hc]. simpl.
  destruct (Z.eqb_spec d c); [congruence|]. by rewrite IH.
Qed.

Lemma lstrip_with_subset (p : Z -> bool) (s : str) (c : Z) :
  c ∈ Py.lstrip_with p s -> c ∈ s.
Proof.
  destruct (lstrip_with_suffix p s) as (w & Hs & _). intros Hin.
  rewrite Hs. apply elem_of_app. by right.
Qed.

Lemma strip_unsafe_subset (url0 : str) (c : Z) :
  c ∈ Urllib.strip_unsafe url0 -> c ∈ url0.
Proof.
  unfold Urllib.strip_unsafe. intros Hin.
  apply list_elem_of_filter in Hin as [_ Hin]. by apply lstrip_with_subset in Hin.
Qed.

Lemma splitnetloc_subset (s : str) (c : Z) :
  c ∈ (Urllib.splitnetloc s).1 -> c ∈ s.
Proof.
  induction s as [|d s IH]; [done|]. cbn [Urllib.splitnetloc].
  destruct ((d =? 47) || (d =? 63) || (d =? 35)).
  - intros Hin. by apply elem_of_nil in Hin.
  - destruct (Urllib.splitnetloc s) as [n r]. cbn [fst] in *.
    intros [->|Hin]%elem_of_cons; [left|right; by apply IH].
Qed.

Lemma split_scheme_no_colon (url : str) :
  (58 ∉ url) -> Urllib.split_scheme url = ([], url).
Proof. intros Hcolon. unfold Urllib.split_scheme. by rewrite find_absent. Qed.

Lemma split_netloc_unbracketed (check : str -> option str) (url : str) :
  (91 ∉ url) -> (93 ∉ url) ->
  exists nl rest,
    Urllib.split_netloc check url = Ok (nl, rest) /\ forall c, c ∈ nl -> c ∈ url.
Proof.
  intros Ho Hc. unfold Urllib.split_netloc.
  destruct (Py.startswith (u "//") url);
    [|exists [], url; split; [done|]; intros c Hin; by apply elem_of_nil in Hin].
  destruct (Urllib.splitnetloc (drop 2 url)) as [nl rest] eqn:Hnl.
  assert (Hsub : forall c, c ∈ nl -> c ∈ url).
  { intros c Hin. rewrite <- (take_drop 2 url). apply elem_of_app. right.
    apply splitnetloc_subset. by rewrite Hnl. }
  cbv zeta. rewrite !bool_decide_eq_false_2 by (intros Hin; auto).
  by exists nl, rest.
Qed.

(** X23. A target that holds no colon is never taken for a URL: the test
    gives [False], so that [main] treats the target as a local path,
    unless the URL parser refuses the target, which takes a square
    bracket or a character that is not safe under NFKC.  The only
    exception the test raises is a [ValueError].  And [https://], a host
    that is not empty and holds no slash, question mark, hash, tab, line
    break, square bracket or unsafe character, a slash and anything after
    it is always taken for a URL. *)
Theorem is_http_url_cases (check : str -> option str) (value : str) :
  (58 ∉ value -> Fetcher.is_http_url check value <> Ok true)
  /\ (58 ∉ value -> 91 ∉ value -> 93 ∉ value ->
      Forall (fun c => c ∉ Urllib.nfkc_unsafe) value ->
      Fetcher.is_http_url check value = Ok false)
  /\ (forall e, Fetcher.is_http_url check value = Raise e ->
                exists msg, e = ValueError msg)
  /\ (forall host tail,
        host <> [] ->
        Forall (fun c => c <> 47 /\ c <> 63 /\ c <> 35) host ->
        Forall (fun c => c <> 9 /\ c <> 13 /\ c <> 10) host ->
        (91 ∉ host) -> (93 ∉ host) ->
        Forall (fun c => c ∉ Urllib.nfkc_unsafe) host ->
        Fetcher.is_http_url check (u "https://" ++ host ++ 47 :: tail) = Ok true)
  /\ Fetcher.is_http_url check (u "//[x") = Raise (ValueError (u "Invalid IPv6 URL")).
Proof.
  assert (Hscheme : 58 ∉ value ->
            forall parsed, Urllib.urlparse check value = Ok parsed ->
                           Urllib.scheme parsed = []).
  { intros Hcolon parsed Hparsed.
    destruct (urlparse_components _ _ _ Hparsed) as (rest & rest' & Hs & _).
    rewrite split_scheme_no_colon in Hs by (intros Hin; by apply strip_unsafe_subset in Hin).
    by injection Hs as <-. }
  split; [|split; [|split; [|split]]].
  - intros Hcolon. unfold Fetcher.is_http_url.
    destruct (Urllib.urlparse check value) as [parsed|e] eqn:Hparsed; [|done].
    cbn [bind]. by rewrite (Hscheme Hcolon parsed eq_refl).
  - intros Hcolon Ho Hc Hsafe. unfold Fetcher.is_http_url.
    destruct (split_netloc_unbracketed check (Urllib.strip_unsafe value))
      as (nl & rest & Hnl & Hsub);
      [intros Hin; by apply strip_unsafe_subset in Hin..|].
    destruct (urlparse_built check value [] (Urllib.strip_unsafe value) nl rest)
      as (parsed & -> & Hsch & _).
    + apply split_scheme_no_colon. intros Hin. by apply strip_unsafe_subset in Hin.
    + exact Hnl.
    + apply checknetloc_safe, Forall_forall. intros c Hin.
      rewrite Forall_forall in Hsafe. by apply Hsafe, strip_unsafe_subset, Hsub.
    + cbn [bind]. rewrite Hsch. reflexivity.
  - intros e. unfold Fetcher.is_http_url.
    destruct (Urllib.urlparse check value) as [parsed|e'] eqn:Hparsed; [done|].
    intros [= <-]. by apply urlparse_raises in Hparsed.
  - intros host tail Hne Hhost Hplain Ho Hc Hsafe. unfold Fetcher.is_http_url.
    destruct (urlparse_https_host check host tail Hhost Hplain Ho Hc Hsafe)
      as (parsed & -> & Hs & Hn).
    apply truthy_ne in Hne. cbn [bind]. by rewrite Hs, Hn, Hne.
  - vm_compute. reflexivity.
Qed.

Lemma is_http_url_cases_witness :
  Fetcher.is_http_url (fun _ => None) (u "src/project") = Ok false
  /\ Fetcher.is_http_url (fun _ => None) (u "https://github.com/acme/widgets")
     = Ok true.
Proof.
  split.
  - destruct (is_http_url_cases (fun _ => None) (u "src/project")) as (_ & Hlocal & _).
    apply Hlocal;
      try (apply Forall_forall; intros c Hc); try intros Hc;
      apply list_elem_of_In in Hc; vm_compute in Hc;
      try intros Hbad%list_elem_of_In; try (vm_compute in Hbad); lia.
  - destruct (is_http_url_cases (fun _ => None) []) as (_ & _ & _ & Hurl & _).
    change (u "https://github.com/acme/widgets")
      with (u "https://" ++ u "github.com" ++ 47 :: u "acme/widgets").
    apply Hurl; [done|..];
      try (apply Forall_forall; intros c Hc); try intros Hc;
      apply list_elem_of_In in Hc; vm_compute in Hc;
      try intros Hbad%list_elem_of_In; try (vm_compute in Hbad); lia.
Defined.
